(** * The USBTMC driver (usbtmc.c): message transfer, abort handshakes,
      status byte and service request, disconnect

    A shallow embedding of [src/usbtmc.c].  The driver runs against two
    collaborators that are not part of it:

    - the USB core ([usb_control_msg], [usb_bulk_msg], [usb_clear_halt],
      the wait for the interrupt endpoint).  It is a mocked transport: a
      [script] of the answers the calls will get, and a [trace] of the calls
      the driver issued, oldest first.  A call that finds the script empty
      never returns ([Blocked]).
    - user space: a pointer is described by the bytes that can be read from
      it and by the number of bytes that can be written to it.

    Integers are [Z] with the C conversions written out ([u8], [u32],
    [to_int], ...).  Calls of [kmalloc] are taken to succeed; the [-ENOMEM]
    exits are not modelled, nor are the reference counts and the lifetime of
    the records.  Logging ([dev_dbg], [dev_err]), wake-ups and [kill_fasync]
    have no effect on the modelled state and are left out; so are the
    timeouts passed to the USB core.
    Operations on one device are serialised by [io_mutex]; a run of the model
    is such a serialisation, with the interrupt callback running between
    operations and during the wait of READ_STATUS_BYTE. *)

From Stdlib Require Import ZArith List Bool Lia.
From stdpp Require Import base option list gmap.
Import ListNotations.
Open Scope Z_scope.

(** ** Machine integers *)

Definition u8 (z : Z) : Z := z mod 256.
Definition u32 (z : Z) : Z := z mod 2 ^ 32.
Definition to_size_t (z : Z) : Z := z mod 2 ^ 64.
(** Conversion to a 32-bit [int]. *)
Definition to_int (z : Z) : Z := (z + 2 ^ 31) mod 2 ^ 32 - 2 ^ 31.

Definition Zlen {A} (l : list A) : Z := Z.of_nat (length l).
(** [buffer[i]], reading 0 past the modelled part of the buffer. *)
Definition byte_at (buffer : list Z) (i : Z) : Z := nth (Z.to_nat i) buffer 0.
(** The [n] bytes of [buffer] from offset [off]. *)
Definition slice (buffer : list Z) (off n : Z) : list Z :=
  firstn (Z.to_nat n) (skipn (Z.to_nat off) buffer).
Definition zeros (n : Z) : list Z := repeat 0 (Z.to_nat n).
Definition bool_to_Z (b : bool) : Z := if b then 1 else 0.
(** [roundup(x, 4)] of linux/kernel.h. *)
Definition roundup4 (x : Z) : Z := (x + 3) / 4 * 4.

(** ** Constants *)

Definition USBTMC_HEADER_SIZE : Z := 12.
Definition USBTMC_SIZE_IOBUFFER : Z := 2048.
Definition USBTMC_MIN_TIMEOUT : Z := 500.
Definition USBTMC_TIMEOUT : Z := 5000.
Definition USBTMC_MAX_READS_TO_CLEAR_BULK_IN : Z := 100.

(** errno values of the kernel. *)
Definition EPERM : Z := 1.
Definition EIO : Z := 5.
Definition EBADF : Z := 9.
Definition EFAULT : Z := 14.
Definition ENODEV : Z := 19.
Definition EINVAL : Z := 22.
Definition EBADRQC : Z := 56.
Definition ETIMEDOUT : Z := 110.
Definition ERESTARTSYS : Z := 512.

(** linux/usb/ch9.h *)
Definition USB_DIR_IN : Z := 128.
Definition USB_TYPE_CLASS : Z := 32.
Definition USB_RECIP_INTERFACE : Z := 1.
Definition USB_RECIP_ENDPOINT : Z := 2.

(** Modelled from the spec: tmc.h is not among the sources; section 6 of the
    specification gives the status byte of the class requests. *)
Definition USBTMC_STATUS_SUCCESS : Z := 1.
(** Modelled from the spec: tmc.h is not among the sources (section 6). *)
Definition USBTMC_STATUS_PENDING : Z := 2.
(** Modelled from the spec: tmc.h is not among the sources (section 6). *)
Definition USBTMC_STATUS_FAILED : Z := 129.
(** Modelled from the spec: tmc.h is not among the sources; section 4.7 puts
    the "simple" capability at bit 0 of the coalesced USB488 capabilities. *)
Definition USBTMC488_CAPABILITY_SIMPLE : Z := 1.

(** The request codes of tmc.h, kept symbolic since the header that numbers
    them is not among the sources.  [USER_REQUEST] is a [bRequest] byte
    supplied by the user through USBTMC_IOCTL_CTRL_REQUEST. *)
Inductive request : Type :=
| USBTMC_REQUEST_INITIATE_ABORT_BULK_OUT
| USBTMC_REQUEST_CHECK_ABORT_BULK_OUT_STATUS
| USBTMC_REQUEST_INITIATE_ABORT_BULK_IN
| USBTMC_REQUEST_CHECK_ABORT_BULK_IN_STATUS
| USBTMC_REQUEST_INITIATE_CLEAR
| USBTMC_REQUEST_CHECK_CLEAR_STATUS
| USBTMC_REQUEST_GET_CAPABILITIES
| USBTMC_REQUEST_INDICATOR_PULSE
| USBTMC488_REQUEST_READ_STATUS_BYTE
| USBTMC488_REQUEST_REN_CONTROL
| USBTMC488_REQUEST_GOTO_LOCAL
| USBTMC488_REQUEST_LOCAL_LOCKOUT
| USER_REQUEST (bRequest : Z).

Definition is_ren_control (cmd : request) : bool :=
  match cmd with USBTMC488_REQUEST_REN_CONTROL => true | _ => false end.

(** The ioctl commands of tmc.h; [IOCTL_OTHER] is any number the driver does
    not know. *)
Inductive ioctl_cmd : Type :=
| USBTMC_IOCTL_CLEAR_OUT_HALT
| USBTMC_IOCTL_CLEAR_IN_HALT
| USBTMC_IOCTL_INDICATOR_PULSE
| USBTMC_IOCTL_CLEAR
| USBTMC_IOCTL_ABORT_BULK_OUT
| USBTMC_IOCTL_ABORT_BULK_IN
| USBTMC_IOCTL_CTRL_REQUEST
| USBTMC_IOCTL_GET_TIMEOUT
| USBTMC_IOCTL_SET_TIMEOUT
| USBTMC_IOCTL_EOM_ENABLE
| USBTMC_IOCTL_CONFIG_TERMCHAR
| USBTMC488_IOCTL_GET_CAPS
| USBTMC488_IOCTL_READ_STB
| USBTMC488_IOCTL_REN_CONTROL
| USBTMC488_IOCTL_GOTO_LOCAL
| USBTMC488_IOCTL_LOCAL_LOCKOUT
| USBTMC488_IOCTL_TRIGGER
| IOCTL_OTHER (cmd : Z).

(** ** Device and handle records *)

Inductive xfer_type : Type := XferControl | XferIsoc | XferBulk | XferInt.

(** An endpoint descriptor of the interface's current altsetting. *)
Record endpoint : Type := {
  bEndpointAddress : Z;
  ep_dir_in : bool;
  ep_type : xfer_type;
  wMaxPacketSize : Z;
  bInterval : Z
}.

Definition usb_endpoint_maxp (e : endpoint) : Z := wMaxPacketSize e.
Definition usb_endpoint_is_bulk_in (e : endpoint) : bool :=
  match ep_type e with XferBulk => ep_dir_in e | _ => false end.
Definition usb_endpoint_is_bulk_out (e : endpoint) : bool :=
  match ep_type e with XferBulk => negb (ep_dir_in e) | _ => false end.
Definition usb_endpoint_is_int_in (e : endpoint) : bool :=
  match ep_type e with XferInt => ep_dir_in e | _ => false end.

Record usb_interface : Type := {
  bInterfaceNumber : Z;
  cur_altsetting : list endpoint
}.

Record usbtmc_dev_capabilities : Type := {
  interface_capabilities : Z;
  device_capabilities : Z;
  usb488_interface_capabilities : Z;
  usb488_device_capabilities : Z
}.

Record usbtmc_device_data : Type := {
  intf : usb_interface;
  bulk_in : Z;
  bulk_out : Z;
  bTag : Z;
  bTag_last_write : Z;
  bTag_last_read : Z;
  bNotify1 : Z;
  bNotify2 : Z;
  ifnum : Z;
  iin_bTag : Z;
  iin_data_valid : Z;
  iin_ep : Z;
  iin_ep_present : bool;
  iin_interval : Z;
  iin_urb : bool;            (* the interrupt URB exists and is submitted *)
  iin_wMaxPacketSize : Z;
  usb488_caps : Z;
  timeout : Z;
  TermChar : Z;
  TermCharEnabled : bool;
  auto_abort : bool;
  eom_val : bool;
  zombie : bool;
  capabilities : usbtmc_dev_capabilities
}.

Record usbtmc_file_data : Type := {
  srq_byte : Z;
  srq_asserted : Z;
  f_TermChar : Z;
  f_TermCharEnabled : bool;
  f_auto_abort : bool
}.

(** Assignments to the fields the driver writes after probe. *)
Definition set_bTag (v : Z) (d : usbtmc_device_data) : usbtmc_device_data :=
  {| intf := intf d; bulk_in := bulk_in d; bulk_out := bulk_out d; bTag := v;
     bTag_last_write := bTag_last_write d;
     bTag_last_read := bTag_last_read d; bNotify1 := bNotify1 d;
     bNotify2 := bNotify2 d; ifnum := ifnum d; iin_bTag := iin_bTag d;
     iin_data_valid := iin_data_valid d; iin_ep := iin_ep d;
     iin_ep_present := iin_ep_present d; iin_interval := iin_interval d;
     iin_urb := iin_urb d; iin_wMaxPacketSize := iin_wMaxPacketSize d;
     usb488_caps := usb488_caps d; timeout := timeout d;
     TermChar := TermChar d; TermCharEnabled := TermCharEnabled d;
     auto_abort := auto_abort d; eom_val := eom_val d; zombie := zombie d;
     capabilities := capabilities d |}.
Definition set_bTag_last_write (v : Z) (d : usbtmc_device_data) : usbtmc_device_data :=
  {| intf := intf d; bulk_in := bulk_in d; bulk_out := bulk_out d;
     bTag := bTag d; bTag_last_write := v;
     bTag_last_read := bTag_last_read d; bNotify1 := bNotify1 d;
     bNotify2 := bNotify2 d; ifnum := ifnum d; iin_bTag := iin_bTag d;
     iin_data_valid := iin_data_valid d; iin_ep := iin_ep d;
     iin_ep_present := iin_ep_present d; iin_interval := iin_interval d;
     iin_urb := iin_urb d; iin_wMaxPacketSize := iin_wMaxPacketSize d;
     usb488_caps := usb488_caps d; timeout := timeout d;
     TermChar := TermChar d; TermCharEnabled := TermCharEnabled d;
     auto_abort := auto_abort d; eom_val := eom_val d; zombie := zombie d;
     capabilities := capabilities d |}.
Definition set_bTag_last_read (v : Z) (d : usbtmc_device_data) : usbtmc_device_data :=
  {| intf := intf d; bulk_in := bulk_in d; bulk_out := bulk_out d;
     bTag := bTag d; bTag_last_write := bTag_last_write d;
     bTag_last_read := v; bNotify1 := bNotify1 d; bNotify2 := bNotify2 d;
     ifnum := ifnum d; iin_bTag := iin_bTag d;
     iin_data_valid := iin_data_valid d; iin_ep := iin_ep d;
     iin_ep_present := iin_ep_present d; iin_interval := iin_interval d;
     iin_urb := iin_urb d; iin_wMaxPacketSize := iin_wMaxPacketSize d;
     usb488_caps := usb488_caps d; timeout := timeout d;
     TermChar := TermChar d; TermCharEnabled := TermCharEnabled d;
     auto_abort := auto_abort d; eom_val := eom_val d; zombie := zombie d;
     capabilities := capabilities d |}.
Definition set_bNotify (v1 v2 : Z) (d : usbtmc_device_data) : usbtmc_device_data :=
  {| intf := intf d; bulk_in := bulk_in d; bulk_out := bulk_out d;
     bTag := bTag d; bTag_last_write := bTag_last_write d;
     bTag_last_read := bTag_last_read d; bNotify1 := v1; bNotify2 := v2;
     ifnum := ifnum d; iin_bTag := iin_bTag d;
     iin_data_valid := iin_data_valid d; iin_ep := iin_ep d;
     iin_ep_present := iin_ep_present d; iin_interval := iin_interval d;
     iin_urb := iin_urb d; iin_wMaxPacketSize := iin_wMaxPacketSize d;
     usb488_caps := usb488_caps d; timeout := timeout d;
     TermChar := TermChar d; TermCharEnabled := TermCharEnabled d;
     auto_abort := auto_abort d; eom_val := eom_val d; zombie := zombie d;
     capabilities := capabilities d |}.
Definition set_iin_bTag (v : Z) (d : usbtmc_device_data) : usbtmc_device_data :=
  {| intf := intf d; bulk_in := bulk_in d; bulk_out := bulk_out d;
     bTag := bTag d; bTag_last_write := bTag_last_write d;
     bTag_last_read := bTag_last_read d; bNotify1 := bNotify1 d;
     bNotify2 := bNotify2 d; ifnum := ifnum d; iin_bTag := v;
     iin_data_valid := iin_data_valid d; iin_ep := iin_ep d;
     iin_ep_present := iin_ep_present d; iin_interval := iin_interval d;
     iin_urb := iin_urb d; iin_wMaxPacketSize := iin_wMaxPacketSize d;
     usb488_caps := usb488_caps d; timeout := timeout d;
     TermChar := TermChar d; TermCharEnabled := TermCharEnabled d;
     auto_abort := auto_abort d; eom_val := eom_val d; zombie := zombie d;
     capabilities := capabilities d |}.
Definition set_iin_data_valid (v : Z) (d : usbtmc_device_data) : usbtmc_device_data :=
  {| intf := intf d; bulk_in := bulk_in d; bulk_out := bulk_out d;
     bTag := bTag d; bTag_last_write := bTag_last_write d;
     bTag_last_read := bTag_last_read d; bNotify1 := bNotify1 d;
     bNotify2 := bNotify2 d; ifnum := ifnum d; iin_bTag := iin_bTag d;
     iin_data_valid := v; iin_ep := iin_ep d;
     iin_ep_present := iin_ep_present d; iin_interval := iin_interval d;
     iin_urb := iin_urb d; iin_wMaxPacketSize := iin_wMaxPacketSize d;
     usb488_caps := usb488_caps d; timeout := timeout d;
     TermChar := TermChar d; TermCharEnabled := TermCharEnabled d;
     auto_abort := auto_abort d; eom_val := eom_val d; zombie := zombie d;
     capabilities := capabilities d |}.
Definition set_iin_urb (v : bool) (d : usbtmc_device_data) : usbtmc_device_data :=
  {| intf := intf d; bulk_in := bulk_in d; bulk_out := bulk_out d;
     bTag := bTag d; bTag_last_write := bTag_last_write d;
     bTag_last_read := bTag_last_read d; bNotify1 := bNotify1 d;
     bNotify2 := bNotify2 d; ifnum := ifnum d; iin_bTag := iin_bTag d;
     iin_data_valid := iin_data_valid d; iin_ep := iin_ep d;
     iin_ep_present := iin_ep_present d; iin_interval := iin_interval d;
     iin_urb := v; iin_wMaxPacketSize := iin_wMaxPacketSize d;
     usb488_caps := usb488_caps d; timeout := timeout d;
     TermChar := TermChar d; TermCharEnabled := TermCharEnabled d;
     auto_abort := auto_abort d; eom_val := eom_val d; zombie := zombie d;
     capabilities := capabilities d |}.
Definition set_usb488_caps (v : Z) (d : usbtmc_device_data) : usbtmc_device_data :=
  {| intf := intf d; bulk_in := bulk_in d; bulk_out := bulk_out d;
     bTag := bTag d; bTag_last_write := bTag_last_write d;
     bTag_last_read := bTag_last_read d; bNotify1 := bNotify1 d;
     bNotify2 := bNotify2 d; ifnum := ifnum d; iin_bTag := iin_bTag d;
     iin_data_valid := iin_data_valid d; iin_ep := iin_ep d;
     iin_ep_present := iin_ep_present d; iin_interval := iin_interval d;
     iin_urb := iin_urb d; iin_wMaxPacketSize := iin_wMaxPacketSize d;
     usb488_caps := v; timeout := timeout d; TermChar := TermChar d;
     TermCharEnabled := TermCharEnabled d; auto_abort := auto_abort d;
     eom_val := eom_val d; zombie := zombie d;
     capabilities := capabilities d |}.
Definition set_timeout (v : Z) (d : usbtmc_device_data) : usbtmc_device_data :=
  {| intf := intf d; bulk_in := bulk_in d; bulk_out := bulk_out d;
     bTag := bTag d; bTag_last_write := bTag_last_write d;
     bTag_last_read := bTag_last_read d; bNotify1 := bNotify1 d;
     bNotify2 := bNotify2 d; ifnum := ifnum d; iin_bTag := iin_bTag d;
     iin_data_valid := iin_data_valid d; iin_ep := iin_ep d;
     iin_ep_present := iin_ep_present d; iin_interval := iin_interval d;
     iin_urb := iin_urb d; iin_wMaxPacketSize := iin_wMaxPacketSize d;
     usb488_caps := usb488_caps d; timeout := v; TermChar := TermChar d;
     TermCharEnabled := TermCharEnabled d; auto_abort := auto_abort d;
     eom_val := eom_val d; zombie := zombie d;
     capabilities := capabilities d |}.
Definition set_TermChar (v : Z) (d : usbtmc_device_data) : usbtmc_device_data :=
  {| intf := intf d; bulk_in := bulk_in d; bulk_out := bulk_out d;
     bTag := bTag d; bTag_last_write := bTag_last_write d;
     bTag_last_read := bTag_last_read d; bNotify1 := bNotify1 d;
     bNotify2 := bNotify2 d; ifnum := ifnum d; iin_bTag := iin_bTag d;
     iin_data_valid := iin_data_valid d; iin_ep := iin_ep d;
     iin_ep_present := iin_ep_present d; iin_interval := iin_interval d;
     iin_urb := iin_urb d; iin_wMaxPacketSize := iin_wMaxPacketSize d;
     usb488_caps := usb488_caps d; timeout := timeout d; TermChar := v;
     TermCharEnabled := TermCharEnabled d; auto_abort := auto_abort d;
     eom_val := eom_val d; zombie := zombie d;
     capabilities := capabilities d |}.
Definition set_TermCharEnabled (v : bool) (d : usbtmc_device_data) : usbtmc_device_data :=
  {| intf := intf d; bulk_in := bulk_in d; bulk_out := bulk_out d;
     bTag := bTag d; bTag_last_write := bTag_last_write d;
     bTag_last_read := bTag_last_read d; bNotify1 := bNotify1 d;
     bNotify2 := bNotify2 d; ifnum := ifnum d; iin_bTag := iin_bTag d;
     iin_data_valid := iin_data_valid d; iin_ep := iin_ep d;
     iin_ep_present := iin_ep_present d; iin_interval := iin_interval d;
     iin_urb := iin_urb d; iin_wMaxPacketSize := iin_wMaxPacketSize d;
     usb488_caps := usb488_caps d; timeout := timeout d;
     TermChar := TermChar d; TermCharEnabled := v;
     auto_abort := auto_abort d; eom_val := eom_val d; zombie := zombie d;
     capabilities := capabilities d |}.
Definition set_auto_abort (v : bool) (d : usbtmc_device_data) : usbtmc_device_data :=
  {| intf := intf d; bulk_in := bulk_in d; bulk_out := bulk_out d;
     bTag := bTag d; bTag_last_write := bTag_last_write d;
     bTag_last_read := bTag_last_read d; bNotify1 := bNotify1 d;
     bNotify2 := bNotify2 d; ifnum := ifnum d; iin_bTag := iin_bTag d;
     iin_data_valid := iin_data_valid d; iin_ep := iin_ep d;
     iin_ep_present := iin_ep_present d; iin_interval := iin_interval d;
     iin_urb := iin_urb d; iin_wMaxPacketSize := iin_wMaxPacketSize d;
     usb488_caps := usb488_caps d; timeout := timeout d;
     TermChar := TermChar d; TermCharEnabled := TermCharEnabled d;
     auto_abort := v; eom_val := eom_val d; zombie := zombie d;
     capabilities := capabilities d |}.
Definition set_eom_val (v : bool) (d : usbtmc_device_data) : usbtmc_device_data :=
  {| intf := intf d; bulk_in := bulk_in d; bulk_out := bulk_out d;
     bTag := bTag d; bTag_last_write := bTag_last_write d;
     bTag_last_read := bTag_last_read d; bNotify1 := bNotify1 d;
     bNotify2 := bNotify2 d; ifnum := ifnum d; iin_bTag := iin_bTag d;
     iin_data_valid := iin_data_valid d; iin_ep := iin_ep d;
     iin_ep_present := iin_ep_present d; iin_interval := iin_interval d;
     iin_urb := iin_urb d; iin_wMaxPacketSize := iin_wMaxPacketSize d;
     usb488_caps := usb488_caps d; timeout := timeout d;
     TermChar := TermChar d; TermCharEnabled := TermCharEnabled d;
     auto_abort := auto_abort d; eom_val := v; zombie := zombie d;
     capabilities := capabilities d |}.
Definition set_zombie (v : bool) (d : usbtmc_device_data) : usbtmc_device_data :=
  {| intf := intf d; bulk_in := bulk_in d; bulk_out := bulk_out d;
     bTag := bTag d; bTag_last_write := bTag_last_write d;
     bTag_last_read := bTag_last_read d; bNotify1 := bNotify1 d;
     bNotify2 := bNotify2 d; ifnum := ifnum d; iin_bTag := iin_bTag d;
     iin_data_valid := iin_data_valid d; iin_ep := iin_ep d;
     iin_ep_present := iin_ep_present d; iin_interval := iin_interval d;
     iin_urb := iin_urb d; iin_wMaxPacketSize := iin_wMaxPacketSize d;
     usb488_caps := usb488_caps d; timeout := timeout d;
     TermChar := TermChar d; TermCharEnabled := TermCharEnabled d;
     auto_abort := auto_abort d; eom_val := eom_val d; zombie := v;
     capabilities := capabilities d |}.
Definition set_capabilities (v : usbtmc_dev_capabilities) (d : usbtmc_device_data) : usbtmc_device_data :=
  {| intf := intf d; bulk_in := bulk_in d; bulk_out := bulk_out d;
     bTag := bTag d; bTag_last_write := bTag_last_write d;
     bTag_last_read := bTag_last_read d; bNotify1 := bNotify1 d;
     bNotify2 := bNotify2 d; ifnum := ifnum d; iin_bTag := iin_bTag d;
     iin_data_valid := iin_data_valid d; iin_ep := iin_ep d;
     iin_ep_present := iin_ep_present d; iin_interval := iin_interval d;
     iin_urb := iin_urb d; iin_wMaxPacketSize := iin_wMaxPacketSize d;
     usb488_caps := usb488_caps d; timeout := timeout d;
     TermChar := TermChar d; TermCharEnabled := TermCharEnabled d;
     auto_abort := auto_abort d; eom_val := eom_val d; zombie := zombie d;
     capabilities := v |}.

Definition set_srq (byte flag : Z) (f : usbtmc_file_data) : usbtmc_file_data :=
  {| srq_byte := byte; srq_asserted := flag; f_TermChar := f_TermChar f;
     f_TermCharEnabled := f_TermCharEnabled f; f_auto_abort := f_auto_abort f |}.
Definition set_srq_asserted (flag : Z) (f : usbtmc_file_data) : usbtmc_file_data :=
  set_srq (srq_byte f) flag f.

(** [data->bTag++; if (!data->bTag) data->bTag++;] *)
Definition next_bTag (b : Z) : Z :=
  let b1 := u8 (b + 1) in
  if b1 =? 0 then u8 (b1 + 1) else b1.
Definition bump_bTag (d : usbtmc_device_data) : usbtmc_device_data :=
  set_bTag (next_bTag (bTag d)) d.

(** [data->iin_bTag += 1; if (data->iin_bTag > 127) data->iin_bTag = 2;] *)
Definition next_iin_bTag (b : Z) : Z :=
  let b1 := u8 (b + 1) in
  if b1 >? 127 then 2 else b1.
Definition bump_iin_bTag (d : usbtmc_device_data) : usbtmc_device_data :=
  set_iin_bTag (next_iin_bTag (iin_bTag d)) d.

(** ** User space *)

(** A pointer handed in by the user: the bytes that can be read from it and
    the number of bytes that can be written to it. *)
Record uptr : Type := { u_bytes : list Z; u_wsize : Z }.

(** [copy_from_user(to, from + off, n)]: the bytes, or [None] when the copy
    faults. *)
Definition copy_from_user (from : uptr) (off n : Z) : option (list Z) :=
  if (n =? 0) || (off + n <=? Zlen (u_bytes from))
  then Some (slice (u_bytes from) off n) else None.
(** [copy_to_user(to + off, from, n)] and [put_user]: whether the copy
    succeeds. *)
Definition copy_to_user (to : uptr) (off n : Z) : bool :=
  (n =? 0) || (off + n <=? u_wsize to).

(** [struct usbtmc_ctrlrequest] as the driver reads it from user space. *)
Record usbtmc_ctrlrequest : Type := {
  bRequestType : Z;
  bRequest : Z;
  wValue : Z;
  wIndex : Z;
  wLength : Z;
  req_data : uptr
}.

(** The argument of an ioctl: the memory it points to, and that memory read
    as a [struct usbtmc_ctrlrequest] ([None] when that read faults). *)
Record ioctl_arg : Type := {
  arg_ptr : uptr;
  arg_request : option usbtmc_ctrlrequest
}.

(** ** The transport *)

(** One completion of the interrupt-in URB: its status and the two
    notification bytes. *)
Record urb : Type := { urb_status : Z; urb_b0 : Z; urb_b1 : Z }.

(** What the USB core answers to one call.  [r_rv] is the return value;
    [r_actual] the length moved by a bulk-out transfer; [r_data] the bytes
    received by a bulk-in transfer, or the buffer as the driver finds it
    after a control transfer; [r_urbs], [r_rv] and [r_actual] describe a
    wait: the interrupt completions that arrive during it, whether a signal
    ends it, and the jiffies left of its timeout when it ends. *)
Record response : Type := {
  r_rv : Z;
  r_actual : Z;
  r_data : list Z;
  r_urbs : list urb
}.

Inductive event : Type :=
| EvControl (bRequest : request) (bRequestType wValue wIndex : Z)
            (payload : list Z) (wLength : Z)
| EvBulkOut (ep : Z) (buffer : list Z) (len : Z)
| EvBulkIn (ep : Z) (len : Z)
| EvClearHalt (ep_in : bool) (ep : Z)
| EvWait (timeout : Z).

Record transport : Type := { script : list response; trace : list event }.

(** ** Programs over a state *)

Inductive outcome (S A : Type) : Type :=
| Ret (a : A) (s : S)      (* returned [a] *)
| Blocked (s : S)          (* a transport call has not returned *)
| Spin (s : S).            (* the iteration bound of the model was reached *)
Arguments Ret {S A} a s.
Arguments Blocked {S A} s.
Arguments Spin {S A} s.

Definition prog (S A : Type) : Type := S -> outcome S A.

#[global] Instance prog_ret {S} : MRet (prog S) := fun A a s => Ret a s.
#[global] Instance prog_bind {S} : MBind (prog S) := fun A B f m s =>
  match m s with
  | Ret a s' => f a s'
  | Blocked s' => Blocked s'
  | Spin s' => Spin s'
  end.

Definition spin {S A} : prog S A := fun s => Spin s.
Definition final {S A} (o : outcome S A) : S :=
  match o with Ret _ s => s | Blocked s => s | Spin s => s end.
Definition result {S A} (o : outcome S A) : option A :=
  match o with Ret a _ => Some a | _ => None end.

Abbreviation io := (prog transport).

(** One call into the USB core. *)
Definition transfer (ev : event) : io response := fun t =>
  match script t with
  | [] => Blocked {| script := []; trace := trace t ++ [ev] |}
  | r :: rest => Ret r {| script := rest; trace := trace t ++ [ev] |}
  end.

(** Loops are unrolled at most once more than there are answers left in the
    script: every iteration of every loop of the driver makes a call. *)
Definition with_fuel {A} (loop : nat -> io A) : io A := fun t =>
  loop (S (length (script t))) t.

Definition usb_control_msg (req : request) (requesttype value index : Z)
    (payload : list Z) (size : Z) : io (Z * list Z) :=
  r ← transfer (EvControl req requesttype value index payload size);
  mret (r_rv r, r_data r).

(** [usb_bulk_msg] on [usb_sndbulkpipe]: return value and [actual], which the
    USB core keeps within the length offered. *)
Definition usb_bulk_msg_snd (ep : Z) (buffer : list Z) (len : Z) : io (Z * Z) :=
  r ← transfer (EvBulkOut ep buffer len);
  mret (r_rv r, Z.max 0 (Z.min len (r_actual r))).

(** [usb_bulk_msg] on [usb_rcvbulkpipe]: return value, [actual] and the
    bytes received, at most [len] of them. *)
Definition usb_bulk_msg_rcv (ep : Z) (len : Z) : io (Z * Z * list Z) :=
  r ← transfer (EvBulkIn ep len);
  let received := firstn (Z.to_nat len) (r_data r) in
  mret (r_rv r, Zlen received, received).

Definition usb_clear_halt (ep_in : bool) (ep : Z) : io Z :=
  r ← transfer (EvClearHalt ep_in ep);
  mret (r_rv r).

(** ** Abort and clear handshakes *)

Definition CLASS_IN_ENDPOINT : Z :=
  Z.lor USB_DIR_IN (Z.lor USB_TYPE_CLASS USB_RECIP_ENDPOINT).
Definition CLASS_IN_INTERFACE : Z :=
  Z.lor USB_DIR_IN (Z.lor USB_TYPE_CLASS USB_RECIP_INTERFACE).

(** The loop over the endpoints of the current altsetting that looks up
    wMaxPacketSize of the bulk-in endpoint (0 when it is not found). *)
Definition bulk_in_max_size (data : usbtmc_device_data) : Z :=
  fold_left (fun max_size e =>
               if bEndpointAddress e =? bulk_in data
               then usb_endpoint_maxp e else max_size)
            (cur_altsetting (intf data)) 0.

(** [do { usb_bulk_msg(...); n++; if (rv < 0) goto exit; }
     while (actual == max_size && n < USBTMC_MAX_READS_TO_CLEAR_BULK_IN);]
    [inl rv] is the jump to [exit]; [inr (actual, n)] the end of the loop. *)
Fixpoint drain_bulk_in (fuel : nat) (io_buffer_size : Z)
    (data : usbtmc_device_data) (max_size n : Z) : io (Z + Z * Z) :=
  match fuel with
  | O => spin
  | S fuel' =>
      '(rv, actual, _) ← usb_bulk_msg_rcv (bulk_in data) io_buffer_size;
      let n := n + 1 in
      if rv <? 0 then mret (inl rv)
      else if (actual =? max_size) && (n <? USBTMC_MAX_READS_TO_CLEAR_BULK_IN)
           then drain_bulk_in fuel' io_buffer_size data max_size n
           else mret (inr (actual, n))
  end.

(** From the label [usbtmc_abort_bulk_in_status] on. *)
Fixpoint abort_bulk_in_status (fuel : nat) (io_buffer_size : Z)
    (data : usbtmc_device_data) (max_size n actual : Z) : io Z :=
  match fuel with
  | O => spin
  | S fuel' =>
      '(rv, buffer) ← usb_control_msg USBTMC_REQUEST_CHECK_ABORT_BULK_IN_STATUS
                        CLASS_IN_ENDPOINT 0 (bulk_in data) [] 8;
      if rv <? 0 then mret rv
      else if byte_at buffer 0 =? USBTMC_STATUS_SUCCESS then mret 0
      else if negb (byte_at buffer 0 =? USBTMC_STATUS_PENDING) then mret (- EPERM)
      else
        r ← (if byte_at buffer 1 =? 1
             then with_fuel (fun f => drain_bulk_in f io_buffer_size data max_size n)
             else mret (inr (actual, n)));
        match r with
        | inl rv => mret rv
        | inr (actual, n) =>
            if actual =? max_size then mret (- EPERM)
            else abort_bulk_in_status fuel' io_buffer_size data max_size n actual
        end
  end.

Definition usbtmc_ioctl_abort_bulk_in (io_buffer_size : Z)
    (data : usbtmc_device_data) : io Z :=
  '(rv, buffer) ← usb_control_msg USBTMC_REQUEST_INITIATE_ABORT_BULK_IN
                    CLASS_IN_ENDPOINT (bTag_last_read data) (bulk_in data) [] 2;
  if rv <? 0 then mret rv
  else if byte_at buffer 0 =? USBTMC_STATUS_FAILED then mret 0
  else if negb (byte_at buffer 0 =? USBTMC_STATUS_SUCCESS) then mret (- EPERM)
  else
    let max_size := bulk_in_max_size data in
    if max_size =? 0 then mret (- EPERM)
    else
      r ← with_fuel (fun f => drain_bulk_in f io_buffer_size data max_size 0);
      match r with
      | inl rv => mret rv
      | inr (actual, _) =>
          if actual =? max_size then mret (- EPERM)
          else with_fuel (fun f =>
                 abort_bulk_in_status f io_buffer_size data max_size 0 actual)
      end.

(** From the label [usbtmc_abort_bulk_out_check_status] on. *)
Fixpoint abort_bulk_out_check_status (fuel : nat) (data : usbtmc_device_data)
    (n : Z) : io Z :=
  match fuel with
  | O => spin
  | S fuel' =>
      '(rv, buffer) ← usb_control_msg USBTMC_REQUEST_CHECK_ABORT_BULK_OUT_STATUS
                        CLASS_IN_ENDPOINT 0 (bulk_out data) [] 8;
      let n := n + 1 in
      if rv <? 0 then mret rv
      else if byte_at buffer 0 =? USBTMC_STATUS_SUCCESS then
        rv ← usb_clear_halt false (bulk_out data);
        if rv <? 0 then mret rv else mret 0
      else if (byte_at buffer 0 =? USBTMC_STATUS_PENDING)
              && (n <? USBTMC_MAX_READS_TO_CLEAR_BULK_IN)
           then abort_bulk_out_check_status fuel' data n
           else mret (- EPERM)
  end.

Definition usbtmc_ioctl_abort_bulk_out (data : usbtmc_device_data) : io Z :=
  '(rv, buffer) ← usb_control_msg USBTMC_REQUEST_INITIATE_ABORT_BULK_OUT
                    CLASS_IN_ENDPOINT (bTag_last_write data) (bulk_out data) [] 2;
  if rv <? 0 then mret rv
  else if negb (byte_at buffer 0 =? USBTMC_STATUS_SUCCESS) then mret (- EPERM)
  else with_fuel (fun f => abort_bulk_out_check_status f data 0).

(** From the label [usbtmc_clear_check_status] on. *)
Fixpoint clear_check_status (fuel : nat) (io_buffer_size : Z)
    (data : usbtmc_device_data) (max_size n actual : Z) : io Z :=
  match fuel with
  | O => spin
  | S fuel' =>
      '(rv, buffer) ← usb_control_msg USBTMC_REQUEST_CHECK_CLEAR_STATUS
                        CLASS_IN_INTERFACE 0 0 [] 2;
      if rv <? 0 then mret rv
      else if byte_at buffer 0 =? USBTMC_STATUS_SUCCESS then
        rv ← usb_clear_halt false (bulk_out data);
        if rv <? 0 then mret rv else mret 0
      else if negb (byte_at buffer 0 =? USBTMC_STATUS_PENDING) then mret (- EPERM)
      else
        r ← (if byte_at buffer 1 =? 1
             then with_fuel (fun f => drain_bulk_in f io_buffer_size data max_size n)
             else mret (inr (actual, n)));
        match r with
        | inl rv => mret rv
        | inr (actual, n) =>
            if actual =? max_size then mret (- EPERM)
            else clear_check_status fuel' io_buffer_size data max_size n actual
        end
  end.

Definition usbtmc_ioctl_clear (io_buffer_size : Z) (data : usbtmc_device_data)
  : io Z :=
  '(rv, buffer) ← usb_control_msg USBTMC_REQUEST_INITIATE_CLEAR
                    CLASS_IN_INTERFACE 0 0 [] 1;
  if rv <? 0 then mret rv
  else if negb (byte_at buffer 0 =? USBTMC_STATUS_SUCCESS) then mret (- EPERM)
  else
    let max_size := bulk_in_max_size data in
    if max_size =? 0 then mret (- EPERM)
    else with_fuel (fun f => clear_check_status f io_buffer_size data max_size 0 0).

Definition usbtmc_ioctl_clear_out_halt (data : usbtmc_device_data) : io Z :=
  rv ← usb_clear_halt false (bulk_out data);
  if rv <? 0 then mret rv else mret 0.

Definition usbtmc_ioctl_clear_in_halt (data : usbtmc_device_data) : io Z :=
  rv ← usb_clear_halt true (bulk_in data);
  if rv <? 0 then mret rv else mret 0.

Definition usbtmc_ioctl_indicator_pulse (data : usbtmc_device_data) : io Z :=
  '(rv, buffer) ← usb_control_msg USBTMC_REQUEST_INDICATOR_PULSE
                    CLASS_IN_INTERFACE 0 0 [] 1;
  if rv <? 0 then mret rv
  else if negb (byte_at buffer 0 =? USBTMC_STATUS_SUCCESS) then mret (- EPERM)
  else mret 0.

(** REN_CONTROL, GOTO_LOCAL and LOCAL_LOCKOUT. *)
Definition usbtmc488_ioctl_simple (data : usbtmc_device_data) (arg : uptr)
    (cmd : request) : io Z :=
  if Z.land (usb488_caps data) USBTMC488_CAPABILITY_SIMPLE =? 0
  then mret (- EINVAL)
  else
    match (if is_ren_control cmd
           then match copy_from_user arg 0 1 with
                | Some val => Some (if byte_at val 0 =? 0 then 0 else 1)
                | None => None
                end
           else Some 0) with
    | None => mret (- EFAULT)
    | Some wValue =>
        '(rv, buffer) ← usb_control_msg cmd CLASS_IN_INTERFACE wValue
                          (ifnum data) [] 1;
        if rv <? 0 then mret rv
        else if negb (rv =? 1) then mret (- EIO)
        else if negb (byte_at buffer 0 =? USBTMC_STATUS_SUCCESS) then mret (- EIO)
        else mret 0
    end.

(** USBTMC_IOCTL_CTRL_REQUEST.  Returns the value and the bytes stored
    through [request.data]. *)
Definition usbtmc_ioctl_request (data : usbtmc_device_data) (arg : ioctl_arg)
  : io (Z * list Z) :=
  match arg_request arg with
  | None => mret (- EFAULT, [])
  | Some request =>
      let dir_in := negb (Z.land (bRequestType request) USB_DIR_IN =? 0) in
      match (if dir_in then Some []
             else copy_from_user (req_data request) 0 (wLength request)) with
      | None => mret (- EFAULT, [])
      | Some payload =>
          '(rv, buffer) ← usb_control_msg (USER_REQUEST (bRequest request))
                            (bRequestType request) (wValue request)
                            (wIndex request) payload (wLength request);
          if rv <? 0 then mret (rv, [])
          else if dir_in then
            let rv := if rv >? wLength request then wLength request else rv in
            if copy_to_user (req_data request) 0 rv
            then mret (rv, slice buffer 0 rv)
            else mret (- EFAULT, [])
          else mret (rv, [])
      end
  end.

(** ** The driver's state *)

(** The module parameter [io_buffer_size], the device record, the open
    handles (the [file_list] of the device, keyed by the handle) and the
    transport.  An operation on a handle that is not open is answered
    [-EBADF], as the VFS does without entering the driver. *)
Record world : Type := {
  io_buffer_size : Z;
  data : usbtmc_device_data;
  files : gmap nat usbtmc_file_data;
  usb : transport
}.

Definition set_data (d : usbtmc_device_data) (w : world) : world :=
  {| io_buffer_size := io_buffer_size w; data := d; files := files w; usb := usb w |}.
Definition set_files (fs : gmap nat usbtmc_file_data) (w : world) : world :=
  {| io_buffer_size := io_buffer_size w; data := data w; files := fs; usb := usb w |}.
Definition set_usb (t : transport) (w : world) : world :=
  {| io_buffer_size := io_buffer_size w; data := data w; files := files w; usb := t |}.

Abbreviation M := (prog world).

Definition lift {A} (m : io A) : M A := fun w =>
  match m (usb w) with
  | Ret a t => Ret a (set_usb t w)
  | Blocked t => Blocked (set_usb t w)
  | Spin t => Spin (set_usb t w)
  end.

Definition get_data : M usbtmc_device_data := fun w => Ret (data w) w.
Definition get_files : M (gmap nat usbtmc_file_data) := fun w => Ret (files w) w.
Definition get_io_buffer_size : M Z := fun w => Ret (io_buffer_size w) w.
Definition modify_data (f : usbtmc_device_data -> usbtmc_device_data) : M unit :=
  fun w => Ret tt (set_data (f (data w)) w).
Definition modify_files
    (f : gmap nat usbtmc_file_data -> gmap nat usbtmc_file_data) : M unit :=
  fun w => Ret tt (set_files (f (files w)) w).
Definition with_fuelM {A} (loop : nat -> M A) : M A := fun w =>
  loop (S (length (script (usb w)))) w.

(** ** Interrupt-in notifications *)

Definition ENOENT : Z := 2.
Definition EPIPE : Z := 32.
Definition ETIME : Z := 62.
Definition EOVERFLOW : Z := 75.
Definition EILSEQ : Z := 84.
Definition ECONNRESET : Z := 104.
Definition ESHUTDOWN : Z := 108.

Definition urb_terminated (status : Z) : bool :=
  (status =? - EOVERFLOW) || (status =? - ECONNRESET) || (status =? - ENOENT)
  || (status =? - ESHUTDOWN) || (status =? - EILSEQ) || (status =? - ETIME)
  || (status =? - EPIPE).

(** The completion handler of the interrupt URB.  The result tells whether
    the URB is handed back to the USB core ([usb_submit_urb]). *)
Definition usbtmc_interrupt (u : urb) : M bool :=
  if urb_status u =? 0 then
    if urb_b0 u >? 129 then
      modify_data (fun d => set_iin_data_valid 1 (set_bNotify (urb_b0 u) (urb_b1 u) d));;
      mret true
    else if urb_b0 u =? 129 then
      modify_files (fun fs => set_srq (urb_b1 u) 1 <$> fs);;
      mret true
    else mret true
  else if urb_terminated (urb_status u) then mret false
  else mret true.

Fixpoint deliver_urbs (us : list urb) : M unit :=
  match us with
  | [] => mret tt
  | u :: us' => usbtmc_interrupt u;; deliver_urbs us'
  end.

(** [wait_event_interruptible_timeout(data->waitq,
      atomic_read(&data->iin_data_valid) != 0, data->timeout)]:
    the notifications of the answer arrive.  The value of the macro is a
    [long] (64 bits, so that the [u32] timeout converts to itself): when the
    condition holds, the jiffies left of [timeout], which the answer gives
    in [r_actual], and 1 when none is left; [-ERESTARTSYS] when a signal
    ended the wait; else 0. *)
Definition wait_event_interruptible_timeout (timeout : Z) : M Z :=
  r ← lift (transfer (EvWait timeout));
  deliver_urbs (r_urbs r);;
  data ← get_data;
  if negb (iin_data_valid data =? 0)
  then mret (Z.max 1 (Z.min timeout (r_actual r)))
  else if r_rv r <? 0 then mret (- ERESTARTSYS)
  else mret 0.

(** ** Capabilities *)

Definition get_capabilities : M Z :=
  '(rv, buffer) ← lift (usb_control_msg USBTMC_REQUEST_GET_CAPABILITIES
                          CLASS_IN_INTERFACE 0 0 [] 24);
  if rv <? 0 then mret rv
  else if negb (byte_at buffer 0 =? USBTMC_STATUS_SUCCESS) then mret (- EPERM)
  else
    modify_data (fun d =>
      set_usb488_caps
        (Z.lor (Z.land (byte_at buffer 14) 7)
               (Z.shiftl (Z.land (byte_at buffer 15) 15) 4))
        (set_capabilities
           {| interface_capabilities := byte_at buffer 4;
              device_capabilities := byte_at buffer 5;
              usb488_interface_capabilities := byte_at buffer 14;
              usb488_device_capabilities := byte_at buffer 15 |} d));;
    mret 0.

(** ** USB488: status byte, trigger *)

(** [put_user(stb, arg)] followed by the choice of the return value. *)
Definition put_stb (stb : Z) (arg : uptr) : Z * list Z :=
  if copy_to_user arg 0 1 then (0, [stb]) else (- EFAULT, []).

(** USBTMC488_IOCTL_READ_STB on handle [h].  Returns the value and the byte
    stored through [arg], if any. *)
Definition usbtmc488_ioctl_read_stb (h : nat) (arg : uptr) : M (Z * list Z) :=
  fs ← get_files;
  match fs !! h with
  | None => mret (- EBADF, [])
  | Some file_data =>
      (* srq_asserted = atomic_xchg(&file_data->srq_asserted, 0) *)
      modify_files (fun fs => <[h := set_srq_asserted 0 file_data]> fs);;
      if negb (srq_asserted file_data =? 0) then
        mret (put_stb (srq_byte file_data) arg)
      else
        modify_data (set_iin_data_valid 0);;
        data ← get_data;
        '(rv, buffer) ← lift (usb_control_msg USBTMC488_REQUEST_READ_STATUS_BYTE
                                CLASS_IN_INTERFACE (iin_bTag data) (ifnum data)
                                [] 3);
        r ← (if rv <? 0 then mret (rv, [])
             else if negb (byte_at buffer 0 =? USBTMC_STATUS_SUCCESS)
             then mret (- EIO, [])
             else if iin_ep_present data then
               rv ← wait_event_interruptible_timeout (timeout data);
               let rv := to_int rv in   (* int rv = (long) *)
               if rv <? 0 then mret (rv, [])
               else if rv =? 0 then mret (- ETIMEDOUT, [])
               else
                 data ← get_data;
                 mret (put_stb (bNotify2 data) arg)
             else mret (put_stb (byte_at buffer 2) arg));
        (* exit: bump interrupt bTag *)
        modify_data bump_iin_bTag;;
        mret r
  end.

(** The header shared by the three bulk-out messages. *)
Definition tag_bytes (MsgID : Z) (data : usbtmc_device_data) : list Z :=
  [MsgID; bTag data; u8 (Z.lnot (bTag data)); 0].

Definition le32_bytes (x : Z) : list Z :=
  [u8 (Z.shiftr x 0); u8 (Z.shiftr x 8); u8 (Z.shiftr x 16); u8 (Z.shiftr x 24)].

(** [data->bTag_last_write = data->bTag; data->bTag++;
     if (!data->bTag) data->bTag++;] *)
Definition store_and_bump_bTag : M unit :=
  modify_data (fun d => set_bTag_last_write (bTag d) d);;
  modify_data bump_bTag.

Definition usbtmc488_ioctl_trigger : M Z :=
  data ← get_data;
  let buffer := tag_bytes 128 data ++ zeros 8 in
  '(retval, actual) ← lift (usb_bulk_msg_snd (bulk_out data) buffer
                              USBTMC_HEADER_SIZE);
  store_and_bump_bTag;;
  mret retval.

(** ** Reading *)

(** The buffer of REQUEST_DEV_DEP_MSG_IN. *)
Definition request_dev_dep_msg_in (file_data : usbtmc_file_data)
    (data : usbtmc_device_data) (transfer_size : Z) : list Z :=
  tag_bytes 2 data ++ le32_bytes transfer_size
  ++ [bool_to_Z (f_TermCharEnabled file_data) * 2; f_TermChar file_data; 0; 0].

Definition send_request_dev_dep_msg_in (file_data : usbtmc_file_data)
    (transfer_size : Z) : M Z :=
  data ← get_data;
  let buffer := request_dev_dep_msg_in file_data data transfer_size in
  '(retval, actual) ← lift (usb_bulk_msg_snd (bulk_out data) buffer
                              USBTMC_HEADER_SIZE);
  store_and_bump_bTag;;
  mret retval.

(** [if (data->auto_abort) usbtmc_ioctl_abort_bulk_in(data);] *)
Definition auto_abort_bulk_in : M unit :=
  data ← get_data;
  if auto_abort data then
    iosz ← get_io_buffer_size;
    lift (usbtmc_ioctl_abort_bulk_in iosz data);; mret tt
  else mret tt.

(** [if (data->auto_abort) usbtmc_ioctl_abort_bulk_out(data);] *)
Definition auto_abort_bulk_out : M unit :=
  data ← get_data;
  if auto_abort data then lift (usbtmc_ioctl_abort_bulk_out data);; mret tt
  else mret tt.

(** [n_characters] of a DEV_DEP_MSG_IN header. *)
Definition header_n_characters (buffer : list Z) : Z :=
  u32 (byte_at buffer 4 + Z.shiftl (byte_at buffer 5) 8
       + Z.shiftl (byte_at buffer 6) 16 + Z.shiftl (byte_at buffer 7) 24).

(** The four sanity checks on the first packet of a reply, in the order of
    the source: the packet passes when none of them fires. *)
Definition header_ok (actual : Z) (buffer : list Z) (bTag_last_write this_part : Z)
  : bool :=
  negb (actual <? USBTMC_HEADER_SIZE)
  && (byte_at buffer 0 =? 2)
  && (byte_at buffer 1 =? bTag_last_write)
  && negb (header_n_characters buffer >? this_part).

(** The loop [while (remaining > 0)] of [usbtmc_read].  [out] collects the
    bytes copied to the user's buffer.  The result is the value of [retval]
    at the label [exit]. *)
Fixpoint read_loop (fuel : nat) (buf : uptr) (this_part remaining done : Z)
    (out : list Z) : M (Z * list Z) :=
  if negb (remaining >? 0) then mret (to_int done, out)
  else
    match fuel with
    | O => spin
    | S fuel' =>
        iosz ← get_io_buffer_size;
        data ← get_data;
        '(retval, actual, buffer) ← lift (usb_bulk_msg_rcv (bulk_in data) iosz);
        (* Store bTag (in case we need to abort) *)
        modify_data (fun d => set_bTag_last_read (bTag d) d);;
        data ← get_data;
        if retval <? 0 then auto_abort_bulk_in;; mret (retval, out)
        else if done =? 0 then
          if actual <? USBTMC_HEADER_SIZE then
            auto_abort_bulk_in;; mret (retval, out)
          else if negb (byte_at buffer 0 =? 2) then
            auto_abort_bulk_in;; mret (retval, out)
          else if negb (byte_at buffer 1 =? bTag_last_write data) then
            auto_abort_bulk_in;; mret (retval, out)
          else
            let n_characters := header_n_characters buffer in
            if n_characters >? this_part then
              auto_abort_bulk_in;; mret (retval, out)
            else
              let actual := actual - USBTMC_HEADER_SIZE in
              let remaining :=
                if remaining >? n_characters then n_characters else remaining in
              let actual := if actual >? remaining then remaining else actual in
              let remaining := remaining - actual in
              let remaining :=
                if negb (Z.land (byte_at buffer 8) 1 =? 0)
                   && (actual >=? n_characters)
                then 0 else remaining in
              if copy_to_user buf done actual then
                read_loop fuel' buf this_part remaining (done + actual)
                          (out ++ slice buffer USBTMC_HEADER_SIZE actual)
              else mret (- EFAULT, out)
        else
          let actual := if actual >? remaining then remaining else actual in
          let remaining := remaining - actual in
          if copy_to_user buf done actual then
            read_loop fuel' buf this_part remaining (done + actual)
                      (out ++ slice buffer 0 actual)
          else mret (- EFAULT, out)
    end.

(** [usbtmc_read] on handle [h]: the value returned and the bytes copied to
    [buf].  (The file position, kept by the VFS, is not modelled.) *)
Definition usbtmc_read (h : nat) (buf : uptr) (count : Z) : M (Z * list Z) :=
  fs ← get_files;
  match fs !! h with
  | None => mret (- EBADF, [])
  | Some file_data =>
      data ← get_data;
      if zombie data then mret (- ENODEV, [])
      else
        retval ← send_request_dev_dep_msg_in file_data count;
        if retval <? 0 then auto_abort_bulk_out;; mret (retval, [])
        else with_fuelM (fun f => read_loop f buf count count 0 [])
  end.

(** ** Writing *)

(** [do { retval = usb_bulk_msg(..., buffer, n_bytes, &actual, ...);
          if (retval != 0) break;
          n_bytes -= actual; } while (n_bytes);]
    Every round hands the USB core the start of [buffer]. *)
Fixpoint write_send (fuel : nat) (ep : Z) (buffer : list Z) (n_bytes : Z) : io Z :=
  match fuel with
  | O => spin
  | S fuel' =>
      '(retval, actual) ← usb_bulk_msg_snd ep buffer n_bytes;
      if negb (retval =? 0) then mret retval
      else
        let n_bytes := to_size_t (n_bytes - actual) in
        if negb (n_bytes =? 0) then write_send fuel' ep buffer n_bytes
        else mret retval
  end.

(** The DEV_DEP_MSG_OUT frame of one chunk: header, payload, zero padding up
    to a multiple of 4. *)
Definition dev_dep_msg_out (data : usbtmc_device_data) (this_part attr : Z)
    (payload : list Z) : list Z :=
  tag_bytes 1 data ++ le32_bytes this_part ++ [attr; 0; 0; 0] ++ payload
  ++ zeros (roundup4 (USBTMC_HEADER_SIZE + this_part)
            - (USBTMC_HEADER_SIZE + this_part)).

(** The loop [while (remaining > 0)] of [usbtmc_write]. *)
Fixpoint write_loop (fuel : nat) (buf : uptr) (count remaining done : Z) : M Z :=
  if negb (remaining >? 0) then mret (to_int count)
  else
    match fuel with
    | O => spin
    | S fuel' =>
        iosz ← get_io_buffer_size;
        data ← get_data;
        let '(this_part, attr) :=
          if u32 remaining >? u32 (iosz - USBTMC_HEADER_SIZE)
          then (to_int (u32 (iosz - USBTMC_HEADER_SIZE)), 0)
          else (remaining, bool_to_Z (eom_val data)) in
        match copy_from_user buf done this_part with
        | None => mret (- EFAULT)
        | Some payload =>
            let n_bytes := roundup4 (USBTMC_HEADER_SIZE + this_part) in
            let buffer := dev_dep_msg_out data this_part attr payload in
            retval ← lift (with_fuel (fun f =>
                             write_send f (bulk_out data) buffer n_bytes));
            store_and_bump_bTag;;
            if retval <? 0 then auto_abort_bulk_out;; mret retval
            else write_loop fuel' buf count (to_int (remaining - this_part))
                            (to_int (done + this_part))
        end
    end.

Definition usbtmc_write (h : nat) (buf : uptr) (count : Z) : M Z :=
  fs ← get_files;
  match fs !! h with
  | None => mret (- EBADF)
  | Some file_data =>
      data ← get_data;
      if zombie data then mret (- ENODEV)
      else with_fuelM (fun f => write_loop f buf count (to_int count) 0)
  end.

(** ** Device settings *)

Definition le32_value (bytes : list Z) : Z :=
  byte_at bytes 0 + Z.shiftl (byte_at bytes 1) 8 + Z.shiftl (byte_at bytes 2) 16
  + Z.shiftl (byte_at bytes 3) 24.

Definition usbtmc_ioctl_get_timeout (arg : uptr) : M (Z * list Z) :=
  data ← get_data;
  if copy_to_user arg 0 4 then mret (0, le32_bytes (timeout data))
  else mret (- EFAULT, []).

Definition usbtmc_ioctl_set_timeout (arg : uptr) : M Z :=
  match copy_from_user arg 0 4 with
  | None => mret (- EFAULT)
  | Some bytes =>
      let timeout := le32_value bytes in
      if timeout <? USBTMC_MIN_TIMEOUT then mret (- EINVAL)
      else modify_data (set_timeout timeout);; mret 0
  end.

Definition usbtmc_ioctl_eom_enable (arg : uptr) : M Z :=
  match copy_from_user arg 0 1 with
  | None => mret (- EFAULT)
  | Some bytes =>
      let eom_enable := byte_at bytes 0 in
      if eom_enable >? 1 then mret (- EINVAL)
      else modify_data (set_eom_val (negb (eom_enable =? 0)));; mret 0
  end.

(** [struct usbtmc_termchar] is read as [term_char] then
    [term_char_enabled]. *)
Definition usbtmc_ioctl_config_termc (arg : uptr) : M Z :=
  match copy_from_user arg 0 2 with
  | None => mret (- EFAULT)
  | Some bytes =>
      let term_char := byte_at bytes 0 in
      let term_char_enabled := byte_at bytes 1 in
      data ← get_data;
      if (term_char_enabled >? 1)
         || (negb (term_char_enabled =? 0)
             && (Z.land (device_capabilities (capabilities data)) 1 =? 0))
      then mret (- EINVAL)
      else
        modify_data (fun d =>
          set_TermCharEnabled (negb (term_char_enabled =? 0))
                              (set_TermChar term_char d));;
        mret 0
  end.

(** ** The ioctl entry point *)

Definition no_output (m : M Z) : M (Z * list Z) := rv ← m; mret (rv, []).

Definition usbtmc_ioctl (h : nat) (cmd : ioctl_cmd) (arg : ioctl_arg)
  : M (Z * list Z) :=
  fs ← get_files;
  match fs !! h with
  | None => mret (- EBADF, [])
  | Some file_data =>
      data ← get_data;
      iosz ← get_io_buffer_size;
      if zombie data then mret (- ENODEV, [])
      else
        match cmd with
        | USBTMC_IOCTL_CLEAR_OUT_HALT =>
            no_output (lift (usbtmc_ioctl_clear_out_halt data))
        | USBTMC_IOCTL_CLEAR_IN_HALT =>
            no_output (lift (usbtmc_ioctl_clear_in_halt data))
        | USBTMC_IOCTL_INDICATOR_PULSE =>
            no_output (lift (usbtmc_ioctl_indicator_pulse data))
        | USBTMC_IOCTL_CLEAR =>
            no_output (lift (usbtmc_ioctl_clear iosz data))
        | USBTMC_IOCTL_ABORT_BULK_OUT =>
            no_output (lift (usbtmc_ioctl_abort_bulk_out data))
        | USBTMC_IOCTL_ABORT_BULK_IN =>
            no_output (lift (usbtmc_ioctl_abort_bulk_in iosz data))
        | USBTMC_IOCTL_CTRL_REQUEST =>
            lift (usbtmc_ioctl_request data arg)
        | USBTMC_IOCTL_GET_TIMEOUT =>
            usbtmc_ioctl_get_timeout (arg_ptr arg)
        | USBTMC_IOCTL_SET_TIMEOUT =>
            no_output (usbtmc_ioctl_set_timeout (arg_ptr arg))
        | USBTMC_IOCTL_EOM_ENABLE =>
            no_output (usbtmc_ioctl_eom_enable (arg_ptr arg))
        | USBTMC_IOCTL_CONFIG_TERMCHAR =>
            no_output (usbtmc_ioctl_config_termc (arg_ptr arg))
        | USBTMC488_IOCTL_GET_CAPS =>
            if copy_to_user (arg_ptr arg) 0 1
            then mret (0, [usb488_caps data]) else mret (- EFAULT, [])
        | USBTMC488_IOCTL_READ_STB =>
            usbtmc488_ioctl_read_stb h (arg_ptr arg)
        | USBTMC488_IOCTL_REN_CONTROL =>
            no_output (lift (usbtmc488_ioctl_simple data (arg_ptr arg)
                               USBTMC488_REQUEST_REN_CONTROL))
        | USBTMC488_IOCTL_GOTO_LOCAL =>
            no_output (lift (usbtmc488_ioctl_simple data (arg_ptr arg)
                               USBTMC488_REQUEST_GOTO_LOCAL))
        | USBTMC488_IOCTL_LOCAL_LOCKOUT =>
            no_output (lift (usbtmc488_ioctl_simple data (arg_ptr arg)
                               USBTMC488_REQUEST_LOCAL_LOCKOUT))
        | USBTMC488_IOCTL_TRIGGER =>
            no_output usbtmc488_ioctl_trigger
        | IOCTL_OTHER _ => mret (- EBADRQC, [])
        end
  end.

(** ** Open, release, poll *)

(** [usbtmc_open]: the value returned and the new handle.  After disconnect
    the minor is gone and [usb_find_interface] finds nothing. *)
Definition usbtmc_open : M (Z * nat) :=
  data ← get_data;
  if zombie data then mret (- ENODEV, 0%nat)
  else
    fs ← get_files;
    let h := fresh (dom fs) in
    modify_files (fun fs =>
      <[h := {| srq_byte := 0; srq_asserted := 0;
                f_TermChar := TermChar data;
                f_TermCharEnabled := TermCharEnabled data;
                f_auto_abort := auto_abort data |}]> fs);;
    mret (0, h).

Definition usbtmc_release (h : nat) : M Z :=
  modify_files (fun fs => delete h fs);;
  mret 0.

Definition POLLPRI : Z := 2.
Definition POLLERR : Z := 8.
Definition POLLHUP : Z := 16.

Definition usbtmc_poll (h : nat) : M Z :=
  fs ← get_files;
  match fs !! h with
  | None => mret (- EBADF)
  | Some file_data =>
      data ← get_data;
      if zombie data then mret (Z.lor POLLHUP POLLERR)
      else if negb (srq_asserted file_data =? 0) then mret POLLPRI
      else mret 0
  end.

(** ** sysfs attributes of the device *)

(** [TermChar_store]: [first] is [buf[0]]. *)
Definition TermChar_store (first : Z) (count : Z) : M Z :=
  if count <? 1 then mret (- EINVAL)
  else modify_data (set_TermChar first);; mret count.

(** [TermCharEnabled_store] and [auto_abort_store]: [val] is what [sscanf]
    left in the local variable, [scanned] whether it converted a number. *)
Definition TermCharEnabled_store (scanned : bool) (val : Z) (count : Z) : M Z :=
  modify_data (set_TermCharEnabled (negb (val =? 0)));;
  if scanned then mret count else mret (- EINVAL).

Definition auto_abort_store (scanned : bool) (val : Z) (count : Z) : M Z :=
  modify_data (set_auto_abort (negb (val =? 0)));;
  if scanned then mret count else mret (- EINVAL).

(** ** Probe and disconnect *)

Definition usbtmc_free_int : M unit :=
  data ← get_data;
  if negb (iin_ep_present data) || negb (iin_urb data) then mret tt
  else modify_data (set_iin_urb false).

Definition usbtmc_disconnect : M unit :=
  modify_data (set_zombie true);;
  usbtmc_free_int.

Definition first_address (p : endpoint -> bool) (eps : list endpoint) : Z :=
  match List.find p eps with
  | Some e => bEndpointAddress e
  | None => 0
  end.

(** The device record as [usbtmc_probe] fills it in before it asks the
    device for its capabilities. *)
Definition probe_data (usb_timeout : Z) (interface : usb_interface)
  : usbtmc_device_data :=
  let eps := cur_altsetting interface in
  let iin := List.find usb_endpoint_is_int_in eps in
  {| intf := interface;
     bulk_in := first_address usb_endpoint_is_bulk_in eps;
     bulk_out := first_address usb_endpoint_is_bulk_out eps;
     bTag := 1;
     bTag_last_write := 0;
     bTag_last_read := 0;
     bNotify1 := 0;
     bNotify2 := 0;
     ifnum := bInterfaceNumber interface;
     iin_bTag := 2;
     iin_data_valid := 0;
     iin_ep := match iin with Some e => bEndpointAddress e | None => 0 end;
     iin_ep_present := match iin with Some _ => true | None => false end;
     iin_interval := match iin with Some e => bInterval e | None => 0 end;
     iin_urb := false;
     iin_wMaxPacketSize :=
       match iin with Some e => usb_endpoint_maxp e | None => 0 end;
     usb488_caps := 0;
     timeout := usb_timeout;
     TermChar := 10;
     TermCharEnabled := false;
     auto_abort := false;
     eom_val := true;
     zombie := false;
     capabilities :=
       {| interface_capabilities := 0; device_capabilities := 0;
          usb488_interface_capabilities := 0;
          usb488_device_capabilities := 0 |} |}.

(** [usbtmc_probe].  [io_buffer_size] and [usb_timeout] are the module
    parameters as loaded; [submitted] and [registered] are the results of
    [usb_submit_urb] and [usb_register_dev]; [answers] is what the transport
    will answer.  The outcome carries the state of the device; it stays
    bound to the interface when the value is 0. *)
Definition usbtmc_probe (io_buffer_size usb_timeout : Z)
    (interface : usb_interface) (submitted registered : Z)
    (answers : list response) : outcome world Z :=
  let io_buffer_size := if io_buffer_size <? 512 then 512 else io_buffer_size in
  let io_buffer_size := io_buffer_size - io_buffer_size mod 4 in
  let usb_timeout :=
    if usb_timeout <? USBTMC_MIN_TIMEOUT then USBTMC_MIN_TIMEOUT else usb_timeout in
  (get_capabilities;;
   data ← get_data;
   if iin_ep_present data && negb (submitted =? 0) then
     mret submitted
   else
     (if iin_ep_present data then modify_data (set_iin_urb true) else mret tt);;
     if negb (registered =? 0) then usbtmc_free_int;; mret registered
     else mret 0)
  {| io_buffer_size := io_buffer_size;
     data := probe_data usb_timeout interface;
     files := ∅;
     usb := {| script := answers; trace := [] |} |}.

(** ** Runs of the driver *)

Inductive op : Type :=
| OpOpen
| OpRelease (h : nat)
| OpRead (h : nat) (buf : uptr) (count : Z)
| OpWrite (h : nat) (buf : uptr) (count : Z)
| OpIoctl (h : nat) (cmd : ioctl_cmd) (arg : ioctl_arg)
| OpPoll (h : nat)
| OpInterrupt (u : urb)
| OpTermCharStore (first count : Z)
| OpTermCharEnabledStore (scanned : bool) (val count : Z)
| OpAutoAbortStore (scanned : bool) (val count : Z)
| OpDisconnect.

Definition forget {A} (m : M A) : M unit := m;; mret tt.

Definition run_op (o : op) : M unit :=
  match o with
  | OpOpen => forget usbtmc_open
  | OpRelease h => forget (usbtmc_release h)
  | OpRead h buf count => forget (usbtmc_read h buf count)
  | OpWrite h buf count => forget (usbtmc_write h buf count)
  | OpIoctl h cmd arg => forget (usbtmc_ioctl h cmd arg)
  | OpPoll h => forget (usbtmc_poll h)
  | OpInterrupt u => forget (usbtmc_interrupt u)
  | OpTermCharStore first count => forget (TermChar_store first count)
  | OpTermCharEnabledStore scanned val count =>
      forget (TermCharEnabled_store scanned val count)
  | OpAutoAbortStore scanned val count =>
      forget (auto_abort_store scanned val count)
  | OpDisconnect => usbtmc_disconnect
  end.

(** The transport answers of one operation are appended to what is left of
    the script. *)
Definition feed (answers : list response) (w : world) : world :=
  set_usb {| script := script (usb w) ++ answers; trace := trace (usb w) |} w.

(** The state in which operation [o], given [answers], leaves the driver. *)
Definition exec (o : op) (answers : list response) (w : world) : world :=
  final (run_op o (feed answers w)).

(** The states the driver can be in: after a successful probe, and after any
    operation from such a state. *)
Inductive reachable : world -> Prop :=
| reach_probe iosz tmo interface submitted registered answers w :
    usbtmc_probe iosz tmo interface submitted registered answers = Ret 0 w ->
    reachable w
| reach_exec o answers w :
    reachable w -> reachable (exec o answers w).

(** The state after a sequence of operations, each with its answers. *)
Fixpoint run_ops (ops : list (op * list response)) (w : world) : world :=
  match ops with
  | [] => w
  | (o, answers) :: ops' => run_ops ops' (exec o answers w)
  end.


(** * Statements about the driver *)

(** ** Invariants of the device record and of the trace *)

Definition is_bulk_out (ev : event) : bool :=
  match ev with EvBulkOut _ _ _ => true | _ => false end.

(** A bulk-out transfer is handed a buffer whose byte 1 is a non-zero tag and
    whose byte 2 is the one's complement of it. *)
Definition frame_ok (ev : event) : Prop :=
  match ev with
  | EvBulkOut _ buffer _ =>
      byte_at buffer 1 <> 0 /\ byte_at buffer 2 = u8 (Z.lnot (byte_at buffer 1))
  | _ => True
  end.

(** The tags are in range and (when [z] is set) the device is a zombie. *)
Definition tags_ok (z : bool) (d : usbtmc_device_data) : Prop :=
  1 <= bTag d <= 255
  /\ 2 <= iin_bTag d <= 127
  /\ (z = true -> zombie d = true).

(** [tags_ok], and every bulk-out frame so far is well tagged. *)
Definition Inv (z : bool) (w : world) : Prop :=
  tags_ok z (data w) /\ Forall frame_ok (trace (usb w)).

(** [m] keeps the invariant from every state that satisfies [C], wherever it
    ends. *)
Definition keeps {A} (z : bool) (C : world -> Prop) (m : M A) : Prop :=
  forall w, Inv z w -> C w -> Inv z (final (m w)).

(** [m] only adds calls to the trace, all of them in [P]. *)
Definition emits {A} (P : event -> Prop) (m : io A) : Prop :=
  forall t, exists evs, trace (final (m t)) = trace t ++ evs /\ Forall P evs.

(** [m] makes no bulk-out transfer. *)
Definition quiet {A} (m : io A) : Prop :=
  emits (fun ev => is_bulk_out ev = false) m.


(** ** Instruments for the examples *)

Definition bulk_endpoint (address : Z) (dir_in : bool) : endpoint :=
  {| bEndpointAddress := address; ep_dir_in := dir_in; ep_type := XferBulk;
     wMaxPacketSize := 64; bInterval := 0 |}.
Definition interrupt_endpoint (address : Z) : endpoint :=
  {| bEndpointAddress := address; ep_dir_in := true; ep_type := XferInt;
     wMaxPacketSize := 2; bInterval := 1 |}.

(** A USB488 instrument with an interrupt-in endpoint, and one with the two
    bulk endpoints only. *)
Definition scope_interface : usb_interface :=
  {| bInterfaceNumber := 0;
     cur_altsetting :=
       [bulk_endpoint 129 true; bulk_endpoint 2 false; interrupt_endpoint 131] |}.
Definition meter_interface : usb_interface :=
  {| bInterfaceNumber := 0;
     cur_altsetting := [bulk_endpoint 129 true; bulk_endpoint 2 false] |}.

(** An answer of the transport: return value and bytes. *)
Definition answer (rv : Z) (bytes : list Z) : response :=
  {| r_rv := rv; r_actual := 0; r_data := bytes; r_urbs := [] |}.
(** A bulk-out transfer that returns 0 after moving [n] bytes. *)
Definition moved (n : Z) : response :=
  {| r_rv := 0; r_actual := n; r_data := []; r_urbs := [] |}.
(** A wait during which the notifications [us] arrive. *)
Definition notified (us : list urb) : response :=
  {| r_rv := 0; r_actual := 0; r_data := []; r_urbs := us |}.

(** GET_CAPABILITIES answers: all USB488 capabilities, and none. *)
Definition full_capabilities : response :=
  answer 24 ([1; 0; 0; 0; 0; 1; 0; 0; 0; 0; 0; 0; 0; 0; 7; 15] ++ zeros 8).
Definition no_capabilities : response :=
  answer 24 ([1; 0; 0; 0; 0; 0; 0; 0; 0; 0; 0; 0; 0; 0; 0; 0] ++ zeros 8).

(** The scope after probe, and with one and two open handles (0 and 1). *)
Definition scope : world :=
  final (usbtmc_probe USBTMC_SIZE_IOBUFFER USBTMC_TIMEOUT scope_interface 0 0
           [full_capabilities]).
Definition scope_open : world := exec OpOpen [] scope.
Definition scope_open2 : world := exec OpOpen [] scope_open.
(** The meter after probe, with one open handle (0). *)
Definition meter : world :=
  final (usbtmc_probe USBTMC_SIZE_IOBUFFER USBTMC_TIMEOUT meter_interface 0 0
           [no_capabilities]).
Definition meter_open : world := exec OpOpen [] meter.

Definition user_buffer (size : Z) : uptr := {| u_bytes := []; u_wsize := size |}.
Definition user_bytes (bytes : list Z) : uptr := {| u_bytes := bytes; u_wsize := 0 |}.
Definition user_arg (p : uptr) : ioctl_arg := {| arg_ptr := p; arg_request := None |}.

(** The scope with two open handles after the notification [0x81, 0x42]. *)
Definition scope_srq : world :=
  exec (OpInterrupt {| urb_status := 0; urb_b0 := 129; urb_b1 := 66 |}) []
       scope_open2.

(** The scope with an open handle, unplugged, then polled and hit by a late
    notification. *)
Definition scope_unplugged : world :=
  run_ops [(OpPoll 0%nat, []);
           (OpInterrupt {| urb_status := 0; urb_b0 := 129; urb_b1 := 66 |}, [])]
          (exec OpDisconnect [] scope_open).

(** The scope after a write of five bytes, a trigger and a read request. *)
Definition scope_busy : world :=
  run_ops [(OpWrite 0%nat (user_bytes [65; 66; 67; 68; 69]) 5, [moved 20]);
           (OpIoctl 0%nat USBTMC488_IOCTL_TRIGGER (user_arg (user_buffer 0)),
            [moved 12]);
           (OpRead 0%nat (user_buffer 64) 64, [moved 12])]
          scope_open.

(** The meter after 125 READ_STB operations: the interrupt tag is at 127. *)
Definition meter_polled : world :=
  run_ops (repeat (OpIoctl 0%nat USBTMC488_IOCTL_READ_STB (user_arg (user_buffer 1)),
                   [answer 3 [1; 0; 16]]) 125)
          meter_open.

(** The scope with an open handle and [auto_abort] switched on through its
    attribute. *)
Definition scope_auto : world := exec (OpAutoAbortStore true 1 2) [] scope_open.

(** A DEV_DEP_MSG_IN reply: header with [MsgID], [tag], [n_characters] and
    the end-of-message bit, then the payload as given. *)
Definition reply (MsgID tag n_characters : Z) (payload : list Z) : response :=
  answer 0 ([MsgID; tag; u8 (Z.lnot tag); 0] ++ le32_bytes n_characters
            ++ [1; 0; 0; 0] ++ payload).

(** The state with the given parts. *)
Definition mk_world (iosz : Z) (d : usbtmc_device_data)
    (fs : gmap nat usbtmc_file_data) (s : list response) (tr : list event) : world :=
  {| io_buffer_size := iosz; data := d; files := fs;
     usb := {| script := s; trace := tr |} |}.

Definition is_initiate_abort_bulk_in (ev : event) : bool :=
  match ev with
  | EvControl USBTMC_REQUEST_INITIATE_ABORT_BULK_IN _ _ _ _ _ => true
  | _ => false
  end.

(** A read gets as far as its first bulk-in transfer: the device is live,
    the request was sent without fault, and bytes were asked for. *)
Definition read_reaches_bulk_in (w : world) (count : Z) : bool :=
  negb (zombie (data w))
  && match script (usb w) with r0 :: _ => 0 <=? r_rv r0 | [] => false end
  && (count >? 0).

(** ** Observations on a trace *)

(** The buffer of the last bulk-out transfer among [evs]. *)
Fixpoint last_bulk_out (evs : list event) : option (list Z) :=
  match evs with
  | [] => None
  | ev :: evs' =>
      match last_bulk_out evs' with
      | Some buffer => Some buffer
      | None => match ev with EvBulkOut _ buffer _ => Some buffer | _ => None end
      end
  end.

(** The bytes that reach the bulk-out endpoint: each transfer of the trace
    moves, of the length it offers from the start of its buffer, as many
    bytes as its answer says. *)
Fixpoint bulk_out_bytes (evs : list event) (answers : list response) : list Z :=
  match evs, answers with
  | EvBulkOut _ buffer len :: evs', r :: answers' =>
      slice buffer 0 (Z.max 0 (Z.min len (r_actual r)))
      ++ bulk_out_bytes evs' answers'
  | _ :: evs', _ :: answers' => bulk_out_bytes evs' answers'
  | _, _ => []
  end.

(** The calls an operation added to the trace of [w]. *)
Definition new_events {A} (w : world) (o : outcome world A) : list event :=
  skipn (length (trace (usb w))) (trace (usb (final o))).

(** ** The iteration bound of the model *)

(** The answers left in the script. *)
Definition left_io (t : transport) : nat := length (script t).
Definition left (w : world) : nat := length (script (usb w)).

(** An outcome that is not [Spin], and that used [k] answers at least if it
    returned. *)
Definition uses {S A} (len : S -> nat) (k : nat) (s : S) (o : outcome S A) : Prop :=
  match o with
  | Ret _ s' => (len s' + k <= len s)%nat
  | Blocked _ => True
  | Spin _ => False
  end.

(** [m] never reaches the iteration bound, and uses [k] answers at least,
    from every state with fewer than [n] answers left. *)
Definition runs {S A} (len : S -> nat) (n k : nat) (m : prog S A) : Prop :=
  forall s, (len s < n)%nat -> uses len k s (m s).
(** The same from every state. *)
Definition total {S A} (len : S -> nat) (k : nat) (m : prog S A) : Prop :=
  forall s, uses len k s (m s).

(** ** Frames on the bulk-out pipe *)

(** The buffers of the bulk-out transfers among [evs], oldest first. *)
Fixpoint bulk_out_frames (evs : list event) : list (list Z) :=
  match evs with
  | [] => []
  | EvBulkOut _ buffer _ :: evs' => buffer :: bulk_out_frames evs'
  | _ :: evs' => bulk_out_frames evs'
  end.

(** What a device reads out of a DEV_DEP_MSG_OUT frame: the TransferSize
    bytes after the header, and the end-of-message bit. *)
Definition frame_payload (frame : list Z) : list Z :=
  slice frame USBTMC_HEADER_SIZE (header_n_characters frame).
Definition frame_eom (frame : list Z) : bool :=
  negb (Z.land (byte_at frame 8) 1 =? 0).

(** Of a sequence of frames only the last one is marked end-of-message, and
    it is marked as [eom] says. *)
Fixpoint eom_only_last (eom : bool) (frames : list (list Z)) : Prop :=
  match frames with
  | [] => True
  | [frame] => frame_eom frame = eom
  | frame :: frames' => frame_eom frame = false /\ eom_only_last eom frames'
  end.

(** The transport moves all of a bulk-out transfer of up to [n] bytes. *)
Definition completes (n : Z) (r : response) : Prop :=
  r_rv r = 0 /\ n <= r_actual r.

(** The transfers that hand [frames] to endpoint [ep], each in one piece. *)
Definition sent (ep : Z) (frames : list (list Z)) : list event :=
  map (fun frame => EvBulkOut ep frame (Zlen frame)) frames.

(** ** Handshakes on a trace *)

Definition is_check_abort_bulk_out (ev : event) : bool :=
  match ev with
  | EvControl USBTMC_REQUEST_CHECK_ABORT_BULK_OUT_STATUS _ _ _ _ _ => true
  | _ => false
  end.
Definition is_bulk_in (ev : event) : bool :=
  match ev with EvBulkIn _ _ => true | _ => false end.

(** How many of the calls [evs] are in [p]. *)
Definition count_events (p : event -> bool) (evs : list event) : nat :=
  length (List.filter p evs).

(** The two status requests as the handshakes issue them. *)
Definition check_abort_bulk_out_status (d : usbtmc_device_data) : event :=
  EvControl USBTMC_REQUEST_CHECK_ABORT_BULK_OUT_STATUS CLASS_IN_ENDPOINT 0
            (bulk_out d) [] 8.
Definition check_abort_bulk_in_status (d : usbtmc_device_data) : event :=
  EvControl USBTMC_REQUEST_CHECK_ABORT_BULK_IN_STATUS CLASS_IN_ENDPOINT 0
            (bulk_in d) [] 8.
Definition check_clear_status : event :=
  EvControl USBTMC_REQUEST_CHECK_CLEAR_STATUS CLASS_IN_INTERFACE 0 0 [] 2.

(** An answer to a class request: the transfer worked and the device put
    [status] in the first byte. *)
Definition answers_status (status : Z) (r : response) : Prop :=
  0 <= r_rv r /\ byte_at (r_data r) 0 = status.

(** A bulk-in transfer of [io_buffer_size] bytes that brings a packet of
    exactly [max_size] bytes. *)
Definition fills (io_buffer_size max_size : Z) (r : response) : Prop :=
  0 <= r_rv r /\ Zlen (firstn (Z.to_nat io_buffer_size) (r_data r)) = max_size.
(** One that brings a packet of another size. *)
Definition falls_short (io_buffer_size max_size : Z) (r : response) : Prop :=
  0 <= r_rv r /\ Zlen (firstn (Z.to_nat io_buffer_size) (r_data r)) <> max_size.
(** A status answer "pending" that announces no data to be read. *)
Definition pending_no_data (r : response) : Prop :=
  answers_status USBTMC_STATUS_PENDING r /\ byte_at (r_data r) 1 <> 1.

(** ** What stays as probe left it *)

(** The part of the device record that describes the device: the interface
    with its number, the endpoints, and the capabilities. *)
Definition description (d : usbtmc_device_data) :=
  (intf d, ifnum d, bulk_in d, bulk_out d,
   (iin_ep d, iin_ep_present d, iin_interval d, iin_wMaxPacketSize d),
   usb488_caps d, capabilities d).

(** From [w] to [w'] the description is the same and the timeout has not
    fallen below the minimum. *)
Definition settled (w w' : world) : Prop :=
  description (data w') = description (data w)
  /\ (USBTMC_MIN_TIMEOUT <= timeout (data w) ->
      USBTMC_MIN_TIMEOUT <= timeout (data w')).

(** [m] leaves every state settled, wherever it ends. *)
Definition stays {A} (m : M A) : Prop := forall w, settled w (final (m w)).

(** ** Notifications *)

(** A completion of the interrupt URB that carries the answer to
    READ_STATUS_BYTE. *)
Definition is_stb_notification (u : urb) : bool :=
  (urb_status u =? 0) && (urb_b0 u >? 129).
(** The service request [0x81, stb]. *)
Definition srq_notification (stb : Z) : urb :=
  {| urb_status := 0; urb_b0 := 129; urb_b1 := stb |}.

(** ** Capabilities *)

(** The USB488 capabilities as [get_capabilities] packs them in one byte:
    the interface capabilities in bits 0..2, the device capabilities in
    bits 4..7. *)
Definition coalesced (c : usbtmc_dev_capabilities) : Z :=
  Z.lor (Z.land (usb488_interface_capabilities c) 7)
        (Z.shiftl (Z.land (usb488_device_capabilities c) 15) 4).

(** [n] TRIGGER commands on handle [h], each with its answer. *)
Definition triggers (h : nat) (arg : ioctl_arg) (answers : list response)
  : list (op * list response) :=
  map (fun r => (OpIoctl h USBTMC488_IOCTL_TRIGGER arg, [r])) answers.

(** ** Replies on the bulk-in pipe *)

(** A bulk-in transfer that works and brings no more than [io_buffer_size]
    bytes. *)
Definition arrives (io_buffer_size : Z) (r : response) : Prop :=
  0 <= r_rv r /\ Zlen (r_data r) <= io_buffer_size.
(** The bytes a sequence of transfers brings. *)
Definition received_bytes (rs : list response) : list Z :=
  concat (map r_data rs).

(** ** More instruments for the examples *)

(** The scope probed with [io_buffer_size] at its minimum of 512, one handle
    open: a frame carries 500 bytes at most. *)
Definition scope_512 : world :=
  exec OpOpen []
    (final (usbtmc_probe 512 USBTMC_TIMEOUT scope_interface 0 0 [full_capabilities])).

(** The handle record that [usbtmc_open] makes on a device with the settings
    of probe. *)
Definition fresh_handle : usbtmc_file_data :=
  {| srq_byte := 0; srq_asserted := 0; f_TermChar := 10;
     f_TermCharEnabled := false; f_auto_abort := false |}.

(** Status answers of the handshakes: success, pending without data, and a
    full packet of the scope's bulk-in endpoint. *)
Definition status_success : response := answer 8 [1; 0; 0; 0; 0; 0; 0; 0].
Definition status_pending : response := answer 8 [2; 0; 0; 0; 0; 0; 0; 0].
Definition full_packet : response := answer 0 (repeat 0 64).
(** * Lemmas *)

(** ** Arithmetic of the tags *)

Lemma u8_range z : 0 <= u8 z <= 255.
Proof. unfold u8. pose proof (Z.mod_pos_bound z 256). lia. Qed.

Lemma u8_small z : 0 <= z <= 255 -> u8 z = z.
Proof. intros. unfold u8. apply Z.mod_small. lia. Qed.

Lemma next_bTag_range b : 1 <= next_bTag b <= 255.
Proof.
  unfold next_bTag. pose proof (u8_range (b + 1)).
  destruct (u8 (b + 1) =? 0) eqn:E.
  - apply Z.eqb_eq in E. rewrite E. vm_compute. split; discriminate.
  - apply Z.eqb_neq in E. lia.
Qed.

Lemma next_bTag_step b : 1 <= b <= 255 ->
  next_bTag b = if b =? 255 then 1 else b + 1.
Proof.
  intros Hb. unfold next_bTag.
  destruct (b =? 255) eqn:E.
  - apply Z.eqb_eq in E. subst b. reflexivity.
  - apply Z.eqb_neq in E. rewrite (u8_small (b + 1)) by lia.
    destruct (b + 1 =? 0) eqn:E0; [apply Z.eqb_eq in E0; lia | reflexivity].
Qed.

Lemma next_iin_bTag_step b : 2 <= b <= 127 ->
  next_iin_bTag b = if b =? 127 then 2 else b + 1.
Proof.
  intros Hb. unfold next_iin_bTag. rewrite (u8_small (b + 1)) by lia.
  destruct (b =? 127) eqn:E.
  - apply Z.eqb_eq in E. subst b. reflexivity.
  - apply Z.eqb_neq in E.
    destruct (b + 1 >? 127) eqn:E1; [apply Z.gtb_lt in E1; lia | reflexivity].
Qed.

Lemma next_iin_bTag_range b : 2 <= b <= 127 -> 2 <= next_iin_bTag b <= 127.
Proof.
  intros Hb. rewrite next_iin_bTag_step by assumption.
  destruct (b =? 127) eqn:E; [lia | apply Z.eqb_neq in E; lia].
Qed.

(** The tag and its complement in a header built from the device record. *)
Lemma tag_bytes_tag MsgID d rest :
  byte_at (tag_bytes MsgID d ++ rest) 1 = bTag d.
Proof. reflexivity. Qed.

Lemma tag_bytes_complement MsgID d rest :
  byte_at (tag_bytes MsgID d ++ rest) 2 = u8 (Z.lnot (bTag d)).
Proof. reflexivity. Qed.

(** ** What the programs add to the trace *)

Lemma final_bind {S A B} (m : prog S A) (k : A -> prog S B) s :
  final ((m ≫= k) s) =
  match m s with Ret a s' => final (k a s') | Blocked s' => s' | Spin s' => s' end.
Proof. unfold mbind, prog_bind. destruct (m s); reflexivity. Qed.

Lemma emits_ret {A} P (a : A) : emits P (mret a).
Proof. intros t. exists []. cbn. rewrite app_nil_r. auto. Qed.

Lemma emits_spin {A} P : emits P (@spin _ A).
Proof. intros t. exists []. cbn. rewrite app_nil_r. auto. Qed.

Lemma emits_bind {A B} P (m : io A) (k : A -> io B) :
  emits P m -> (forall a, emits P (k a)) -> emits P (m ≫= k).
Proof.
  intros Hm Hk t. rewrite final_bind. destruct (Hm t) as (e1 & E1 & F1).
  destruct (m t) as [a t'|t'|t']; cbn in E1; try (exists e1; auto; fail).
  destruct (Hk a t') as (e2 & E2 & F2). exists (e1 ++ e2).
  rewrite E2, E1, app_assoc. split; [reflexivity | apply Forall_app; auto].
Qed.

Lemma emits_transfer (P : event -> Prop) ev : P ev -> emits P (transfer ev).
Proof.
  intros H t. exists [ev]. unfold transfer.
  destruct (script t); cbn; split; auto.
Qed.

Lemma emits_with_fuel {A} P (loop : nat -> io A) :
  (forall fuel, emits P (loop fuel)) -> emits P (with_fuel loop).
Proof. intros H t. apply H. Qed.

Lemma quiet_ret {A} (a : A) : quiet (mret a).
Proof. apply emits_ret. Qed.

Lemma quiet_spin {A} : quiet (@spin _ A).
Proof. apply emits_spin. Qed.

Lemma quiet_bind {A B} (m : io A) (k : A -> io B) :
  quiet m -> (forall a, quiet (k a)) -> quiet (m ≫= k).
Proof. apply emits_bind. Qed.

Lemma quiet_with_fuel {A} (loop : nat -> io A) :
  (forall fuel, quiet (loop fuel)) -> quiet (with_fuel loop).
Proof. apply emits_with_fuel. Qed.

Lemma quiet_usb_control_msg req ty v i p n : quiet (usb_control_msg req ty v i p n).
Proof.
  unfold usb_control_msg. apply quiet_bind.
  - apply emits_transfer. reflexivity.
  - intros. apply quiet_ret.
Qed.

Lemma quiet_usb_bulk_msg_rcv ep n : quiet (usb_bulk_msg_rcv ep n).
Proof.
  unfold usb_bulk_msg_rcv. apply quiet_bind.
  - apply emits_transfer. reflexivity.
  - intros. apply quiet_ret.
Qed.

Lemma quiet_usb_clear_halt b ep : quiet (usb_clear_halt b ep).
Proof.
  unfold usb_clear_halt. apply quiet_bind.
  - apply emits_transfer. reflexivity.
  - intros. apply quiet_ret.
Qed.

Create HintDb quiet.
#[local] Hint Resolve quiet_ret quiet_spin quiet_usb_control_msg
  quiet_usb_bulk_msg_rcv quiet_usb_clear_halt : quiet.

(** Splits a program along its binds and its case distinctions. *)
Ltac quiet_step :=
  match goal with
  | |- quiet (_ ≫= _) => apply quiet_bind; [| intros]
  | |- quiet (with_fuel _) => apply quiet_with_fuel; intros
  | |- quiet (if ?b then _ else _) => destruct b
  | |- quiet (match ?x with inl _ => _ | inr _ => _ end) => destruct x
  | |- quiet (match ?x with Some _ => _ | None => _ end) => destruct x
  | |- quiet (let '(_, _) := ?x in _) => destruct x
  | |- quiet _ => solve [auto with quiet]
  end.
Ltac quiet_auto := repeat quiet_step.

Lemma quiet_drain_bulk_in fuel iosz d max_size n :
  quiet (drain_bulk_in fuel iosz d max_size n).
Proof.
  revert n. induction fuel as [|fuel IH]; intros n; cbn [drain_bulk_in].
  - apply quiet_spin.
  - quiet_auto.
Qed.
#[local] Hint Resolve quiet_drain_bulk_in : quiet.

Lemma quiet_abort_bulk_in_status fuel iosz d max_size n actual :
  quiet (abort_bulk_in_status fuel iosz d max_size n actual).
Proof.
  revert n actual. induction fuel as [|fuel IH]; intros n actual;
    cbn [abort_bulk_in_status].
  - apply quiet_spin.
  - quiet_auto.
Qed.
#[local] Hint Resolve quiet_abort_bulk_in_status : quiet.

Lemma quiet_usbtmc_ioctl_abort_bulk_in iosz d :
  quiet (usbtmc_ioctl_abort_bulk_in iosz d).
Proof. unfold usbtmc_ioctl_abort_bulk_in. quiet_auto. Qed.

Lemma quiet_abort_bulk_out_check_status fuel d n :
  quiet (abort_bulk_out_check_status fuel d n).
Proof.
  revert n. induction fuel as [|fuel IH]; intros n;
    cbn [abort_bulk_out_check_status].
  - apply quiet_spin.
  - quiet_auto.
Qed.
#[local] Hint Resolve quiet_abort_bulk_out_check_status : quiet.

Lemma quiet_usbtmc_ioctl_abort_bulk_out d : quiet (usbtmc_ioctl_abort_bulk_out d).
Proof. unfold usbtmc_ioctl_abort_bulk_out. quiet_auto. Qed.

Lemma quiet_clear_check_status fuel iosz d max_size n actual :
  quiet (clear_check_status fuel iosz d max_size n actual).
Proof.
  revert n actual. induction fuel as [|fuel IH]; intros n actual;
    cbn [clear_check_status].
  - apply quiet_spin.
  - quiet_auto.
Qed.
#[local] Hint Resolve quiet_clear_check_status : quiet.

Lemma quiet_usbtmc_ioctl_clear iosz d : quiet (usbtmc_ioctl_clear iosz d).
Proof. unfold usbtmc_ioctl_clear. quiet_auto. Qed.

Lemma quiet_usbtmc_ioctl_clear_out_halt d : quiet (usbtmc_ioctl_clear_out_halt d).
Proof. unfold usbtmc_ioctl_clear_out_halt. quiet_auto. Qed.

Lemma quiet_usbtmc_ioctl_clear_in_halt d : quiet (usbtmc_ioctl_clear_in_halt d).
Proof. unfold usbtmc_ioctl_clear_in_halt. quiet_auto. Qed.

Lemma quiet_usbtmc_ioctl_indicator_pulse d : quiet (usbtmc_ioctl_indicator_pulse d).
Proof. unfold usbtmc_ioctl_indicator_pulse. quiet_auto. Qed.

Lemma quiet_usbtmc488_ioctl_simple d arg cmd : quiet (usbtmc488_ioctl_simple d arg cmd).
Proof. unfold usbtmc488_ioctl_simple. quiet_auto. Qed.

Lemma quiet_usbtmc_ioctl_request d arg : quiet (usbtmc_ioctl_request d arg).
Proof. unfold usbtmc_ioctl_request. quiet_auto. Qed.

#[local] Hint Resolve quiet_usbtmc_ioctl_abort_bulk_in
  quiet_usbtmc_ioctl_abort_bulk_out quiet_usbtmc_ioctl_clear
  quiet_usbtmc_ioctl_clear_out_halt quiet_usbtmc_ioctl_clear_in_halt
  quiet_usbtmc_ioctl_indicator_pulse quiet_usbtmc488_ioctl_simple
  quiet_usbtmc_ioctl_request : quiet.

(** The bulk-out transfers of one chunk all hand over the same buffer. *)
Lemma emits_write_send fuel ep buffer n_bytes :
  emits (fun ev => exists len, ev = EvBulkOut ep buffer len)
        (write_send fuel ep buffer n_bytes).
Proof.
  revert n_bytes. induction fuel as [|fuel IH]; intros n_bytes; cbn [write_send].
  - apply emits_spin.
  - apply emits_bind.
    + unfold usb_bulk_msg_snd. apply emits_bind.
      * apply emits_transfer. eauto.
      * intros. apply emits_ret.
    + intros [retval actual].
      destruct (negb (retval =? 0)); [apply emits_ret |].
      destruct (negb (to_size_t (n_bytes - actual) =? 0));
        [apply IH | apply emits_ret].
Qed.

(** ** The invariant through the programs of the driver *)

Lemma final_lift {A} (m : io A) w : final (lift m w) = set_usb (final (m (usb w))) w.
Proof. unfold lift. destruct (m (usb w)); reflexivity. Qed.

Lemma keeps_ret {A} z C (a : A) : keeps z C (mret a).
Proof. intros w H _. exact H. Qed.

Lemma keeps_spin {A} z C : keeps z C (@spin _ A).
Proof. intros w H _. exact H. Qed.

Lemma keeps_weaken {A} z (C : world -> Prop) (m : M A) :
  keeps z (fun _ => True) m -> keeps z C m.
Proof. intros H w HI _. apply H; auto. Qed.

Lemma keeps_bind {A B} z C (m : M A) (k : A -> M B) :
  keeps z C m -> (forall a, keeps z (fun _ => True) (k a)) -> keeps z C (m ≫= k).
Proof.
  intros Hm Hk w HI HC. rewrite final_bind. specialize (Hm w HI HC).
  destruct (m w) as [a w'|w'|w']; cbn in Hm; auto. apply Hk; auto.
Qed.

Lemma keeps_get_data {B} z C (k : usbtmc_device_data -> M B) :
  (forall d, keeps z (fun w => C w /\ data w = d) (k d)) ->
  keeps z C (get_data ≫= k).
Proof. intros H w HI HC. apply (H (data w)); auto. Qed.

Lemma keeps_get_files {B} z C (k : gmap nat usbtmc_file_data -> M B) :
  (forall fs, keeps z C (k fs)) -> keeps z C (get_files ≫= k).
Proof. intros H w HI HC. apply (H (files w)); auto. Qed.

Lemma keeps_get_io_buffer_size {B} z C (k : Z -> M B) :
  (forall n, keeps z C (k n)) -> keeps z C (get_io_buffer_size ≫= k).
Proof. intros H w HI HC. apply (H (io_buffer_size w)); auto. Qed.

Lemma keeps_modify_data z C f :
  (forall d, tags_ok z d -> tags_ok z (f d)) -> keeps z C (modify_data f).
Proof. intros H w [HT HF] _. split; cbn; auto. Qed.

Lemma keeps_modify_files z C f : keeps z C (modify_files f).
Proof. intros w H _. exact H. Qed.

Lemma keeps_with_fuelM {A} z C (loop : nat -> M A) :
  (forall fuel, keeps z C (loop fuel)) -> keeps z C (with_fuelM loop).
Proof. intros H w. apply H. Qed.

Lemma keeps_lift {A} z (C : world -> Prop) P (m : io A) :
  emits P m -> (forall w ev, Inv z w -> C w -> P ev -> frame_ok ev) ->
  keeps z C (lift m).
Proof.
  intros Hm HP w HI HC. rewrite final_lift. destruct (Hm (usb w)) as (evs & E & F).
  destruct HI as [HT HF]. split; [exact HT |]. cbn. rewrite E.
  apply Forall_app. split; [exact HF |].
  eapply Forall_impl; [exact F |]. intros ev. apply (HP w); [split |]; assumption.
Qed.

Lemma keeps_lift_quiet {A} z C (m : io A) : quiet m -> keeps z C (lift m).
Proof.
  intros Hm. eapply keeps_lift; [exact Hm |].
  intros w ev _ _. destruct ev; cbn; intros; auto; discriminate.
Qed.

(** A buffer that starts with the header built from the device record is
    well tagged. *)
Lemma keeps_lift_frame {A} z ep buffer (m : io A) d :
  emits (fun ev => exists len, ev = EvBulkOut ep buffer len) m ->
  byte_at buffer 1 = bTag d -> byte_at buffer 2 = u8 (Z.lnot (bTag d)) ->
  keeps z (fun w => True /\ data w = d) (lift m).
Proof.
  intros Hm H1 H2. eapply keeps_lift; [exact Hm |].
  intros w ev [(Hb & _) _] [_ Hd] [len ->]. cbn. subst d.
  rewrite H2, H1. split; [lia | reflexivity].
Qed.

Lemma tags_ok_same z d d' :
  bTag d' = bTag d -> iin_bTag d' = iin_bTag d -> zombie d' = zombie d ->
  tags_ok z d -> tags_ok z d'.
Proof. unfold tags_ok. intros -> -> ->. auto. Qed.

Ltac tags_same := intros; eapply tags_ok_same; [reflexivity .. | assumption].

Lemma tags_ok_bump_bTag z d : tags_ok z d -> tags_ok z (bump_bTag d).
Proof.
  intros (H1 & H2 & H3). repeat split; cbn; try apply next_bTag_range; tauto.
Qed.

Lemma tags_ok_bump_iin_bTag z d : tags_ok z d -> tags_ok z (bump_iin_bTag d).
Proof.
  intros (H1 & H2 & H3). pose proof (next_iin_bTag_range _ H2).
  repeat split; cbn; tauto.
Qed.

Lemma tags_ok_set_zombie z d : tags_ok z d -> tags_ok z (set_zombie true d).
Proof. intros (H1 & H2 & H3). repeat split; cbn; tauto. Qed.

Create HintDb keeps.
#[local] Hint Resolve keeps_ret keeps_spin keeps_modify_files : keeps.
#[local] Hint Resolve quiet_ret quiet_spin quiet_usb_control_msg : keeps.

Ltac keeps_step :=
  match goal with
  | |- keeps _ _ (get_data ≫= _) => apply keeps_get_data; intros
  | |- keeps _ _ (get_files ≫= _) => apply keeps_get_files; intros
  | |- keeps _ _ (get_io_buffer_size ≫= _) => apply keeps_get_io_buffer_size; intros
  | |- keeps _ _ (_ ≫= _) => apply keeps_bind; [| intros]
  | |- keeps _ _ (with_fuelM _) => apply keeps_with_fuelM; intros
  | |- keeps _ _ (if ?b then _ else _) => destruct b
  | |- keeps _ _ (match ?x with Some _ => _ | None => _ end) => destruct x
  | |- keeps _ _ (let '(_, _) := ?x in _) => destruct x
  | |- keeps _ _ (lift _) => apply keeps_lift_quiet; solve [auto with quiet]
  | |- keeps _ _ (modify_data bump_bTag) =>
      apply keeps_modify_data, tags_ok_bump_bTag
  | |- keeps _ _ (modify_data bump_iin_bTag) =>
      apply keeps_modify_data, tags_ok_bump_iin_bTag
  | |- keeps _ _ (modify_data (set_zombie true)) =>
      apply keeps_modify_data, tags_ok_set_zombie
  | |- keeps _ _ (modify_data _) => apply keeps_modify_data; tags_same
  | |- keeps _ _ _ => solve [auto with keeps]
  end.
Ltac keeps_auto := repeat keeps_step.

Lemma keeps_usbtmc_interrupt z C u : keeps z C (usbtmc_interrupt u).
Proof. unfold usbtmc_interrupt. keeps_auto. Qed.

Lemma keeps_deliver_urbs z C us : keeps z C (deliver_urbs us).
Proof.
  apply keeps_weaken. induction us as [|u us IH]; cbn [deliver_urbs].
  - apply keeps_ret.
  - apply keeps_bind; [apply keeps_usbtmc_interrupt | intros; exact IH].
Qed.
#[local] Hint Resolve keeps_usbtmc_interrupt keeps_deliver_urbs : keeps.

Lemma keeps_wait z C tmo : keeps z C (wait_event_interruptible_timeout tmo).
Proof.
  unfold wait_event_interruptible_timeout. keeps_auto.
  apply keeps_lift_quiet, emits_transfer. reflexivity.
Qed.
#[local] Hint Resolve keeps_wait : keeps.

Lemma keeps_get_capabilities z C : keeps z C get_capabilities.
Proof. unfold get_capabilities. keeps_auto. Qed.

Lemma keeps_read_stb z C h arg : keeps z C (usbtmc488_ioctl_read_stb h arg).
Proof. unfold usbtmc488_ioctl_read_stb. keeps_auto. Qed.

Lemma keeps_store_and_bump_bTag z C : keeps z C store_and_bump_bTag.
Proof. unfold store_and_bump_bTag. keeps_auto. Qed.
#[local] Hint Resolve keeps_store_and_bump_bTag : keeps.

Lemma emits_usb_bulk_msg_snd ep buffer len :
  emits (fun ev => exists len, ev = EvBulkOut ep buffer len)
        (usb_bulk_msg_snd ep buffer len).
Proof.
  unfold usb_bulk_msg_snd. apply emits_bind.
  - apply emits_transfer. eauto.
  - intros. apply emits_ret.
Qed.

Lemma keeps_trigger z C : keeps z C usbtmc488_ioctl_trigger.
Proof.
  apply keeps_weaken. unfold usbtmc488_ioctl_trigger.
  apply keeps_get_data; intros d. apply keeps_bind.
  - eapply keeps_lift_frame; [apply emits_usb_bulk_msg_snd | reflexivity ..].
  - intros [retval actual]. keeps_auto.
Qed.

Lemma keeps_send_request z C fd n : keeps z C (send_request_dev_dep_msg_in fd n).
Proof.
  apply keeps_weaken. unfold send_request_dev_dep_msg_in.
  apply keeps_get_data; intros d. apply keeps_bind.
  - eapply keeps_lift_frame; [apply emits_usb_bulk_msg_snd | reflexivity ..].
  - intros [retval actual]. keeps_auto.
Qed.

Lemma keeps_auto_abort_bulk_in z C : keeps z C auto_abort_bulk_in.
Proof. unfold auto_abort_bulk_in. keeps_auto. Qed.

Lemma keeps_auto_abort_bulk_out z C : keeps z C auto_abort_bulk_out.
Proof. unfold auto_abort_bulk_out. keeps_auto. Qed.
#[local] Hint Resolve keeps_trigger keeps_send_request keeps_auto_abort_bulk_in
  keeps_auto_abort_bulk_out keeps_read_stb keeps_get_capabilities : keeps.

Lemma keeps_read_loop z fuel buf this_part remaining done out :
  keeps z (fun _ => True) (read_loop fuel buf this_part remaining done out).
Proof.
  revert remaining done out.
  induction fuel as [|fuel IH]; intros remaining done out; cbn [read_loop].
  - keeps_auto.
  - keeps_auto; apply keeps_weaken, IH.
Qed.

Lemma keeps_usbtmc_read z C h buf count : keeps z C (usbtmc_read h buf count).
Proof.
  unfold usbtmc_read. keeps_auto. apply keeps_weaken, keeps_read_loop.
Qed.

Lemma dev_dep_msg_out_tag d this_part attr payload :
  byte_at (dev_dep_msg_out d this_part attr payload) 1 = bTag d.
Proof. reflexivity. Qed.

Lemma dev_dep_msg_out_complement d this_part attr payload :
  byte_at (dev_dep_msg_out d this_part attr payload) 2 = u8 (Z.lnot (bTag d)).
Proof. reflexivity. Qed.

Lemma keeps_write_loop z fuel buf count remaining done :
  keeps z (fun _ => True) (write_loop fuel buf count remaining done).
Proof.
  revert remaining done.
  induction fuel as [|fuel IH]; intros remaining done; cbn [write_loop].
  - keeps_auto.
  - destruct (negb (remaining >? 0)); [apply keeps_ret |].
    apply keeps_get_io_buffer_size; intros iosz.
    apply keeps_get_data; intros d.
    destruct (u32 remaining >? u32 (iosz - USBTMC_HEADER_SIZE));
      (destruct (copy_from_user buf done _); [| apply keeps_ret]);
      (apply keeps_bind;
       [ eapply keeps_lift_frame;
         [ apply emits_with_fuel; intros; apply emits_write_send
         | apply dev_dep_msg_out_tag | apply dev_dep_msg_out_complement ]
       | intros; keeps_auto; apply IH ]).
Qed.

Lemma keeps_usbtmc_write z C h buf count : keeps z C (usbtmc_write h buf count).
Proof.
  unfold usbtmc_write. keeps_auto. apply keeps_weaken, keeps_write_loop.
Qed.

Lemma keeps_usbtmc_ioctl z C h cmd arg : keeps z C (usbtmc_ioctl h cmd arg).
Proof.
  unfold usbtmc_ioctl, no_output, usbtmc_ioctl_get_timeout,
    usbtmc_ioctl_set_timeout, usbtmc_ioctl_eom_enable, usbtmc_ioctl_config_termc.
  keeps_auto. destruct cmd; keeps_auto.
Qed.

Lemma keeps_usbtmc_open z C : keeps z C usbtmc_open.
Proof. unfold usbtmc_open. keeps_auto. Qed.

Lemma keeps_usbtmc_release z C h : keeps z C (usbtmc_release h).
Proof. unfold usbtmc_release. keeps_auto. Qed.

Lemma keeps_usbtmc_poll z C h : keeps z C (usbtmc_poll h).
Proof. unfold usbtmc_poll. keeps_auto. Qed.

Lemma keeps_usbtmc_free_int z C : keeps z C usbtmc_free_int.
Proof. unfold usbtmc_free_int. keeps_auto. Qed.
#[local] Hint Resolve keeps_usbtmc_free_int : keeps.

Lemma keeps_usbtmc_disconnect z C : keeps z C usbtmc_disconnect.
Proof. unfold usbtmc_disconnect. keeps_auto. Qed.

Lemma keeps_run_op z o : keeps z (fun _ => True) (run_op o).
Proof.
  destruct o; cbn [run_op]; unfold forget, TermChar_store,
    TermCharEnabled_store, auto_abort_store;
    first [ apply keeps_usbtmc_disconnect
          | apply keeps_bind; [| intros; apply keeps_ret] ].
  - apply keeps_usbtmc_open.
  - apply keeps_usbtmc_release.
  - apply keeps_usbtmc_read.
  - apply keeps_usbtmc_write.
  - apply keeps_usbtmc_ioctl.
  - apply keeps_usbtmc_poll.
  - apply keeps_usbtmc_interrupt.
  - keeps_auto.
  - keeps_auto.
  - keeps_auto.
Qed.

Lemma Inv_feed z answers w : Inv z w -> Inv z (feed answers w).
Proof. intros H. exact H. Qed.

(** Every operation keeps the invariant, however it ends. *)
Lemma Inv_exec z o answers w : Inv z w -> Inv z (exec o answers w).
Proof.
  intros H. unfold exec. apply keeps_run_op; [apply Inv_feed, H | exact I].
Qed.

Lemma Inv_run_ops z ops w : Inv z w -> Inv z (run_ops ops w).
Proof.
  revert w. induction ops as [|[o answers] ops IH]; intros w H; cbn; auto.
  apply IH, Inv_exec, H.
Qed.

Lemma Inv_probe iosz tmo interface submitted registered answers :
  Inv false (final (usbtmc_probe iosz tmo interface submitted registered answers)).
Proof.
  unfold usbtmc_probe.
  match goal with |- Inv _ (final (?m ?w)) =>
    assert (K : keeps false (fun _ => True) m); [| apply K] end.
  - keeps_auto.
  - split; [| constructor]. repeat split; cbn; first [lia | discriminate].
  - exact I.
Qed.

Lemma reachable_Inv w : reachable w -> Inv false w.
Proof.
  induction 1 as [iosz tmo interface submitted registered answers w E | o answers w _ IH].
  - pose proof (Inv_probe iosz tmo interface submitted registered answers) as H.
    rewrite E in H. exact H.
  - apply Inv_exec, IH.
Qed.

(** ** READ_STB, path by path *)

(** Runs a program on a state, loops included. *)
Ltac mrun :=
  repeat (progress (
    unfold mbind, prog_bind, mret, prog_ret, get_files, get_data, modify_files,
      modify_data, get_io_buffer_size, with_fuelM, with_fuel, lift,
      usb_control_msg, usb_bulk_msg_snd, usb_bulk_msg_rcv, usb_clear_halt,
      transfer, spin; cbn)).

Lemma set_files_same w : set_files (files w) w = w.
Proof. destruct w; reflexivity. Qed.

Lemma read_stb_fast w h arg fd :
  files w !! h = Some fd -> srq_asserted fd <> 0 ->
  usbtmc488_ioctl_read_stb h arg w =
  Ret (put_stb (srq_byte fd) arg)
      (set_files (<[h := set_srq_asserted 0 fd]> (files w)) w).
Proof.
  intros Hh Hs. unfold usbtmc488_ioctl_read_stb.
  mrun. rewrite Hh. apply Z.eqb_neq in Hs. rewrite Hs. reflexivity.
Qed.

(** The interrupt callback leaves the transport and the tags alone. *)
Lemma usbtmc_interrupt_frame u w :
  exists b w', usbtmc_interrupt u w = Ret b w'
    /\ usb w' = usb w /\ iin_bTag (data w') = iin_bTag (data w).
Proof.
  unfold usbtmc_interrupt.
  destruct (urb_status u =? 0); [destruct (urb_b0 u >? 129);
    [| destruct (urb_b0 u =? 129)] | destruct (urb_terminated (urb_status u))];
    mrun; eauto.
Qed.

Lemma deliver_urbs_frame us w :
  exists w', deliver_urbs us w = Ret tt w'
    /\ usb w' = usb w /\ iin_bTag (data w') = iin_bTag (data w).
Proof.
  revert w. induction us as [|u us IH]; intros w; cbn [deliver_urbs].
  - exists w. auto.
  - destruct (usbtmc_interrupt_frame u w) as (b & w1 & E1 & U1 & T1).
    destruct (IH w1) as (w2 & E2 & U2 & T2).
    exists w2. unfold mbind, prog_bind. rewrite E1, E2.
    repeat split; congruence.
Qed.

Lemma wait_frame tmo w rv w' :
  wait_event_interruptible_timeout tmo w = Ret rv w' ->
  iin_bTag (data w') = iin_bTag (data w)
  /\ trace (usb w') = trace (usb w) ++ [EvWait tmo].
Proof.
  unfold wait_event_interruptible_timeout. mrun.
  destruct (script (usb w)) as [|r rest]; [discriminate |].
  match goal with |- context [deliver_urbs ?us ?w0] =>
    destruct (deliver_urbs_frame us w0) as (w1 & E1 & U1 & T1) end.
  rewrite E1. cbn in U1, T1.
  destruct (negb (iin_data_valid (data w1) =? 0)); [| destruct (r_rv r <? 0)];
    intros [= <- <-]; rewrite U1, T1; auto.
Qed.

(** The slow path of READ_STB: the READ_STATUS_BYTE request is the first call,
    and the interrupt tag has advanced when the operation returns. *)
Lemma read_stb_slow w h arg fd :
  files w !! h = Some fd -> srq_asserted fd = 0 ->
  (exists evs, trace (usb (final (usbtmc488_ioctl_read_stb h arg w))) =
     trace (usb w)
     ++ EvControl USBTMC488_REQUEST_READ_STATUS_BYTE CLASS_IN_INTERFACE
                  (iin_bTag (data w)) (ifnum (data w)) [] 3 :: evs)
  /\ (forall r w', usbtmc488_ioctl_read_stb h arg w = Ret r w' ->
        iin_bTag (data w') = next_iin_bTag (iin_bTag (data w))).
Proof.
  intros Hh Hs. unfold usbtmc488_ioctl_read_stb.
  mrun. rewrite Hh, Hs. cbn.
  destruct (script (usb w)) as [|r0 rest]; cbn.
  { split; [eexists; reflexivity | discriminate]. }
  destruct (r_rv r0 <? 0); cbn.
  { split; [eexists; reflexivity | intros r w' [= <- <-]; reflexivity]. }
  destruct (negb (byte_at (r_data r0) 0 =? USBTMC_STATUS_SUCCESS)); cbn.
  { split; [eexists; reflexivity | intros r w' [= <- <-]; reflexivity]. }
  destruct (iin_ep_present (data w)); cbn.
  2:{ split; [eexists; reflexivity | intros r w' [= <- <-]; reflexivity]. }
  match goal with |- context [wait_event_interruptible_timeout ?t ?w0] =>
    pose proof (wait_frame t w0) as Hw;
    assert (Hb : exists evs, trace (usb (final (wait_event_interruptible_timeout t w0)))
                   = trace (usb w0) ++ evs);
    [| destruct (wait_event_interruptible_timeout t w0) as [rv w1|w1|w1] ]
  end.
  { unfold wait_event_interruptible_timeout. mrun.
    destruct rest as [|r1 rest']; cbn; [eexists; reflexivity |].
    match goal with |- context [deliver_urbs ?us ?w0] =>
      destruct (deliver_urbs_frame us w0) as (w1 & E1 & U1 & T1) end.
    rewrite E1. cbn in U1.
    destruct (negb (iin_data_valid (data w1) =? 0)); [| destruct (r_rv r1 <? 0)];
      cbn; rewrite U1; eexists; reflexivity. }
  - destruct (Hw rv w1 eq_refl) as [Ht Htr]. cbn in Ht, Htr.
    repeat match goal with |- context [if ?b then _ else _] => destruct b end;
      cbn;
      (split; [rewrite Htr, <- app_assoc; eexists; reflexivity
              | intros r w' [= <- <-]; cbn; rewrite Ht; reflexivity]).
  - cbn in Hb |- *. destruct Hb as [evs Hb]. split; [| discriminate].
    rewrite Hb, <- app_assoc. eexists; reflexivity.
  - cbn in Hb |- *. destruct Hb as [evs Hb]. split; [| discriminate].
    rewrite Hb, <- app_assoc. eexists; reflexivity.
Qed.


(** ** Reading, step by step *)

(** Runs the straight-line part of a program, leaving the loops folded. *)
Ltac mstep :=
  repeat (progress (
    unfold mbind, prog_bind, mret, prog_ret, get_files, get_data, modify_files,
      modify_data, get_io_buffer_size, lift, usb_control_msg, usb_bulk_msg_snd,
      usb_bulk_msg_rcv, usb_clear_halt, transfer, spin;
    cbn -[read_loop write_loop write_send header_ok header_n_characters
          firstn Z.to_nat Zlen slice byte_at])).

Lemma bind_ret_ret {A B C} (m : M A) (b : B) (c : C) w :
  ((m;; mret b);; mret c) w = (m;; mret c) w.
Proof. unfold mbind, prog_bind. destruct (m w); reflexivity. Qed.

Lemma auto_abort_bulk_in_on {B} iosz d fs s tr (b : B) :
  auto_abort d = true ->
  (auto_abort_bulk_in;; mret b) (mk_world iosz d fs s tr)
  = (lift (usbtmc_ioctl_abort_bulk_in iosz d);; mret b) (mk_world iosz d fs s tr).
Proof.
  intros Ha. unfold auto_abort_bulk_in.
  unfold mbind at 1 2 3, prog_bind at 1 2 3, get_data, get_io_buffer_size. cbn.
  rewrite Ha. apply bind_ret_ret.
Qed.

Lemma auto_abort_bulk_out_on {B} iosz d fs s tr (b : B) :
  auto_abort d = true ->
  (auto_abort_bulk_out;; mret b) (mk_world iosz d fs s tr)
  = (lift (usbtmc_ioctl_abort_bulk_out d);; mret b) (mk_world iosz d fs s tr).
Proof.
  intros Ha. unfold auto_abort_bulk_out.
  unfold mbind at 1 2, prog_bind at 1 2, get_data. cbn.
  rewrite Ha. apply bind_ret_ret.
Qed.

Lemma usbtmc_read_request iosz d fs r0 rest tr h fd buf count :
  fs !! h = Some fd -> zombie d = false ->
  usbtmc_read h buf count (mk_world iosz d fs (r0 :: rest) tr) =
  let w1 := mk_world iosz (bump_bTag (set_bTag_last_write (bTag d) d)) fs rest
              (tr ++ [EvBulkOut (bulk_out d) (request_dev_dep_msg_in fd d count)
                                USBTMC_HEADER_SIZE]) in
  if r_rv r0 <? 0 then (auto_abort_bulk_out;; mret (r_rv r0, [])) w1
  else with_fuelM (fun f => read_loop f buf count count 0 []) w1.
Proof.
  intros Hh Hz.
  unfold usbtmc_read, send_request_dev_dep_msg_in, store_and_bump_bTag.
  mstep. rewrite Hh. mstep. rewrite Hz. mstep.
  destruct (r_rv r0 <? 0); reflexivity.
Qed.

(** The first round of the read loop. *)
Lemma read_loop_first iosz d fs r1 rest tr fuel buf this_part remaining :
  0 < remaining ->
  read_loop (S fuel) buf this_part remaining 0 [] (mk_world iosz d fs (r1 :: rest) tr) =
  let d2 := set_bTag_last_read (bTag d) d in
  let w2 := mk_world iosz d2 fs rest (tr ++ [EvBulkIn (bulk_in d) iosz]) in
  let received := firstn (Z.to_nat iosz) (r_data r1) in
  if r_rv r1 <? 0 then (auto_abort_bulk_in;; mret (r_rv r1, [])) w2
  else if header_ok (Zlen received) received (bTag_last_write d) this_part then
    let n_characters := header_n_characters received in
    let actual := Zlen received - USBTMC_HEADER_SIZE in
    let remaining :=
      if remaining >? n_characters then n_characters else remaining in
    let actual := if actual >? remaining then remaining else actual in
    let remaining := remaining - actual in
    let remaining :=
      if negb (Z.land (byte_at received 8) 1 =? 0) && (actual >=? n_characters)
      then 0 else remaining in
    if copy_to_user buf 0 actual then
      read_loop fuel buf this_part remaining (0 + actual)
                ([] ++ slice received USBTMC_HEADER_SIZE actual) w2
    else Ret (- EFAULT, []) w2
  else (auto_abort_bulk_in;; mret (r_rv r1, [])) w2.
Proof.
  intros Hrem. cbn [read_loop].
  assert (E : (remaining >? 0) = true) by (apply Z.gtb_lt; lia).
  rewrite E. cbn [negb]. mstep.
  destruct (r_rv r1 <? 0); [reflexivity |].
  unfold header_ok.
  destruct (Zlen (firstn (Z.to_nat iosz) (r_data r1)) <? USBTMC_HEADER_SIZE);
    [reflexivity |].
  cbn [negb andb].
  destruct (byte_at (firstn (Z.to_nat iosz) (r_data r1)) 0 =? 2); [| reflexivity].
  cbn [negb andb].
  destruct (byte_at (firstn (Z.to_nat iosz) (r_data r1)) 1 =? bTag_last_write d);
    [| reflexivity].
  cbn [negb andb].
  destruct (header_n_characters (firstn (Z.to_nat iosz) (r_data r1)) >? this_part);
    [reflexivity |].
  cbn [negb].
  match goal with |- context [copy_to_user ?a ?b ?c] =>
    destruct (copy_to_user a b c) end; reflexivity.
Qed.

(** A read whose request went out and whose first transfer succeeded with a
    packet that fails the header checks: nothing is copied, and the value
    returned is the one of the transfer. *)
Lemma usbtmc_read_rejected_reply iosz d fs r0 r1 rest tr h fd buf count :
  fs !! h = Some fd -> zombie d = false ->
  0 <= r_rv r0 -> 0 < count -> 0 <= r_rv r1 ->
  header_ok (Zlen (firstn (Z.to_nat iosz) (r_data r1)))
            (firstn (Z.to_nat iosz) (r_data r1)) (bTag d) count = false ->
  usbtmc_read h buf count (mk_world iosz d fs (r0 :: r1 :: rest) tr) =
  let d1 := bump_bTag (set_bTag_last_write (bTag d) d) in
  (auto_abort_bulk_in;; mret (r_rv r1, []))
    (mk_world iosz (set_bTag_last_read (bTag d1) d1) fs rest
       ((tr ++ [EvBulkOut (bulk_out d) (request_dev_dep_msg_in fd d count)
                          USBTMC_HEADER_SIZE])
        ++ [EvBulkIn (bulk_in d) iosz])).
Proof.
  intros Hh Hz H0 Hc H1 Hbad.
  rewrite (usbtmc_read_request _ _ _ _ _ _ _ _ _ _ Hh Hz).
  cbv zeta. apply Z.ltb_ge in H0. rewrite H0.
  unfold with_fuelM. cbn [usb script mk_world length].
  rewrite read_loop_first by assumption.
  cbv zeta. apply Z.ltb_ge in H1. rewrite H1.
  change (bTag_last_write (bump_bTag (set_bTag_last_write (bTag d) d)))
    with (bTag d).
  rewrite Hbad. reflexivity.
Qed.

(** A failed transfer in any round of the read loop. *)
Lemma read_loop_transfer_fault iosz d fs r1 rest tr fuel buf this_part
    remaining done out :
  0 < remaining -> r_rv r1 < 0 ->
  read_loop (S fuel) buf this_part remaining done out
            (mk_world iosz d fs (r1 :: rest) tr) =
  (auto_abort_bulk_in;; mret (r_rv r1, out))
    (mk_world iosz (set_bTag_last_read (bTag d) d) fs rest
              (tr ++ [EvBulkIn (bulk_in d) iosz])).
Proof.
  intros Hrem Hrv. cbn [read_loop].
  assert (E : (remaining >? 0) = true) by (apply Z.gtb_lt; lia).
  rewrite E. cbn [negb]. mstep.
  apply Z.ltb_lt in Hrv. rewrite Hrv. reflexivity.
Qed.

Lemma lift_data {A} (m : io A) w a w' :
  lift m w = Ret a w' -> data w' = data w.
Proof.
  unfold lift. destruct (m (usb w)); intros [= <- <-] || discriminate. reflexivity.
Qed.

Lemma auto_abort_bulk_in_data w a w' :
  auto_abort_bulk_in w = Ret a w' -> data w' = data w.
Proof.
  unfold auto_abort_bulk_in. mstep. destruct (auto_abort (data w)).
  - destruct (usbtmc_ioctl_abort_bulk_in (io_buffer_size w) (data w) (usb w));
      intros [= <- <-] || discriminate. reflexivity.
  - intros [= <- <-]. reflexivity.
Qed.

Lemma auto_abort_bulk_out_data w a w' :
  auto_abort_bulk_out w = Ret a w' -> data w' = data w.
Proof.
  unfold auto_abort_bulk_out. mstep. destruct (auto_abort (data w)).
  - destruct (usbtmc_ioctl_abort_bulk_out (data w) (usb w));
      intros [= <- <-] || discriminate. reflexivity.
  - intros [= <- <-]. reflexivity.
Qed.

(** A round of the read loop stores the counter in [bTag_last_read]; nothing
    in the loop changes the counter. *)
Lemma read_loop_tags fuel buf this_part remaining done out w r w' :
  read_loop fuel buf this_part remaining done out w = Ret r w' ->
  bTag (data w') = bTag (data w)
  /\ bTag_last_read (data w') =
     if remaining >? 0 then bTag (data w) else bTag_last_read (data w).
Proof.
  revert remaining done out w.
  induction fuel as [|fuel IH]; intros remaining done out w;
    cbn [read_loop]; destruct (remaining >? 0) eqn:E; cbn [negb];
    try discriminate; try (intros [= <- <-]; auto; fail).
  mstep. destruct (script (usb w)) as [|r1 rest]; [discriminate |].
  set (w2 := set_data _ _).
  assert (H2 : bTag (data w2) = bTag (data w) /\ bTag_last_read (data w2) = bTag (data w))
    by (split; reflexivity).
  clearbody w2.
  assert (Hexit : forall x,
            match auto_abort_bulk_in w2 with
            | Ret _ s' => Ret x s' | Blocked s' => Blocked s' | Spin s' => Spin s'
            end = Ret r w' ->
            bTag (data w') = bTag (data w) /\ bTag_last_read (data w') = bTag (data w)).
  { intros x. destruct (auto_abort_bulk_in w2) as [a s'| |] eqn:Ea; try discriminate.
    intros [= <- <-]. rewrite (auto_abort_bulk_in_data _ _ _ Ea). exact H2. }
  assert (Hrec : forall rem' done' out',
            read_loop fuel buf this_part rem' done' out' w2 = Ret r w' ->
            bTag (data w') = bTag (data w) /\ bTag_last_read (data w') = bTag (data w)).
  { intros rem' done' out' Hr. destruct (IH _ _ _ _ Hr) as [Hb Hl].
    destruct H2 as [H2b H2l]. rewrite Hb, Hl, H2b, H2l.
    destruct (rem' >? 0); auto. }
  repeat match goal with
         | |- (if ?b then _ else _) _ = _ -> _ => destruct b
         | |- (if ?b then _ else _) = _ -> _ => destruct b
         end;
    first [apply Hexit | apply Hrec | intros [= <- <-]; exact H2].
Qed.

(** ** Writing, chunk by chunk *)

Lemma last_bulk_out_app evs1 evs2 :
  last_bulk_out (evs1 ++ evs2) =
  match last_bulk_out evs2 with
  | Some buffer => Some buffer
  | None => last_bulk_out evs1
  end.
Proof.
  induction evs1 as [|ev evs1 IH]; cbn.
  - destruct (last_bulk_out evs2); reflexivity.
  - rewrite IH. destruct (last_bulk_out evs2); reflexivity.
Qed.

Lemma last_bulk_out_quiet evs :
  Forall (fun ev => is_bulk_out ev = false) evs -> last_bulk_out evs = None.
Proof.
  induction 1 as [|ev evs Hev _ IH]; cbn; [reflexivity |].
  rewrite IH. destruct ev; cbn in Hev; congruence.
Qed.

Lemma write_send_last fuel ep buffer n_bytes t rv t' :
  write_send fuel ep buffer n_bytes t = Ret rv t' ->
  exists evs, trace t' = trace t ++ evs /\ last_bulk_out evs = Some buffer.
Proof.
  revert n_bytes t. induction fuel as [|fuel IH]; intros n_bytes t;
    cbn [write_send]; [discriminate |].
  mstep. destruct (script t) as [|r rest]; [discriminate |].
  destruct (negb (r_rv r =? 0)).
  - intros [= <- <-]. exists [EvBulkOut ep buffer n_bytes]. auto.
  - destruct (negb (to_size_t (n_bytes - Z.max 0 (Z.min n_bytes (r_actual r))) =? 0)).
    + intros H. destruct (IH _ _ H) as (evs & E & L). cbn in E.
      exists (EvBulkOut ep buffer n_bytes :: evs). split.
      * rewrite E, <- app_assoc. reflexivity.
      * cbn. rewrite L. reflexivity.
    + intros [= <- <-]. exists [EvBulkOut ep buffer n_bytes]. auto.
Qed.

Lemma auto_abort_bulk_out_quiet w a w' :
  auto_abort_bulk_out w = Ret a w' ->
  data w' = data w
  /\ exists evs, trace (usb w') = trace (usb w) ++ evs /\ last_bulk_out evs = None.
Proof.
  intros H. split; [apply (auto_abort_bulk_out_data _ _ _ H) |].
  revert H. unfold auto_abort_bulk_out. mstep. destruct (auto_abort (data w)).
  - destruct (quiet_usbtmc_ioctl_abort_bulk_out (data w) (usb w)) as (evs & E & F).
    destruct (usbtmc_ioctl_abort_bulk_out (data w) (usb w));
      intros [= <- <-] || discriminate.
    exists evs. split; [exact E | apply last_bulk_out_quiet, F].
  - intros [= <- <-]. exists []. rewrite app_nil_r. auto.
Qed.

(** When the write loop returns, [bTag_last_write] is the tag in the buffer
    of the last bulk-out transfer it made, if it made one. *)
Lemma write_loop_last fuel buf count remaining done w r w' :
  write_loop fuel buf count remaining done w = Ret r w' ->
  exists evs,
    trace (usb w') = trace (usb w) ++ evs
    /\ match last_bulk_out evs with
       | Some frame => byte_at frame 1 = bTag_last_write (data w')
       | None => bTag_last_write (data w') = bTag_last_write (data w)
       end.
Proof.
  revert remaining done w.
  induction fuel as [|fuel IH]; intros remaining done w;
    cbn [write_loop]; destruct (remaining >? 0) eqn:E; cbn [negb];
    try discriminate;
    try (unfold mret, prog_ret; intros [= <- <-]; exists [];
         rewrite app_nil_r; split; reflexivity).
  unfold store_and_bump_bTag. mstep.
  match goal with
  | |- context [if ?b then (?x1, ?y1) else (?x2, ?y2)] =>
      generalize (if b then (x1, y1) else (x2, y2))
  end.
  intros [this_part attr].
  destruct (copy_from_user buf done this_part) as [payload|];
    [| intros [= <- <-]; exists []; rewrite app_nil_r; split; reflexivity].
  mstep.
  destruct (with_fuel _ (usb w)) as [rv t'|t'|t'] eqn:Es; try discriminate.
  apply write_send_last in Es. destruct Es as (evs1 & E1 & L1).
  set (w2 := set_data _ _).
  assert (H2 : trace (usb w2) = trace (usb w) ++ evs1
               /\ bTag_last_write (data w2) = bTag (data w))
    by (split; [exact E1 | reflexivity]).
  clearbody w2. destruct H2 as [H2t H2w].
  destruct (rv <? 0).
  - destruct (auto_abort_bulk_out w2) as [a w3|w3|w3] eqn:Ea; try discriminate.
    intros [= <- <-].
    destruct (auto_abort_bulk_out_quiet _ _ _ Ea) as (Hd & evs2 & E2 & L2).
    exists (evs1 ++ evs2). split.
    + rewrite E2, H2t, app_assoc. reflexivity.
    + rewrite last_bulk_out_app, L2, L1, Hd, H2w. reflexivity.
  - intros H. destruct (IH _ _ _ H) as (evs3 & E3 & L3).
    exists (evs1 ++ evs3). split.
    + rewrite E3, H2t, app_assoc. reflexivity.
    + rewrite last_bulk_out_app. destruct (last_bulk_out evs3); [exact L3 |].
      rewrite L1, L3, H2w. reflexivity.
Qed.

(** ** The iteration bound is never reached *)

Section Bound.
Context {S : Type} (len : S -> nat).

Lemma total_runs {A} n k (m : prog S A) : total len k m -> runs len n k m.
Proof. intros H s _. apply H. Qed.

Lemma total_ret {A} (a : A) : total len 0 (mret a).
Proof. intros s. cbn. lia. Qed.

Lemma total_weaken {A} (m : prog S A) : total len 1 m -> total len 0 m.
Proof.
  intros H s. specialize (H s). destruct (m s); cbn in *; auto. lia.
Qed.

Lemma total_bind {A B} k (m : prog S A) (f : A -> prog S B) :
  total len k m -> (forall a, total len 0 (f a)) -> total len k (m ≫= f).
Proof.
  intros Hm Hf s. unfold mbind, prog_bind. specialize (Hm s).
  destruct (m s) as [a s'|s'|s']; cbn in *; auto.
  specialize (Hf a s'). destruct (f a s'); cbn in *; auto. lia.
Qed.

Lemma total_bind_after {A B} (m : prog S A) (f : A -> prog S B) :
  total len 0 m -> (forall a, total len 1 (f a)) -> total len 1 (m ≫= f).
Proof.
  intros Hm Hf s. unfold mbind, prog_bind. specialize (Hm s).
  destruct (m s) as [a s'|s'|s']; cbn in *; auto.
  specialize (Hf a s'). destruct (f a s'); cbn in *; auto. lia.
Qed.

(** A step that uses an answer leaves the rest of a loop round with one
    unrolling less to do. *)
Lemma runs_bind_step {A B} n (m : prog S A) (f : A -> prog S B) :
  total len 1 m -> (forall a, runs len n 0 (f a)) ->
  runs len (Datatypes.S n) 1 (m ≫= f).
Proof.
  intros Hm Hf s Hs. unfold mbind, prog_bind. specialize (Hm s).
  destruct (m s) as [a s'|s'|s']; cbn in *; auto.
  assert (Hs' : (len s' < n)%nat) by lia.
  specialize (Hf a s' Hs'). destruct (f a s'); cbn in *; auto. lia.
Qed.

Lemma runs_bind {A B} n k (m : prog S A) (f : A -> prog S B) :
  total len 0 m -> (forall a, runs len n k (f a)) -> runs len n k (m ≫= f).
Proof.
  intros Hm Hf s Hs. unfold mbind, prog_bind. specialize (Hm s).
  destruct (m s) as [a s'|s'|s']; cbn in *; auto.
  assert (Hs' : (len s' < n)%nat) by lia.
  specialize (Hf a s' Hs'). destruct (f a s'); cbn in *; auto. lia.
Qed.

Lemma runs_weaken {A} n (m : prog S A) : runs len n 1 m -> runs len n 0 m.
Proof.
  intros H s Hs. specialize (H s Hs). destruct (m s); cbn in *; auto. lia.
Qed.
End Bound.

Lemma total_transfer ev : total left_io 1 (transfer ev).
Proof.
  intros t. unfold transfer, uses, left_io.
  destruct (script t); cbn; [exact I | lia].
Qed.

Lemma total_with_fuel {A} k (loop : nat -> io A) :
  (forall n, runs left_io n k (loop n)) -> total left_io k (with_fuel loop).
Proof. intros H t. apply H. unfold left_io. lia. Qed.

Lemma total_usb_control_msg req ty v i p n :
  total left_io 1 (usb_control_msg req ty v i p n).
Proof.
  apply total_bind; [apply total_transfer | intros; apply total_ret].
Qed.

Lemma total_usb_bulk_msg_rcv ep n : total left_io 1 (usb_bulk_msg_rcv ep n).
Proof.
  apply total_bind; [apply total_transfer | intros; apply total_ret].
Qed.

Lemma total_usb_bulk_msg_snd ep b n : total left_io 1 (usb_bulk_msg_snd ep b n).
Proof.
  apply total_bind; [apply total_transfer | intros; apply total_ret].
Qed.

Lemma total_usb_clear_halt b ep : total left_io 1 (usb_clear_halt b ep).
Proof.
  apply total_bind; [apply total_transfer | intros; apply total_ret].
Qed.

Lemma total_with_fuelM {A} k (loop : nat -> M A) :
  (forall n, runs left n k (loop n)) -> total left k (with_fuelM loop).
Proof. intros H w. apply H. unfold left. lia. Qed.

Create HintDb bound.
#[local] Hint Resolve total_ret total_usb_control_msg total_usb_bulk_msg_rcv
  total_usb_bulk_msg_snd total_usb_clear_halt total_transfer : bound.
#[local] Hint Resolve total_runs | 3 : bound.
#[local] Hint Resolve total_weaken runs_weaken | 5 : bound.

(** Splits a program into its steps.  In a loop round the first step that
    uses an answer pays for the next unrolling. *)
Ltac bound_step :=
  match goal with
  | |- total _ _ ((if ?b then _ else _) ≫= _) => destruct b
  | |- runs _ _ _ ((if ?b then _ else _) ≫= _) => destruct b
  | |- total _ _ (if ?b then _ else _) => destruct b
  | |- runs _ _ _ (if ?b then _ else _) => destruct b
  | |- total _ _ (match ?x with inl _ => _ | inr _ => _ end) => destruct x
  | |- runs _ _ _ (match ?x with inl _ => _ | inr _ => _ end) => destruct x
  | |- total _ _ (match ?x with Some _ => _ | None => _ end) => destruct x
  | |- runs _ _ _ (match ?x with Some _ => _ | None => _ end) => destruct x
  | |- total _ _ (let '(_, _) := ?x in _) => destruct x
  | |- runs _ _ _ (let '(_, _) := ?x in _) => destruct x
  | |- total _ _ (with_fuel _) => apply total_with_fuel; intros
  | |- total _ _ (with_fuelM _) => apply total_with_fuelM; intros
  | |- total _ _ _ => solve [auto with bound]
  | |- runs _ _ _ _ => solve [auto with bound]
  | |- total _ 0 (_ ≫= _) => apply total_bind; [| intros]
  | |- total _ 1 (_ ≫= _) =>
      first [ apply total_bind; [solve [auto with bound] | intros]
            | apply total_bind_after; [| intros] ]
  | |- runs _ (Datatypes.S _) 1 (_ ≫= _) =>
      first [ apply runs_bind_step; [solve [auto with bound] | intros]
            | apply runs_bind; [| intros] ]
  | |- runs _ (Datatypes.S _) 0 (_ ≫= _) =>
      first [ apply runs_weaken, runs_bind_step; [solve [auto with bound] | intros]
            | apply runs_bind; [| intros] ]
  | |- runs _ _ _ (_ ≫= _) => apply runs_bind; [| intros]
  end.
Ltac bound_auto := repeat bound_step.

Lemma runs_drain_bulk_in n iosz d max_size k :
  runs left_io n 1 (drain_bulk_in n iosz d max_size k).
Proof.
  revert k. induction n as [|n IH]; intros k; cbn [drain_bulk_in].
  - intros t Ht. lia.
  - bound_auto.
Qed.
#[local] Hint Resolve runs_drain_bulk_in : bound.

Lemma total_drain iosz d max_size k :
  total left_io 1 (with_fuel (fun f => drain_bulk_in f iosz d max_size k)).
Proof. apply total_with_fuel. intros. apply runs_drain_bulk_in. Qed.
#[local] Hint Resolve total_drain : bound.

Lemma runs_abort_bulk_in_status n iosz d max_size k actual :
  runs left_io n 1 (abort_bulk_in_status n iosz d max_size k actual).
Proof.
  revert k actual. induction n as [|n IH]; intros k actual;
    cbn [abort_bulk_in_status].
  - intros t Ht. lia.
  - bound_auto.
Qed.
#[local] Hint Resolve runs_abort_bulk_in_status : bound.

Lemma total_usbtmc_ioctl_abort_bulk_in iosz d :
  total left_io 1 (usbtmc_ioctl_abort_bulk_in iosz d).
Proof.
  unfold usbtmc_ioctl_abort_bulk_in.
  bound_auto.
Qed.

Lemma runs_abort_bulk_out_check_status n d k :
  runs left_io n 1 (abort_bulk_out_check_status n d k).
Proof.
  revert k. induction n as [|n IH]; intros k; cbn [abort_bulk_out_check_status].
  - intros t Ht. lia.
  - bound_auto.
Qed.
#[local] Hint Resolve runs_abort_bulk_out_check_status : bound.

Lemma total_usbtmc_ioctl_abort_bulk_out d :
  total left_io 1 (usbtmc_ioctl_abort_bulk_out d).
Proof.
  unfold usbtmc_ioctl_abort_bulk_out.
  bound_auto.
Qed.

Lemma runs_clear_check_status n iosz d max_size k actual :
  runs left_io n 1 (clear_check_status n iosz d max_size k actual).
Proof.
  revert k actual. induction n as [|n IH]; intros k actual;
    cbn [clear_check_status].
  - intros t Ht. lia.
  - bound_auto.
Qed.
#[local] Hint Resolve runs_clear_check_status : bound.

Lemma total_usbtmc_ioctl_clear iosz d : total left_io 1 (usbtmc_ioctl_clear iosz d).
Proof.
  unfold usbtmc_ioctl_clear.
  bound_auto.
Qed.

Lemma runs_write_send n ep buffer n_bytes :
  runs left_io n 1 (write_send n ep buffer n_bytes).
Proof.
  revert n_bytes. induction n as [|n IH]; intros n_bytes; cbn [write_send].
  - intros t Ht. lia.
  - bound_auto.
Qed.
#[local] Hint Resolve runs_write_send : bound.

Lemma total_write_send ep buffer n_bytes :
  total left_io 1 (with_fuel (fun f => write_send f ep buffer n_bytes)).
Proof. apply total_with_fuel. intros. apply runs_write_send. Qed.

#[local] Hint Resolve total_usbtmc_ioctl_abort_bulk_in
  total_usbtmc_ioctl_abort_bulk_out total_usbtmc_ioctl_clear total_write_send
  : bound.

Lemma total_usbtmc_ioctl_clear_out_halt d :
  total left_io 1 (usbtmc_ioctl_clear_out_halt d).
Proof. unfold usbtmc_ioctl_clear_out_halt. bound_auto. Qed.

Lemma total_usbtmc_ioctl_clear_in_halt d :
  total left_io 1 (usbtmc_ioctl_clear_in_halt d).
Proof. unfold usbtmc_ioctl_clear_in_halt. bound_auto. Qed.

Lemma total_usbtmc_ioctl_indicator_pulse d :
  total left_io 1 (usbtmc_ioctl_indicator_pulse d).
Proof.
  unfold usbtmc_ioctl_indicator_pulse. bound_auto.
Qed.

Lemma total_usbtmc488_ioctl_simple d arg cmd :
  total left_io 0 (usbtmc488_ioctl_simple d arg cmd).
Proof.
  unfold usbtmc488_ioctl_simple. bound_auto.
Qed.

Lemma total_usbtmc_ioctl_request d arg : total left_io 0 (usbtmc_ioctl_request d arg).
Proof.
  unfold usbtmc_ioctl_request. bound_auto.
Qed.

#[local] Hint Resolve total_usbtmc_ioctl_clear_out_halt
  total_usbtmc_ioctl_clear_in_halt total_usbtmc_ioctl_indicator_pulse
  total_usbtmc488_ioctl_simple total_usbtmc_ioctl_request : bound.

(** The same for the programs over the whole state. *)

Lemma total_lift {A} k (m : io A) : total left_io k m -> total left k (lift m).
Proof.
  intros H w. unfold lift. specialize (H (usb w)).
  destruct (m (usb w)); cbn in *; auto.
Qed.

Lemma total_get_data : total left 0 get_data.
Proof. intros w. unfold uses, left. cbn. lia. Qed.
Lemma total_get_files : total left 0 get_files.
Proof. intros w. unfold uses, left. cbn. lia. Qed.
Lemma total_get_io_buffer_size : total left 0 get_io_buffer_size.
Proof. intros w. unfold uses, left. cbn. lia. Qed.
Lemma total_modify_data f : total left 0 (modify_data f).
Proof. intros w. unfold uses, left. cbn. lia. Qed.
Lemma total_modify_files f : total left 0 (modify_files f).
Proof. intros w. unfold uses, left. cbn. lia. Qed.


#[local] Hint Resolve total_get_data total_get_files total_get_io_buffer_size
  total_modify_data total_modify_files : bound.
#[local] Hint Extern 2 (total left _ (lift _)) =>
  apply total_lift; solve [auto with bound] : bound.
#[local] Hint Extern 3 (total left 0 (lift _)) =>
  apply total_weaken, total_lift; solve [auto with bound] : bound.

Lemma total_usbtmc_interrupt u : total left 0 (usbtmc_interrupt u).
Proof. unfold usbtmc_interrupt. bound_auto. Qed.
#[local] Hint Resolve total_usbtmc_interrupt : bound.

Lemma total_deliver_urbs us : total left 0 (deliver_urbs us).
Proof.
  induction us as [|u us IH]; cbn [deliver_urbs]; [apply total_ret |].
  apply total_bind; [apply total_usbtmc_interrupt | intros; exact IH].
Qed.
#[local] Hint Resolve total_deliver_urbs : bound.

Lemma total_wait tmo : total left 0 (wait_event_interruptible_timeout tmo).
Proof. unfold wait_event_interruptible_timeout. bound_auto. Qed.
#[local] Hint Resolve total_wait : bound.

Lemma total_get_capabilities : total left 0 get_capabilities.
Proof.
  unfold get_capabilities. bound_auto.
Qed.

Lemma total_store_and_bump_bTag : total left 0 store_and_bump_bTag.
Proof. unfold store_and_bump_bTag. bound_auto. Qed.
#[local] Hint Resolve total_store_and_bump_bTag total_get_capabilities : bound.

Lemma total_read_stb h arg : total left 0 (usbtmc488_ioctl_read_stb h arg).
Proof.
  unfold usbtmc488_ioctl_read_stb. bound_auto.
Qed.

Lemma total_trigger : total left 0 usbtmc488_ioctl_trigger.
Proof.
  unfold usbtmc488_ioctl_trigger. bound_auto.
Qed.

Lemma total_send_request fd n : total left 1 (send_request_dev_dep_msg_in fd n).
Proof.
  unfold send_request_dev_dep_msg_in. bound_auto.
Qed.

Lemma total_auto_abort_bulk_in : total left 0 auto_abort_bulk_in.
Proof. unfold auto_abort_bulk_in. bound_auto. Qed.

Lemma total_auto_abort_bulk_out : total left 0 auto_abort_bulk_out.
Proof. unfold auto_abort_bulk_out. bound_auto. Qed.
#[local] Hint Resolve total_read_stb total_trigger total_send_request
  total_auto_abort_bulk_in total_auto_abort_bulk_out : bound.

Lemma runs_read_loop n buf this_part remaining done out :
  runs left n 0 (read_loop n buf this_part remaining done out).
Proof.
  revert remaining done out.
  induction n as [|n IH]; intros remaining done out; cbn [read_loop].
  - destruct (negb (remaining >? 0)); [apply total_runs, total_ret |].
    intros w Hw. lia.
  - bound_auto.
Qed.
#[local] Hint Resolve runs_read_loop : bound.

Lemma total_usbtmc_read h buf count : total left 0 (usbtmc_read h buf count).
Proof. unfold usbtmc_read. bound_auto. Qed.

Lemma runs_write_loop n buf count remaining done :
  runs left n 0 (write_loop n buf count remaining done).
Proof.
  revert remaining done.
  induction n as [|n IH]; intros remaining done; cbn [write_loop].
  - destruct (negb (remaining >? 0)); [apply total_runs, total_ret |].
    intros w Hw. lia.
  - bound_auto.
Qed.
#[local] Hint Resolve runs_write_loop : bound.

Lemma total_usbtmc_write h buf count : total left 0 (usbtmc_write h buf count).
Proof. unfold usbtmc_write. bound_auto. Qed.

Lemma total_usbtmc_ioctl h cmd arg : total left 0 (usbtmc_ioctl h cmd arg).
Proof.
  unfold usbtmc_ioctl, no_output, usbtmc_ioctl_get_timeout,
    usbtmc_ioctl_set_timeout, usbtmc_ioctl_eom_enable, usbtmc_ioctl_config_termc.
  bound_auto. destruct cmd; bound_auto.
Qed.

Lemma total_usbtmc_free_int : total left 0 usbtmc_free_int.
Proof. unfold usbtmc_free_int. bound_auto. Qed.
#[local] Hint Resolve total_usbtmc_free_int : bound.

(** No operation reaches the iteration bound: it returns, or it is blocked
    in a call that the script has no answer for. *)
Lemma total_run_op o : total left 0 (run_op o).
Proof.
  destruct o; cbn [run_op];
    unfold forget, usbtmc_open, usbtmc_release, usbtmc_poll, TermChar_store,
      TermCharEnabled_store, auto_abort_store, usbtmc_disconnect;
    bound_auto;
    first [ apply total_usbtmc_read | apply total_usbtmc_write
          | apply total_usbtmc_ioctl ].
Qed.

Lemma run_op_never_spins o w s : run_op o w <> Spin s.
Proof.
  intros E. pose proof (total_run_op o w) as H. rewrite E in H. exact H.
Qed.

Lemma usbtmc_probe_never_spins iosz tmo interface submitted registered answers s :
  usbtmc_probe iosz tmo interface submitted registered answers <> Spin s.
Proof.
  unfold usbtmc_probe.
  match goal with |- ?m ?w <> _ =>
    assert (H : total left 0 m) by bound_auto;
    intros E; specialize (H w); rewrite E in H; exact H
  end.
Qed.

(** * Results, claim by claim *)

Lemma set_usb_same w : set_usb (usb w) w = w.
Proof. destruct w; reflexivity. Qed.

Lemma reachable_scope : reachable scope.
Proof.
  apply (reach_probe 2048 5000 scope_interface 0 0 [full_capabilities]).
  vm_compute. reflexivity.
Qed.

Lemma reachable_meter : reachable meter.
Proof.
  apply (reach_probe 2048 5000 meter_interface 0 0 [no_capabilities]).
  vm_compute. reflexivity.
Qed.

(** ** READ_STB and the "simple" capability *)

Lemma ioctl_entry w h cmd arg fd :
  files w !! h = Some fd -> zombie (data w) = false ->
  usbtmc_ioctl h cmd arg w =
  match cmd with
  | USBTMC488_IOCTL_READ_STB => usbtmc488_ioctl_read_stb h (arg_ptr arg) w
  | USBTMC488_IOCTL_REN_CONTROL =>
      no_output (lift (usbtmc488_ioctl_simple (data w) (arg_ptr arg)
                         USBTMC488_REQUEST_REN_CONTROL)) w
  | USBTMC488_IOCTL_GOTO_LOCAL =>
      no_output (lift (usbtmc488_ioctl_simple (data w) (arg_ptr arg)
                         USBTMC488_REQUEST_GOTO_LOCAL)) w
  | USBTMC488_IOCTL_LOCAL_LOCKOUT =>
      no_output (lift (usbtmc488_ioctl_simple (data w) (arg_ptr arg)
                         USBTMC488_REQUEST_LOCAL_LOCKOUT)) w
  | _ => usbtmc_ioctl h cmd arg w
  end.
Proof.
  intros Hh Hz. destruct cmd; try reflexivity;
    unfold usbtmc_ioctl; unfold mbind at 1 2 3, prog_bind, get_files, get_data,
      get_io_buffer_size; rewrite Hh, Hz; reflexivity.
Qed.

Lemma simple_without_capability w arg cmd :
  Z.land (usb488_caps (data w)) USBTMC488_CAPABILITY_SIMPLE = 0 ->
  no_output (lift (usbtmc488_ioctl_simple (data w) arg cmd)) w
  = Ret (- EINVAL, []) w.
Proof.
  intros Hc. unfold no_output, usbtmc488_ioctl_simple. rewrite Hc. mrun.
  rewrite set_usb_same. reflexivity.
Qed.

(** C1, counterexample.  The meter reports no USB488 capability at all, so
    the "simple" bit of its [usb488_caps] is clear.  READ_STB on its open
    handle nevertheless sends the READ_STATUS_BYTE control request and
    returns 0 with the status byte 66 of the reply. *)
Lemma read_stb_without_simple_capability :
  let w := feed [answer 3 [1; 2; 66]] meter_open in
  let o := usbtmc_ioctl 0%nat USBTMC488_IOCTL_READ_STB
                        (user_arg (user_buffer 1)) w in
  Z.land (usb488_caps (data w)) USBTMC488_CAPABILITY_SIMPLE = 0
  /\ result o = Some (0, [66])
  /\ trace (usb (final o)) =
     trace (usb w)
     ++ [EvControl USBTMC488_REQUEST_READ_STATUS_BYTE CLASS_IN_INTERFACE 2 0 [] 3].
Proof. vm_compute. auto. Qed.

(** C1, as amended.  The "simple" capability is required by REN_CONTROL,
    GOTO_LOCAL and LOCAL_LOCKOUT only: on a live device whose [usb488_caps]
    lacks the bit, each of them fails with [-EINVAL] and leaves the state,
    the transport included, untouched.  READ_STB is not gated by it: on a
    handle without a pending service request its first transport call is the
    READ_STATUS_BYTE control request, tagged with [iin_bTag]. *)
Theorem simple_capability_gates_simple_requests
    (w : world) (h : nat) (arg : ioctl_arg) (fd : usbtmc_file_data) :
  files w !! h = Some fd ->
  zombie (data w) = false ->
  Z.land (usb488_caps (data w)) USBTMC488_CAPABILITY_SIMPLE = 0 ->
  usbtmc_ioctl h USBTMC488_IOCTL_REN_CONTROL arg w = Ret (- EINVAL, []) w
  /\ usbtmc_ioctl h USBTMC488_IOCTL_GOTO_LOCAL arg w = Ret (- EINVAL, []) w
  /\ usbtmc_ioctl h USBTMC488_IOCTL_LOCAL_LOCKOUT arg w = Ret (- EINVAL, []) w
  /\ (srq_asserted fd = 0 ->
      exists evs,
        trace (usb (final (usbtmc_ioctl h USBTMC488_IOCTL_READ_STB arg w))) =
        trace (usb w)
        ++ EvControl USBTMC488_REQUEST_READ_STATUS_BYTE CLASS_IN_INTERFACE
                     (iin_bTag (data w)) (ifnum (data w)) [] 3 :: evs).
Proof.
  intros Hh Hz Hc.
  rewrite !(ioctl_entry _ _ _ _ _ Hh Hz).
  rewrite !simple_without_capability by assumption.
  repeat split. intros Hs. apply (read_stb_slow _ _ _ _ Hh Hs).
Qed.

Lemma simple_capability_gates_simple_requests_witness :
  let w := feed [answer 3 [1; 2; 66]] meter_open in
  let arg := user_arg (user_buffer 1) in
  usbtmc_ioctl 0%nat USBTMC488_IOCTL_REN_CONTROL arg w = Ret (- EINVAL, []) w
  /\ usbtmc_ioctl 0%nat USBTMC488_IOCTL_GOTO_LOCAL arg w = Ret (- EINVAL, []) w
  /\ usbtmc_ioctl 0%nat USBTMC488_IOCTL_LOCAL_LOCKOUT arg w = Ret (- EINVAL, []) w
  /\ exists evs,
       trace (usb (final (usbtmc_ioctl 0%nat USBTMC488_IOCTL_READ_STB arg w))) =
       trace (usb w)
       ++ EvControl USBTMC488_REQUEST_READ_STATUS_BYTE CLASS_IN_INTERFACE 2 0 [] 3
          :: evs.
Proof.
  intros w arg.
  destruct (simple_capability_gates_simple_requests w 0%nat arg
              {| srq_byte := 0; srq_asserted := 0; f_TermChar := 10;
                 f_TermCharEnabled := false; f_auto_abort := false |})
    as (Hren & Hgtl & Hllo & Hstb); [vm_compute; reflexivity .. |].
  repeat split; try assumption. apply Hstb. reflexivity.
Defined.

(** ** Service requests and the fast path of READ_STB *)

Lemma put_stb_writable stb arg :
  copy_to_user arg 0 1 = true -> put_stb stb arg = (0, [stb]).
Proof. intros H. unfold put_stb. rewrite H. reflexivity. Qed.

(** C10.  When the handle's [srq_asserted] is set, READ_STB hands the stored
    [srq_byte] to [put_user] (so it returns 0 with that byte when the user's
    pointer is writable), clears the flag of this handle, and changes nothing
    else: the transport is untouched (no control transfer) and the device
    record, [iin_bTag] and [iin_data_valid] included, is the same.  When the
    flag is clear, the READ_STATUS_BYTE control request is issued and
    [iin_bTag] has advanced once the operation returns. *)
Theorem read_stb_fast_path
    (w : world) (h : nat) (arg : uptr) (fd : usbtmc_file_data) :
  files w !! h = Some fd ->
  (srq_asserted fd <> 0 ->
   exists w',
     usbtmc488_ioctl_read_stb h arg w = Ret (put_stb (srq_byte fd) arg) w'
     /\ (copy_to_user arg 0 1 = true -> put_stb (srq_byte fd) arg = (0, [srq_byte fd]))
     /\ usb w' = usb w
     /\ data w' = data w
     /\ iin_bTag (data w') = iin_bTag (data w)
     /\ iin_data_valid (data w') = iin_data_valid (data w)
     /\ files w' = <[h := set_srq_asserted 0 fd]> (files w))
  /\ (srq_asserted fd = 0 ->
      (exists evs,
         trace (usb (final (usbtmc488_ioctl_read_stb h arg w))) =
         trace (usb w)
         ++ EvControl USBTMC488_REQUEST_READ_STATUS_BYTE CLASS_IN_INTERFACE
                      (iin_bTag (data w)) (ifnum (data w)) [] 3 :: evs)
      /\ (forall r w', usbtmc488_ioctl_read_stb h arg w = Ret r w' ->
            iin_bTag (data w') = next_iin_bTag (iin_bTag (data w)))).
Proof.
  intros Hh. split.
  - intros Hs. eexists. split; [apply (read_stb_fast _ _ _ _ Hh Hs) |].
    split; [apply put_stb_writable | repeat split].
  - intros Hs. apply (read_stb_slow _ _ _ _ Hh Hs).
Qed.

Lemma read_stb_fast_path_witness :
  exists w',
    usbtmc488_ioctl_read_stb 0%nat (user_buffer 1) scope_srq = Ret (0, [66]) w'
    /\ usb w' = usb scope_srq
    /\ data w' = data scope_srq.
Proof.
  destruct (read_stb_fast_path scope_srq 0%nat (user_buffer 1)
              {| srq_byte := 66; srq_asserted := 1; f_TermChar := 10;
                 f_TermCharEnabled := false; f_auto_abort := false |})
    as [Hfast _]; [vm_compute; reflexivity |].
  destruct Hfast as (w' & E & _ & U & D & _); [vm_compute; discriminate |].
  exists w'. repeat split; assumption.
Defined.

(** C8.  An SRQ notification (status 0, first byte 0x81) stores its second
    byte in [srq_byte] and sets [srq_asserted] on every open handle, and on
    nothing else.  The next READ_STB on any one of these handles hands that
    byte to [put_user] (returning 0 with it when the pointer is writable)
    without touching the transport, and clears [srq_asserted] for that handle
    only: every other handle keeps its byte and its flag. *)
Theorem srq_sets_every_handle_read_stb_clears_one (w : world) (u : urb) :
  urb_status u = 0 -> urb_b0 u = 129 ->
  exists w1,
    usbtmc_interrupt u w = Ret true w1
    /\ data w1 = data w /\ usb w1 = usb w
    /\ (forall h, files w1 !! h = set_srq (urb_b1 u) 1 <$> files w !! h)
    /\ (forall h fd1, files w1 !! h = Some fd1 ->
          srq_byte fd1 = urb_b1 u /\ srq_asserted fd1 = 1)
    /\ (forall h arg, is_Some (files w !! h) ->
          exists w2,
            usbtmc488_ioctl_read_stb h arg w1 = Ret (put_stb (urb_b1 u) arg) w2
            /\ (copy_to_user arg 0 1 = true ->
                put_stb (urb_b1 u) arg = (0, [urb_b1 u]))
            /\ usb w2 = usb w1 /\ data w2 = data w1
            /\ (srq_asserted <$> files w2 !! h) = Some 0
            /\ (forall h', h' <> h -> files w2 !! h' = files w1 !! h')).
Proof.
  intros Hst Hb0.
  exists (set_files (set_srq (urb_b1 u) 1 <$> files w) w).
  unfold usbtmc_interrupt. rewrite Hst, Hb0. mrun.
  split; [reflexivity |]. split; [reflexivity |]. split; [reflexivity |].
  split; [intros h; apply lookup_fmap |].
  split.
  - intros h fd1. rewrite lookup_fmap.
    destruct (files w !! h); cbn; [intros [= <-]; auto | discriminate].
  - intros h arg [fd Hfd].
    set (w1 := set_files (set_srq (urb_b1 u) 1 <$> files w) w).
    assert (H1 : files w1 !! h = Some (set_srq (urb_b1 u) 1 fd)).
    { cbn. rewrite lookup_fmap, Hfd. reflexivity. }
    eexists. split.
    { rewrite (read_stb_fast w1 h arg _ H1); [reflexivity | cbn; discriminate]. }
    split; [exact (put_stb_writable _ _) |].
    cbn. repeat split.
    + rewrite lookup_insert_eq. reflexivity.
    + intros h' Hne. rewrite lookup_insert_ne by congruence. reflexivity.
Qed.

Lemma srq_sets_every_handle_read_stb_clears_one_witness :
  exists w1,
    usbtmc_interrupt {| urb_status := 0; urb_b0 := 129; urb_b1 := 66 |} scope_open2
    = Ret true w1
    /\ (forall h fd1, files w1 !! h = Some fd1 ->
          srq_byte fd1 = 66 /\ srq_asserted fd1 = 1)
    /\ exists w2,
         usbtmc488_ioctl_read_stb 0%nat (user_buffer 1) w1 = Ret (0, [66]) w2
         /\ usb w2 = usb w1
         /\ (srq_asserted <$> files w2 !! 0%nat) = Some 0
         /\ files w2 !! 1%nat = files w1 !! 1%nat.
Proof.
  destruct (srq_sets_every_handle_read_stb_clears_one scope_open2
              {| urb_status := 0; urb_b0 := 129; urb_b1 := 66 |})
    as (w1 & E & _ & _ & _ & Hall & Hread); [reflexivity | reflexivity |].
  exists w1. split; [exact E |]. split; [exact Hall |].
  destruct (Hread 0%nat (user_buffer 1)) as (w2 & E2 & _ & U & _ & Hc & Ho).
  { vm_compute. eauto. }
  exists w2. repeat split; try assumption. apply Ho. discriminate.
Defined.

(** ** Disconnect *)

Lemma usbtmc_read_zombie w h buf count :
  zombie (data w) = true -> is_Some (files w !! h) ->
  usbtmc_read h buf count w = Ret (- ENODEV, []) w.
Proof.
  intros Hz [fd Hh]. unfold usbtmc_read. mrun. rewrite Hh, Hz. reflexivity.
Qed.

Lemma usbtmc_write_zombie w h buf count :
  zombie (data w) = true -> is_Some (files w !! h) ->
  usbtmc_write h buf count w = Ret (- ENODEV) w.
Proof.
  intros Hz [fd Hh]. unfold usbtmc_write. mrun. rewrite Hh, Hz. reflexivity.
Qed.

Lemma usbtmc_ioctl_zombie w h cmd arg :
  zombie (data w) = true -> is_Some (files w !! h) ->
  usbtmc_ioctl h cmd arg w = Ret (- ENODEV, []) w.
Proof.
  intros Hz [fd Hh]. unfold usbtmc_ioctl.
  unfold mbind at 1 2 3, prog_bind, get_files, get_data, get_io_buffer_size.
  rewrite Hh, Hz. reflexivity.
Qed.

Lemma zombie_after_disconnect answers w :
  zombie (data (exec OpDisconnect answers w)) = true.
Proof.
  unfold exec, run_op, usbtmc_disconnect, usbtmc_free_int. mrun.
  destruct (negb (iin_ep_present (data w)) || negb (iin_urb (data w))); reflexivity.
Qed.

(** C9.  Disconnect sets [zombie], and no later operation of any kind
    (open, release, read, write, ioctl, poll, interrupt, attribute store,
    another disconnect) clears it.  From then on every read, write and ioctl
    on an open handle returns [-ENODEV] and leaves the state as it found it:
    nothing is added to the trace and no answer of the transport is used. *)
Theorem zombie_latches_and_refuses_io
    (w : world) (answers : list response) (ops : list (op * list response)) :
  reachable w ->
  let wz := run_ops ops (exec OpDisconnect answers w) in
  zombie (data wz) = true
  /\ (forall h buf count, is_Some (files wz !! h) ->
        usbtmc_read h buf count wz = Ret (- ENODEV, []) wz)
  /\ (forall h buf count, is_Some (files wz !! h) ->
        usbtmc_write h buf count wz = Ret (- ENODEV) wz)
  /\ (forall h cmd arg, is_Some (files wz !! h) ->
        usbtmc_ioctl h cmd arg wz = Ret (- ENODEV, []) wz).
Proof.
  intros Hr wz.
  assert (Hz : zombie (data wz) = true).
  { assert (HI : Inv true (exec OpDisconnect answers w)).
    { destruct (Inv_exec false OpDisconnect answers w (reachable_Inv w Hr))
        as ((H1 & H2 & _) & HF).
      split; [| exact HF]. repeat split; try assumption; try lia.
      intros _. apply zombie_after_disconnect. }
    apply (Inv_run_ops true ops) in HI. destruct HI as ((_ & _ & H3) & _).
    apply H3. reflexivity. }
  split; [exact Hz |]. split; [| split]; intros.
  - apply usbtmc_read_zombie; assumption.
  - apply usbtmc_write_zombie; assumption.
  - apply usbtmc_ioctl_zombie; assumption.
Qed.

Lemma zombie_latches_and_refuses_io_witness :
  zombie (data scope_unplugged) = true
  /\ usbtmc_read 0%nat (user_buffer 64) 64 scope_unplugged
     = Ret (- ENODEV, []) scope_unplugged
  /\ usbtmc_write 0%nat (user_bytes [42]) 1 scope_unplugged
     = Ret (- ENODEV) scope_unplugged
  /\ usbtmc_ioctl 0%nat USBTMC488_IOCTL_TRIGGER (user_arg (user_buffer 0))
                  scope_unplugged
     = Ret (- ENODEV, []) scope_unplugged.
Proof.
  destruct (zombie_latches_and_refuses_io scope_open []
              [(OpPoll 0%nat, []);
               (OpInterrupt {| urb_status := 0; urb_b0 := 129; urb_b1 := 66 |}, [])])
    as (Hz & Hr & Hw & Hi).
  { apply reach_exec, reachable_scope. }
  assert (Ho : is_Some (files scope_unplugged !! 0%nat)).
  { vm_compute. eauto. }
  split; [exact Hz |]. split; [| split].
  - apply Hr, Ho.
  - apply Hw, Ho.
  - apply Hi, Ho.
Defined.

(** ** The tags *)

Lemma probe_tags iosz tmo interface submitted registered answers rv w :
  usbtmc_probe iosz tmo interface submitted registered answers = Ret rv w ->
  bTag (data w) = 1 /\ iin_bTag (data w) = 2.
Proof.
  unfold usbtmc_probe, get_capabilities, usbtmc_free_int. mrun.
  destruct answers as [|r rest]; [discriminate |].
  repeat match goal with
         | |- context [if ?b then _ else _] => destruct b; cbn
         end;
    intros [= <- <-]; split; reflexivity.
Qed.

(** C6.  Probe starts the counter at 1 and the increment skips 0 on wrap, so
    in every state the driver can reach [bTag] lies in 1..255; and every
    bulk-out transfer in the trace (they are issued by the write engine, by
    the sender of REQUEST_DEV_DEP_MSG_IN and by TRIGGER, and by nothing else)
    was handed a buffer with a non-zero tag at offset 1 and the one's
    complement of it at offset 2. *)
Theorem bulk_out_tag_never_zero :
  (forall iosz tmo interface submitted registered answers w,
     usbtmc_probe iosz tmo interface submitted registered answers = Ret 0 w ->
     bTag (data w) = 1)
  /\ next_bTag 255 = 1
  /\ (forall w, reachable w ->
        bTag (data w) <> 0 /\ 1 <= bTag (data w) <= 255
        /\ Forall frame_ok (trace (usb w))).
Proof.
  split; [| split].
  - intros * E. apply (probe_tags _ _ _ _ _ _ _ _ E).
  - reflexivity.
  - intros w Hr. destruct (reachable_Inv w Hr) as ((H1 & _) & HF).
    repeat split; try assumption; lia.
Qed.

Lemma reachable_run_ops ops w : reachable w -> reachable (run_ops ops w).
Proof.
  revert w. induction ops as [|[o answers] ops IH]; intros w H; cbn; auto.
  apply IH, reach_exec, H.
Qed.

Lemma bulk_out_tag_never_zero_witness :
  bTag (data scope_busy) = 4
  /\ Forall frame_ok (trace (usb scope_busy))
  /\ length (filter (fun ev => is_bulk_out ev = true) (trace (usb scope_busy))) = 3%nat.
Proof.
  destruct bulk_out_tag_never_zero as (_ & _ & H).
  destruct (H scope_busy) as (_ & _ & HF).
  { apply reachable_run_ops, reach_exec, reachable_scope. }
  split; [reflexivity |]. split; [exact HF | reflexivity].
Defined.

(** C7.  Probe sets [iin_bTag] to 2; in every state the driver can reach it
    lies in 2..127; and a READ_STB that issues the READ_STATUS_BYTE control
    request (the handle has no pending service request) has, when it returns,
    advanced it by one within that range, going from 127 back to 2 and so
    never to 1. *)
Theorem iin_bTag_between_2_and_127 :
  (forall iosz tmo interface submitted registered answers w,
     usbtmc_probe iosz tmo interface submitted registered answers = Ret 0 w ->
     iin_bTag (data w) = 2)
  /\ (forall w, reachable w -> 2 <= iin_bTag (data w) <= 127)
  /\ (forall w h arg fd r w',
        2 <= iin_bTag (data w) <= 127 ->
        files w !! h = Some fd -> srq_asserted fd = 0 ->
        usbtmc488_ioctl_read_stb h arg w = Ret r w' ->
        iin_bTag (data w') =
        if iin_bTag (data w) =? 127 then 2 else iin_bTag (data w) + 1).
Proof.
  split; [| split].
  - intros * E. apply (probe_tags _ _ _ _ _ _ _ _ E).
  - intros w Hr. destruct (reachable_Inv w Hr) as ((_ & H2 & _) & _). exact H2.
  - intros w h arg fd r w' H2 Hh Hs E.
    destruct (read_stb_slow w h arg fd Hh Hs) as [_ H].
    rewrite (H r w' E). apply next_iin_bTag_step, H2.
Qed.

Lemma iin_bTag_between_2_and_127_witness :
  iin_bTag (data meter_polled) = 127
  /\ exists w',
       usbtmc488_ioctl_read_stb 0%nat (user_buffer 1)
         (feed [answer 3 [1; 0; 16]] meter_polled) = Ret (0, [16]) w'
       /\ iin_bTag (data w') = 2.
Proof.
  destruct iin_bTag_between_2_and_127 as (_ & _ & H).
  split; [vm_compute; reflexivity |].
  eexists. split; [vm_compute; reflexivity |].
  refine (H (feed [answer 3 [1; 0; 16]] meter_polled) 0%nat (user_buffer 1)
            {| srq_byte := 0; srq_asserted := 0; f_TermChar := 10;
               f_TermCharEnabled := false; f_auto_abort := false |} _ _ _ _ _ _).
  - vm_compute. split; discriminate.
  - vm_compute; reflexivity.
  - reflexivity.
  - vm_compute; reflexivity.
Defined.

(** ** Writing: partial transfers *)

(** C4, the code at a failing input.  A write of the four bytes "ABCD" is
    framed into 16 bytes.  The USB core moves 12 of them and returns 0; the
    driver then offers 4 bytes again, but from the start of the same buffer:
    the endpoint receives the first four header bytes a second time where the
    payload should follow, and the write still returns 4. *)
Theorem write_resends_start_of_buffer :
  let w := feed [moved 12; moved 4] scope_open in
  let o := usbtmc_write 0%nat (user_bytes [65; 66; 67; 68]) 4 w in
  let frame := [1; 1; 254; 0; 4; 0; 0; 0; 1; 0; 0; 0; 65; 66; 67; 68] in
  result o = Some 4
  /\ new_events w o = [EvBulkOut 2 frame 16; EvBulkOut 2 frame 4]
  /\ bulk_out_bytes (new_events w o) [moved 12; moved 4]
     = [1; 1; 254; 0; 4; 0; 0; 0; 1; 0; 0; 0] ++ [1; 1; 254; 0]
  /\ bulk_out_bytes (new_events w o) [moved 12; moved 4] <> frame.
Proof. vm_compute. repeat split; discriminate. Qed.

(** ** Reading: the first reply *)

(** C5, the code at failing inputs.  A read of up to 64 bytes whose request
    carries tag 1 gets a first packet that is too short, or has MsgID 1, or
    tag 7, or declares 65 characters.  In each case the read stops without
    copying anything, but what it returns is 0, the value of the successful
    bulk transfer, which a caller cannot tell from an empty message: no
    error is reported.  The well-formed reply is delivered. *)
Theorem read_rejects_bad_reply_with_zero :
  let read r := usbtmc_read 0%nat (user_buffer 64) 64 (feed [moved 12; r] scope_open) in
  result (read (answer 0 [2; 1; 254; 0])) = Some (0, [])
  /\ result (read (reply 1 1 3 [88; 89; 90; 0])) = Some (0, [])
  /\ result (read (reply 2 7 3 [88; 89; 90; 0])) = Some (0, [])
  /\ result (read (reply 2 1 65 [88; 89; 90; 0])) = Some (0, [])
  /\ result (read (reply 2 1 3 [88; 89; 90; 0])) = Some (3, [88; 89; 90]).
Proof. vm_compute. repeat split. Qed.

(** ** Reading: faults and auto-abort *)

(** C2, counterexample.  With [auto_abort] set, the send of
    REQUEST_DEV_DEP_MSG_IN fails with [-ETIMEDOUT].  The read returns that
    fault, but the handshake it runs first is ABORT_BULK_OUT (initiate, check
    status, clear halt on bulk-out); no INITIATE_ABORT_BULK_IN is issued. *)
Lemma read_request_failure_aborts_bulk_out :
  let w := feed [answer (- ETIMEDOUT) []; answer 2 [1; 0];
                 answer 8 [1; 0; 0; 0; 0; 0; 0; 0]; answer 0 []] scope_auto in
  let o := usbtmc_read 0%nat (user_buffer 64) 64 w in
  auto_abort (data w) = true
  /\ result o = Some (- ETIMEDOUT, [])
  /\ new_events w o =
     [EvBulkOut 2 [2; 1; 254; 0; 64; 0; 0; 0; 0; 10; 0; 0] 12;
      EvControl USBTMC_REQUEST_INITIATE_ABORT_BULK_OUT CLASS_IN_ENDPOINT 1 2 [] 2;
      EvControl USBTMC_REQUEST_CHECK_ABORT_BULK_OUT_STATUS CLASS_IN_ENDPOINT 0 2 [] 8;
      EvClearHalt false 2]
  /\ existsb is_initiate_abort_bulk_in (new_events w o) = false.
Proof. vm_compute. repeat split. Qed.

(** C2, as amended.  On a live device with [auto_abort] set, a read runs the
    abort handshake of the pipe that failed, and returns only when that
    handshake has returned:
    - when the send of REQUEST_DEV_DEP_MSG_IN fails, it is ABORT_BULK_OUT
      (for the tag of the request), and the read returns the fault of the
      send;
    - when the first bulk-in transfer fails, it is ABORT_BULK_IN, and the
      read returns the fault of the transfer;
    - when the first packet fails one of the four header checks, it is
      ABORT_BULK_IN, and the read ends there without copying anything;
    - when a bulk-in transfer fails in any round of the loop that drains the
      reply, it is ABORT_BULK_IN, and the loop ends with the fault of the
      transfer.
    The device record the handshake sees is the one after the request
    advanced [bTag] and, for bulk-in, after [bTag_last_read] was stored. *)
Theorem read_fault_runs_abort_of_failed_pipe
    (iosz : Z) (d : usbtmc_device_data) (fs : gmap nat usbtmc_file_data)
    (tr : list event) (h : nat) (fd : usbtmc_file_data) (buf : uptr)
    (count : Z) (r0 : response) :
  fs !! h = Some fd -> zombie d = false -> auto_abort d = true ->
  let d1 := bump_bTag (set_bTag_last_write (bTag d) d) in
  let d2 := set_bTag_last_read (bTag d1) d1 in
  let sent := tr ++ [EvBulkOut (bulk_out d) (request_dev_dep_msg_in fd d count)
                               USBTMC_HEADER_SIZE] in
  let polled := sent ++ [EvBulkIn (bulk_in d) iosz] in
  (forall rest, r_rv r0 < 0 ->
     usbtmc_read h buf count (mk_world iosz d fs (r0 :: rest) tr)
     = (lift (usbtmc_ioctl_abort_bulk_out d1);; mret (r_rv r0, []))
         (mk_world iosz d1 fs rest sent))
  /\ (forall r1 rest, 0 <= r_rv r0 -> 0 < count -> r_rv r1 < 0 ->
        usbtmc_read h buf count (mk_world iosz d fs (r0 :: r1 :: rest) tr)
        = (lift (usbtmc_ioctl_abort_bulk_in iosz d2);; mret (r_rv r1, []))
            (mk_world iosz d2 fs rest polled))
  /\ (forall r1 rest, 0 <= r_rv r0 -> 0 < count -> 0 <= r_rv r1 ->
        let received := firstn (Z.to_nat iosz) (r_data r1) in
        header_ok (Zlen received) received (bTag d) count = false ->
        exists retval,
          usbtmc_read h buf count (mk_world iosz d fs (r0 :: r1 :: rest) tr)
          = (lift (usbtmc_ioctl_abort_bulk_in iosz d2);; mret (retval, []))
              (mk_world iosz d2 fs rest polled))
  /\ (forall d' tr' r1 rest fuel this_part remaining done out,
        auto_abort d' = true -> 0 < remaining -> r_rv r1 < 0 ->
        let d'' := set_bTag_last_read (bTag d') d' in
        read_loop (S fuel) buf this_part remaining done out
                  (mk_world iosz d' fs (r1 :: rest) tr')
        = (lift (usbtmc_ioctl_abort_bulk_in iosz d'');; mret (r_rv r1, out))
            (mk_world iosz d'' fs rest (tr' ++ [EvBulkIn (bulk_in d') iosz]))).
Proof.
  intros Hh Hz Ha d1 d2 sent polled.
  assert (Ha1 : auto_abort d1 = true) by exact Ha.
  assert (Ha2 : auto_abort d2 = true) by exact Ha.
  split; [| split; [| split]].
  - intros rest H0. rewrite (usbtmc_read_request _ _ _ _ _ _ _ _ _ _ Hh Hz).
    cbv zeta. apply Z.ltb_lt in H0. rewrite H0.
    apply auto_abort_bulk_out_on, Ha1.
  - intros r1 rest H0 Hc H1. rewrite (usbtmc_read_request _ _ _ _ _ _ _ _ _ _ Hh Hz).
    cbv zeta. apply Z.ltb_ge in H0. rewrite H0.
    unfold with_fuelM. cbn [usb script mk_world length].
    rewrite read_loop_first by assumption.
    cbv zeta. apply Z.ltb_lt in H1. rewrite H1.
    apply auto_abort_bulk_in_on, Ha2.
  - intros r1 rest H0 Hc H1 received Hbad. exists (r_rv r1).
    rewrite (usbtmc_read_rejected_reply _ _ _ _ _ _ _ _ _ _ _ Hh Hz H0 Hc H1 Hbad).
    apply auto_abort_bulk_in_on, Ha2.
  - intros d' tr' r1 rest fuel this_part remaining done out Ha' Hrem H1 d''.
    rewrite read_loop_transfer_fault by assumption.
    apply auto_abort_bulk_in_on, Ha'.
Qed.

Lemma read_fault_runs_abort_of_failed_pipe_witness :
  let w := feed [moved 12; answer (- ETIMEDOUT) []; answer (- EPIPE) []] scope_auto in
  let o := usbtmc_read 0%nat (user_buffer 64) 64 w in
  result o = Some (- ETIMEDOUT, [])
  /\ new_events w o =
     [EvBulkOut 2 [2; 1; 254; 0; 64; 0; 0; 0; 0; 10; 0; 0] 12;
      EvBulkIn 129 2048;
      EvControl USBTMC_REQUEST_INITIATE_ABORT_BULK_IN CLASS_IN_ENDPOINT 2 129 [] 2].
Proof.
  intros w o.
  destruct (read_fault_runs_abort_of_failed_pipe 2048 (data scope_auto)
              (files scope_auto) (trace (usb scope_auto)) 0%nat
              {| srq_byte := 0; srq_asserted := 0; f_TermChar := 10;
                 f_TermCharEnabled := false; f_auto_abort := false |}
              (user_buffer 64) 64 (moved 12))
    as (_ & Hin & _); [vm_compute; reflexivity .. |].
  specialize (Hin (answer (- ETIMEDOUT) []) [answer (- EPIPE) []]).
  assert (E : o = (lift (usbtmc_ioctl_abort_bulk_in 2048
                       (set_bTag_last_read 2 (bump_bTag
                          (set_bTag_last_write 1 (data scope_auto)))));;
                   mret (- ETIMEDOUT, []))
                  (mk_world 2048
                     (set_bTag_last_read 2 (bump_bTag
                        (set_bTag_last_write 1 (data scope_auto))))
                     (files scope_auto) [answer (- EPIPE) []]
                     (trace (usb scope_auto)
                      ++ [EvBulkOut 2 [2; 1; 254; 0; 64; 0; 0; 0; 0; 10; 0; 0] 12;
                          EvBulkIn 129 2048]))).
  { apply Hin; vm_compute; congruence. }
  rewrite E. vm_compute. split; reflexivity.
Defined.

(** ** The tags kept for the abort requests *)

Lemma mk_world_eta w :
  w = mk_world (io_buffer_size w) (data w) (files w) (script (usb w)) (trace (usb w)).
Proof. destruct w as [iosz d fs [s tr]]. reflexivity. Qed.

(** C3, the code at a failing input.  The scope's counter is at 1 when a
    read of up to 64 bytes starts; the request carries tag 1 and the reply,
    with tag 1, is accepted and delivered.  After the read [bTag_last_write]
    is 1, the tag the request carried, but [bTag_last_read] is 2: it is
    stored from the counter after the request has advanced it.  The field is
    kept for the abort: with [auto_abort] set, a read whose bulk-in transfer
    fails sends INITIATE_ABORT_BULK_IN for tag 2, a tag no transfer has
    carried.  The store of the write path takes the counter before it
    advances: after a write of one chunk with tag 1, [bTag_last_write] is
    1. *)
Theorem read_stores_advanced_tag :
  let w := feed [moved 12; reply 2 1 3 [88; 89; 90; 0]] scope_open in
  let o := usbtmc_read 0%nat (user_buffer 64) 64 w in
  let wa := feed [moved 12; answer (- EPIPE) []; answer (- EPIPE) []] scope_auto in
  let oa := usbtmc_read 0%nat (user_buffer 64) 64 wa in
  let ww := feed [moved 16] scope_open in
  let ow := usbtmc_write 0%nat (user_bytes [65; 66; 67; 68]) 4 ww in
  bTag (data w) = 1
  /\ new_events w o = [EvBulkOut 2 [2; 1; 254; 0; 64; 0; 0; 0; 0; 10; 0; 0] 12;
                       EvBulkIn 129 2048]
  /\ result o = Some (3, [88; 89; 90])
  /\ bTag_last_write (data (final o)) = 1
  /\ bTag_last_read (data (final o)) = 2
  /\ bTag (data wa) = 1
  /\ result oa = Some (- EPIPE, [])
  /\ new_events wa oa =
     [EvBulkOut 2 [2; 1; 254; 0; 64; 0; 0; 0; 0; 10; 0; 0] 12;
      EvBulkIn 129 2048;
      EvControl USBTMC_REQUEST_INITIATE_ABORT_BULK_IN CLASS_IN_ENDPOINT 2 129 [] 2]
  /\ bTag (data ww) = 1
  /\ new_events ww ow =
     [EvBulkOut 2 [1; 1; 254; 0; 4; 0; 0; 0; 1; 0; 0; 0; 65; 66; 67; 68] 16]
  /\ bTag_last_write (data (final ow)) = 1.
Proof. vm_compute. repeat split. Qed.

(** The two stores on every path.  A read that gets as far as a bulk-in
    transfer (live device, request sent without fault, [count] above 0)
    leaves in [bTag_last_read] the value the [bTag] counter has when the
    read returns, which is the successor of the tag its request carried.
    Every other read on an open handle leaves [bTag_last_read] as it was.
    After a write that returns, [bTag_last_write] is the tag in the buffer
    of the last bulk-out transfer the write made; a write that made none
    leaves it as it was. *)
Lemma last_tags_after_read_and_write :
  (forall w h fd buf count r w',
     files w !! h = Some fd ->
     usbtmc_read h buf count w = Ret r w' ->
     if read_reaches_bulk_in w count
     then bTag_last_read (data w') = bTag (data w')
          /\ bTag (data w') = next_bTag (bTag (data w))
     else bTag_last_read (data w') = bTag_last_read (data w))
  /\ (forall w h buf count r w',
        usbtmc_write h buf count w = Ret r w' ->
        exists evs,
          trace (usb w') = trace (usb w) ++ evs
          /\ match last_bulk_out evs with
             | Some frame => byte_at frame 1 = bTag_last_write (data w')
             | None => bTag_last_write (data w') = bTag_last_write (data w)
             end).
Proof.
  split.
  - intros w h fd buf count r w' Hh. unfold read_reaches_bulk_in.
    destruct (zombie (data w)) eqn:Hz.
    { rewrite usbtmc_read_zombie by eauto. intros [= <- <-]. reflexivity. }
    rewrite (mk_world_eta w) at 1. cbn [negb andb].
    destruct (script (usb w)) as [|r0 rest].
    { unfold usbtmc_read, send_request_dev_dep_msg_in. mstep. rewrite Hh.
      mstep. rewrite Hz. mstep. discriminate. }
    rewrite (usbtmc_read_request _ _ _ _ _ _ _ _ _ _ Hh Hz). cbv zeta.
    rewrite Z.leb_antisym. destruct (r_rv r0 <? 0); cbn [negb andb].
    + mstep. destruct (auto_abort_bulk_out _) as [a s|s|s] eqn:Ea; try discriminate.
      intros [= <- <-]. rewrite (auto_abort_bulk_out_data _ _ _ Ea). reflexivity.
    + unfold with_fuelM. intros Hl. apply read_loop_tags in Hl.
      destruct Hl as [Hb Hl]. rewrite Hb, Hl. cbn.
      destruct (count >? 0); auto.
  - intros w h buf count r w'. unfold usbtmc_write. mstep.
    destruct (files w !! h);
      [| intros [= <- <-]; exists []; rewrite app_nil_r; split; reflexivity].
    destruct (zombie (data w));
      [intros [= <- <-]; exists []; rewrite app_nil_r; split; reflexivity |].
    unfold with_fuelM. apply write_loop_last.
Qed.

Lemma last_tags_after_read_and_write_witness :
  let wr := feed [moved 12; reply 2 1 3 [88; 89; 90; 0]] scope_open in
  let ww := feed [moved 20] scope_open in
  let wr' := final (usbtmc_read 0%nat (user_buffer 64) 64 wr) in
  let ww' := final (usbtmc_write 0%nat (user_bytes [65; 66; 67; 68; 69]) 5 ww) in
  (bTag_last_read (data wr') = bTag (data wr') /\ bTag (data wr') = 2)
  /\ (exists evs,
        trace (usb ww') = trace (usb ww) ++ evs
        /\ match last_bulk_out evs with
           | Some frame => byte_at frame 1 = bTag_last_write (data ww')
           | None => bTag_last_write (data ww') = bTag_last_write (data ww)
           end).
Proof.
  intros wr ww wr' ww'.
  destruct last_tags_after_read_and_write as [Hread Hwrite].
  split.
  - refine (Hread wr 0%nat
              {| srq_byte := 0; srq_asserted := 0; f_TermChar := 10;
                 f_TermCharEnabled := false; f_auto_abort := false |}
              (user_buffer 64) 64 (3, [88; 89; 90]) wr' _ _);
      vm_compute; reflexivity.
  - apply (Hwrite ww 0%nat (user_bytes [65; 66; 67; 68; 69]) 5 5 ww').
    vm_compute. reflexivity.
Defined.

(** * Further results *)

(** ** Little-endian fields and frames *)

(** Evaluates the constant offsets into a buffer. *)
Ltac offsets :=
  repeat match goal with
         | |- context [Z.to_nat (Zpos ?p)] =>
             let n := eval compute in (Z.to_nat (Zpos p)) in
             change (Z.to_nat (Zpos p)) with n
         | |- context [Z.to_nat 0] => change (Z.to_nat 0) with 0%nat
         end;
  cbn [nth app skipn].

Lemma le32_sum x :
  u8 (Z.shiftr x 0) + Z.shiftl (u8 (Z.shiftr x 8)) 8
  + Z.shiftl (u8 (Z.shiftr x 16)) 16 + Z.shiftl (u8 (Z.shiftr x 24)) 24 = u32 x.
Proof.
  rewrite !Z.shiftr_div_pow2, !Z.shiftl_mul_pow2 by lia.
  unfold u8, u32.
  change (2 ^ 0) with 1; change (2 ^ 8) with 256; change (2 ^ 16) with 65536;
    change (2 ^ 24) with 16777216; change (2 ^ 32) with 4294967296.
  Z.div_mod_to_equations. lia.
Qed.

Lemma u32_small x : 0 <= x < 2 ^ 32 -> u32 x = x.
Proof. intros H. unfold u32. apply Z.mod_small. exact H. Qed.

Lemma u32_u32 x : u32 (u32 x) = u32 x.
Proof. unfold u32. apply Z.mod_mod. lia. Qed.

Lemma to_int_small x : - 2 ^ 31 <= x < 2 ^ 31 -> to_int x = x.
Proof.
  intros H. unfold to_int. rewrite Z.mod_small; lia.
Qed.

Lemma le32_value_bytes x : le32_value (le32_bytes x) = u32 x.
Proof.
  unfold le32_value, le32_bytes, byte_at. offsets. apply le32_sum.
Qed.

Lemma header_n_characters_le32 b0 b1 b2 b3 x rest :
  header_n_characters ([b0; b1; b2; b3] ++ le32_bytes x ++ rest) = u32 x.
Proof.
  unfold header_n_characters, le32_bytes, byte_at. offsets.
  rewrite le32_sum. apply u32_u32.
Qed.

Lemma roundup4_bounds x : x <= roundup4 x <= x + 3 /\ roundup4 x mod 4 = 0.
Proof.
  unfold roundup4. split.
  - Z.div_mod_to_equations. lia.
  - apply Z.mod_mul. lia.
Qed.

Lemma roundup4_mono x y : x <= y -> roundup4 x <= roundup4 y.
Proof.
  intros H. unfold roundup4. apply Z.mul_le_mono_nonneg_r; [lia |].
  apply Z.div_le_mono; lia.
Qed.

Lemma Zlen_app {A} (l k : list A) : Zlen (l ++ k) = Zlen l + Zlen k.
Proof. unfold Zlen. rewrite length_app. lia. Qed.

Lemma Zlen_zeros n : 0 <= n -> Zlen (zeros n) = n.
Proof. intros H. unfold Zlen, zeros. rewrite repeat_length. lia. Qed.

Lemma Zlen_nonneg {A} (l : list A) : 0 <= Zlen l.
Proof. unfold Zlen. lia. Qed.

Lemma Zlen_slice l off n :
  0 <= off -> 0 <= n -> off + n <= Zlen l -> Zlen (slice l off n) = n.
Proof.
  intros Ho Hn H. unfold Zlen in *. unfold slice.
  rewrite length_firstn, length_skipn. lia.
Qed.

Lemma slice_app_exact (l k : list Z) n : n = Zlen l -> slice (l ++ k) 0 n = l.
Proof.
  intros ->. unfold slice, Zlen. change (Z.to_nat 0) with 0%nat. rewrite skipn_O.
  rewrite Nat2Z.id. rewrite firstn_app, Nat.sub_diag, firstn_all. cbn.
  apply app_nil_r.
Qed.

Lemma slice_split l off a b :
  0 <= off -> 0 <= a -> 0 <= b ->
  slice l off (a + b) = slice l off a ++ slice l (off + a) b.
Proof.
  intros Ho Ha Hb. unfold slice.
  rewrite !Z2Nat.inj_add by lia.
  set (o := Z.to_nat off). set (x := Z.to_nat a). set (y := Z.to_nat b).
  rewrite <- (firstn_skipn x (firstn (x + y) (skipn o l))) at 1.
  f_equal.
  - rewrite firstn_firstn. f_equal. lia.
  - rewrite skipn_firstn_comm. rewrite skipn_skipn. f_equal; [lia |].
    f_equal. lia.
Qed.

(** The frame of [usbtmc_write] as the device decodes it. *)
Lemma dev_dep_msg_out_frame d this_part attr payload :
  0 <= this_part < 2 ^ 32 -> Zlen payload = this_part ->
  let frame := dev_dep_msg_out d this_part attr payload in
  Zlen frame = roundup4 (USBTMC_HEADER_SIZE + this_part)
  /\ frame_payload frame = payload
  /\ byte_at frame 8 = attr.
Proof.
  intros Hn Hl frame. subst frame. unfold dev_dep_msg_out, frame_payload.
  pose proof (roundup4_bounds (USBTMC_HEADER_SIZE + this_part)) as [Hr _].
  split; [| split].
  - rewrite !Zlen_app, Zlen_zeros, Hl by lia.
    unfold USBTMC_HEADER_SIZE in *. unfold Zlen at 1 2 3. cbn. lia.
  - unfold tag_bytes. rewrite header_n_characters_le32, u32_small by exact Hn.
    unfold le32_bytes, slice, USBTMC_HEADER_SIZE. cbn [app].
    change (Z.to_nat 12) with 12%nat. cbn [skipn].
    change (firstn (Z.to_nat this_part) (payload ++ zeros (roundup4 (12 + this_part) - (12 + this_part))))
      with (slice (payload ++ zeros (roundup4 (12 + this_part) - (12 + this_part))) 0 this_part).
    apply slice_app_exact. symmetry. exact Hl.
  - reflexivity.
Qed.

(** ** A write that the transport completes *)

Lemma copy_from_user_ok from off n :
  off + n <= Zlen (u_bytes from) ->
  copy_from_user from off n = Some (slice (u_bytes from) off n).
Proof.
  intros H. unfold copy_from_user.
  apply Z.leb_le in H. rewrite H, orb_true_r. reflexivity.
Qed.

Lemma write_send_completes fuel ep buffer n_bytes r rest tr :
  0 <= n_bytes -> completes n_bytes r ->
  write_send (S fuel) ep buffer n_bytes {| script := r :: rest; trace := tr |}
  = Ret 0 {| script := rest; trace := tr ++ [EvBulkOut ep buffer n_bytes] |}.
Proof.
  intros Hn [Hrv Hact]. cbn [write_send]. mstep.
  rewrite Hrv, Z.min_l, Z.max_r, Z.sub_diag by lia. reflexivity.
Qed.

Lemma write_loop_done fuel buf count remaining done w :
  remaining <= 0 ->
  write_loop fuel buf count remaining done w = Ret (to_int count) w.
Proof.
  intros H. assert (E : (remaining >? 0) = false) by (rewrite Z.gtb_ltb; apply Z.ltb_ge; lia).
  destruct fuel; cbn [write_loop]; rewrite E; reflexivity.
Qed.

(** Runs the straight-line part of the write loop, leaving frames and
    conversions folded. *)
Ltac wstep :=
  repeat (progress (
    unfold mbind, prog_bind, mret, prog_ret, get_files, get_data, modify_files,
      modify_data, get_io_buffer_size, lift, spin;
    cbn -[read_loop write_loop write_send firstn Z.to_nat Zlen slice byte_at
          dev_dep_msg_out roundup4 with_fuel u32 to_int Z.sub Z.add Z.gtb
          copy_from_user])).

Lemma write_loop_round fuel buf count remaining done iosz d fs r rest tr :
  USBTMC_HEADER_SIZE < iosz < 2 ^ 31 ->
  0 <= done -> 0 < remaining ->
  done + Z.min remaining (iosz - USBTMC_HEADER_SIZE) <= Zlen (u_bytes buf) ->
  done + remaining < 2 ^ 31 ->
  completes (roundup4 iosz) r ->
  let last := remaining <=? iosz - USBTMC_HEADER_SIZE in
  let this_part := if last then remaining else iosz - USBTMC_HEADER_SIZE in
  let attr := if last then bool_to_Z (eom_val d) else 0 in
  let frame := dev_dep_msg_out d this_part attr (slice (u_bytes buf) done this_part) in
  write_loop (S fuel) buf count remaining done (mk_world iosz d fs (r :: rest) tr)
  = write_loop fuel buf count (remaining - this_part) (done + this_part)
      (mk_world iosz (bump_bTag (set_bTag_last_write (bTag d) d)) fs rest
                (tr ++ [EvBulkOut (bulk_out d) frame (Zlen frame)])).
Proof.
  intros Hio Hd Hr Hb Hc Hok last this_part attr frame.
  unfold USBTMC_HEADER_SIZE in Hio, Hb.
  assert (Hp : 0 < this_part <= remaining /\ this_part <= iosz - 12
               /\ this_part = Z.min remaining (iosz - 12)).
  { subst this_part last. unfold USBTMC_HEADER_SIZE.
    destruct (remaining <=? iosz - 12) eqn:El;
      [apply Z.leb_le in El | apply Z.leb_gt in El]; lia. }
  cbn [write_loop].
  assert (E : (remaining >? 0) = true) by (apply Z.gtb_lt; lia).
  rewrite E. cbn [negb]. unfold store_and_bump_bTag. wstep.
  rewrite (u32_small remaining), (u32_small (iosz - USBTMC_HEADER_SIZE))
    by (unfold USBTMC_HEADER_SIZE; lia).
  replace (remaining >? iosz - USBTMC_HEADER_SIZE) with (negb last)
    by (subst last; rewrite Z.gtb_ltb, Z.leb_antisym, negb_involutive; reflexivity).
  rewrite (to_int_small (iosz - USBTMC_HEADER_SIZE))
    by (unfold USBTMC_HEADER_SIZE; lia).
  replace (if negb last
           then (iosz - USBTMC_HEADER_SIZE, 0)
           else (remaining, bool_to_Z (eom_val d)))
    with (this_part, attr) by (subst this_part attr; destruct last; reflexivity).
  rewrite copy_from_user_ok by lia.
  fold frame.
  pose proof (roundup4_bounds (USBTMC_HEADER_SIZE + this_part)) as [Hru _].
  unfold USBTMC_HEADER_SIZE in Hru.
  assert (Hf : Zlen frame = roundup4 (USBTMC_HEADER_SIZE + this_part)).
  { apply dev_dep_msg_out_frame; [lia |]. apply Zlen_slice; lia. }
  unfold with_fuel, mk_world. cbn [usb script length].
  rewrite write_send_completes;
    [| unfold USBTMC_HEADER_SIZE; lia
     | destruct Hok as [H1 H2]; split; [exact H1 |];
       pose proof (roundup4_mono (USBTMC_HEADER_SIZE + this_part) iosz);
       unfold USBTMC_HEADER_SIZE in *; lia ].
  wstep. rewrite Hf.
  rewrite (to_int_small (remaining - this_part)), (to_int_small (done + this_part))
    by lia.
  reflexivity.
Qed.

Lemma frame_eom_attr d this_part (eom : bool) payload :
  frame_eom (dev_dep_msg_out d this_part (bool_to_Z eom) payload) = eom.
Proof. destruct eom; reflexivity. Qed.

Lemma frame_eom_clear d this_part payload :
  frame_eom (dev_dep_msg_out d this_part 0 payload) = false.
Proof. reflexivity. Qed.

Lemma write_loop_completes k : forall fuel buf count remaining done iosz d fs s tr,
  USBTMC_HEADER_SIZE < iosz < 2 ^ 31 ->
  0 <= done -> 0 <= remaining -> done + remaining <= Zlen (u_bytes buf) ->
  done + remaining < 2 ^ 31 ->
  remaining <= Z.of_nat k * (iosz - USBTMC_HEADER_SIZE) ->
  (k <= length s)%nat -> (length s < fuel)%nat ->
  Forall (completes (roundup4 iosz)) (firstn k s) ->
  exists frames d',
    write_loop fuel buf count remaining done (mk_world iosz d fs s tr)
    = Ret (to_int count)
          (mk_world iosz d' fs (skipn (length frames) s)
                    (tr ++ sent (bulk_out d) frames))
    /\ (length frames <= k)%nat
    /\ (frames = [] <-> remaining = 0)
    /\ concat (map frame_payload frames) = slice (u_bytes buf) done remaining
    /\ eom_only_last (eom_val d) frames
    /\ Forall (fun frame => Zlen frame mod 4 = 0
                            /\ Zlen (frame_payload frame) <= iosz - USBTMC_HEADER_SIZE)
              frames
    /\ bTag d' = Nat.iter (length frames) next_bTag (bTag d)
    /\ bulk_out d' = bulk_out d /\ eom_val d' = eom_val d.
Proof.
  induction k as [|k IH];
    intros fuel buf count remaining done iosz d fs s tr Hio Hd Hr Hb Hc Hk Hs Hf Hok.
  - assert (remaining = 0) as -> by lia.
    exists [], d. rewrite write_loop_done by lia. cbn. rewrite app_nil_r.
    unfold slice. cbn. rewrite firstn_O. repeat split; auto.
  - destruct (Z.eq_dec remaining 0) as [-> | Hne].
    { exists [], d. rewrite write_loop_done by lia. cbn. rewrite app_nil_r.
      unfold slice. cbn. rewrite firstn_O. repeat split; auto. lia. }
    destruct s as [|r rest]; [cbn in Hs; lia |].
    destruct fuel as [|fuel]; [cbn in Hf; lia |].
    cbn [firstn] in Hok. apply Forall_cons in Hok. destruct Hok as [Hr0 Hok].
    rewrite write_loop_round by (assumption || lia). cbv zeta.
    assert (Hlast : exists this_part attr,
              (if remaining <=? iosz - USBTMC_HEADER_SIZE
               then remaining else iosz - USBTMC_HEADER_SIZE) = this_part
              /\ (if remaining <=? iosz - USBTMC_HEADER_SIZE
                  then bool_to_Z (eom_val d) else 0) = attr
              /\ 0 < this_part <= remaining
              /\ this_part <= iosz - USBTMC_HEADER_SIZE
              /\ remaining - this_part <= Z.of_nat k * (iosz - USBTMC_HEADER_SIZE)
              /\ (attr = bool_to_Z (eom_val d) /\ this_part = remaining
                  \/ attr = 0 /\ this_part < remaining)).
    { unfold USBTMC_HEADER_SIZE in *.
      destruct (remaining <=? iosz - 12) eqn:El;
        [apply Z.leb_le in El | apply Z.leb_gt in El];
        eexists; eexists; (split; [reflexivity |]); (split; [reflexivity |]);
        repeat split; try lia; try nia;
        first [left; split; (reflexivity || lia) | right; split; (reflexivity || lia)]. }
    destruct Hlast as (this_part & attr & -> & -> & Hp1 & Hp2 & Hp3 & Hp4).
    set (payload := slice (u_bytes buf) done this_part).
    set (frame := dev_dep_msg_out d this_part attr payload).
    assert (Hpl : Zlen payload = this_part) by (apply Zlen_slice; lia).
    destruct (dev_dep_msg_out_frame d this_part attr payload) as (Hl & Hpay & _);
      [unfold USBTMC_HEADER_SIZE in *; lia | exact Hpl |].
    fold frame in Hl, Hpay.
    destruct (IH fuel buf count (remaining - this_part) (done + this_part) iosz
                (bump_bTag (set_bTag_last_write (bTag d) d)) fs rest
                (tr ++ [EvBulkOut (bulk_out d) frame (Zlen frame)]))
      as (frames & d' & E & Hn & Hnil & Hcat & Heom & Hall & Htag & Hbo & Hev);
      try lia; try assumption.
    { cbn in Hs. lia. }
    { cbn in Hf. lia. }
    exists (frame :: frames), d'. rewrite E. cbn in Hbo, Hev, Htag.
    split; [| repeat split].
    + cbn [length skipn sent map]. rewrite <- app_assoc. reflexivity.
    + cbn. lia.
    + discriminate.
    + intros ->. lia.
    + cbn [map concat]. rewrite Hpay, Hcat. subst payload.
      rewrite <- slice_split by lia. f_equal. lia.
    + destruct Hp4 as [[Ha Ht] | [Ha Ht]].
      * assert (frames = []) as -> by (apply Hnil; lia).
        cbn. subst frame. rewrite Ha. apply frame_eom_attr.
      * destruct frames as [|frame' frames'].
        { exfalso. assert (remaining - this_part = 0) by (apply Hnil; reflexivity).
          lia. }
        split; [subst frame; rewrite Ha; apply frame_eom_clear | exact Heom].
    + constructor; [| exact Hall]. split.
      * rewrite Hl. apply roundup4_bounds.
      * rewrite Hpay, Hpl. exact Hp2.
    + rewrite Htag. cbn [length]. rewrite Nat.iter_succ_r. reflexivity.
    + exact Hbo.
    + exact Hev.
Qed.

Lemma write_completes w h fd buf count k :
  files w !! h = Some fd -> zombie (data w) = false ->
  USBTMC_HEADER_SIZE < io_buffer_size w < 2 ^ 31 ->
  0 <= count < 2 ^ 31 -> count <= Zlen (u_bytes buf) ->
  count <= Z.of_nat k * (io_buffer_size w - USBTMC_HEADER_SIZE) ->
  (k <= length (script (usb w)))%nat ->
  Forall (completes (roundup4 (io_buffer_size w))) (firstn k (script (usb w))) ->
  exists w' frames,
    usbtmc_write h buf count w = Ret count w'
    /\ trace (usb w') = trace (usb w) ++ sent (bulk_out (data w)) frames
    /\ script (usb w') = skipn (length frames) (script (usb w))
    /\ (length frames <= k)%nat
    /\ concat (map frame_payload frames) = firstn (Z.to_nat count) (u_bytes buf)
    /\ eom_only_last (eom_val (data w)) frames
    /\ Forall (fun frame =>
                 Zlen frame mod 4 = 0
                 /\ Zlen (frame_payload frame)
                    <= io_buffer_size w - USBTMC_HEADER_SIZE) frames
    /\ bTag (data w') = Nat.iter (length frames) next_bTag (bTag (data w)).
Proof.
  intros Hh Hz Hio Hc Hb Hk Hs Hok.
  destruct w as [iosz d fs [s tr]]. cbn in *.
  destruct (write_loop_completes k (S (length s)) buf count count 0 iosz d fs s tr)
    as (frames & d' & E & Hn & _ & Hcat & Heom & Hall & Htag & _); try lia; try assumption.
  exists (mk_world iosz d' fs (skipn (length frames) s) (tr ++ sent (bulk_out d) frames)),
    frames.
  split; [| repeat split; assumption].
  unfold usbtmc_write. wstep. rewrite Hh. wstep. rewrite Hz.
    unfold with_fuelM. cbn [usb script].
    rewrite (to_int_small count) by lia.
  unfold mk_world in E. rewrite E. rewrite to_int_small by lia. reflexivity.
Qed.

(** ** What a read hands to the user *)

Lemma Zlen_slice_le l off n : 0 <= n -> Zlen (slice l off n) <= n.
Proof.
  intros H. unfold Zlen, slice. rewrite length_firstn. lia.
Qed.

Lemma slice_none l off : slice l off 0 = [].
Proof. unfold slice. change (Z.to_nat 0) with 0%nat. apply firstn_O. Qed.

Lemma copy_to_user_fits to off n :
  copy_to_user to off n = true -> n = 0 \/ off + n <= u_wsize to.
Proof.
  unfold copy_to_user. intros H. apply orb_true_iff in H.
  destruct H as [H | H]; [left; apply Z.eqb_eq, H | right; apply Z.leb_le, H].
Qed.

(** Decides the comparisons that clamp a length, then the arithmetic. *)
Ltac clamps :=
  rewrite ?Z.gtb_ltb in *;
  repeat match goal with
         | |- context [if ?b then _ else _] => destruct b eqn:?
         | H : context [if ?b then _ else _] |- _ => destruct b eqn:?
         end;
  repeat match goal with
         | H : (_ <? _) = true |- _ => apply Z.ltb_lt in H
         | H : (_ <? _) = false |- _ => apply Z.ltb_ge in H
         end;
  lia.

(** The bytes a run of the read loop adds: no more than were still asked
    for, and all of them inside the user's buffer. *)
Lemma read_loop_bound fuel : forall buf this_part remaining done out w rv out' w',
  read_loop fuel buf this_part remaining done out w = Ret (rv, out') w' ->
  0 <= remaining ->
  exists more, out' = out ++ more /\ Zlen more <= remaining
    /\ (more <> [] -> done + Zlen more <= u_wsize buf).
Proof.
  induction fuel as [|fuel IH]; intros buf this_part remaining done out w rv out' w';
    cbn [read_loop]; destruct (remaining >? 0) eqn:E; cbn [negb];
    try discriminate;
    try (unfold mret, prog_ret; intros [= <- <- <-] Hr; exists [];
         rewrite app_nil_r; repeat split; [exact Hr | congruence]).
  apply Z.gtb_lt in E. mstep.
  destruct (script (usb w)) as [|r1 rest]; [discriminate |].
  set (w2 := set_data _ _). clearbody w2.
  set (received := firstn (Z.to_nat (io_buffer_size w)) (r_data r1)).
  assert (Hexit : forall x,
            match auto_abort_bulk_in w2 with
            | Ret _ s' => Ret (x, out) s' | Blocked s' => Blocked s' | Spin s' => Spin s'
            end = Ret (rv, out') w' ->
            0 <= remaining ->
            exists more, out' = out ++ more /\ Zlen more <= remaining
              /\ (more <> [] -> done + Zlen more <= u_wsize buf)).
  { intros x. destruct (auto_abort_bulk_in w2); try discriminate.
    intros [= <- <- <-] Hr. exists []. rewrite app_nil_r.
    repeat split; [exact Hr | congruence]. }
  assert (Hfault : forall x : Z,
            Ret (x, out) w2 = Ret (rv, out') w' -> 0 <= remaining ->
            exists more, out' = out ++ more /\ Zlen more <= remaining
              /\ (more <> [] -> done + Zlen more <= u_wsize buf)).
  { intros x [= <- <- <-] Hr. exists []. rewrite app_nil_r.
    repeat split; [exact Hr | congruence]. }
  assert (Hrec : forall rem' actual off,
            0 <= actual -> 0 <= rem' -> actual + rem' <= remaining ->
            copy_to_user buf done actual = true ->
            read_loop fuel buf this_part rem' (done + actual)
                      (out ++ slice received off actual) w2 = Ret (rv, out') w' ->
            0 <= remaining ->
            exists more, out' = out ++ more /\ Zlen more <= remaining
              /\ (more <> [] -> done + Zlen more <= u_wsize buf)).
  { intros rem' actual off Ha Hr' Hsum Hcopy Hrun _.
    destruct (IH _ _ _ _ _ _ _ _ _ Hrun Hr') as (more & -> & Hm & Hu).
    pose proof (Zlen_slice_le received off actual Ha) as Hs.
    exists (slice received off actual ++ more).
    split; [symmetry; apply app_assoc |]. rewrite Zlen_app.
    split; [lia |]. intros Hne.
    destruct more as [|b more].
    - rewrite app_nil_r in Hne. change (Zlen []) with 0.
      destruct (copy_to_user_fits _ _ _ Hcopy) as [-> | Hfit]; [| lia].
      rewrite slice_none in Hne. congruence.
    - assert (Hu' := Hu ltac:(discriminate)). lia. }
  destruct (r_rv r1 <? 0); [apply Hexit |].
  destruct (done =? 0).
  - destruct (Zlen received <? USBTMC_HEADER_SIZE) eqn:E1; [apply Hexit |].
    apply Z.ltb_ge in E1.
    destruct (negb (byte_at received 0 =? 2)); [apply Hexit |].
    destruct (negb (byte_at received 1 =? _)); [apply Hexit |].
    destruct (header_n_characters received >? this_part); [apply Hexit |].
    assert (Hn : 0 <= header_n_characters received).
    { unfold header_n_characters, u32. apply Z.mod_pos_bound. lia. }
    match goal with |- context [copy_to_user buf done ?a] =>
      destruct (copy_to_user buf done a) eqn:Ecopy; [| apply Hfault] end.
    apply Hrec; [| | | exact Ecopy].
    all: clear Hexit Hfault Hrec IH; unfold USBTMC_HEADER_SIZE in *; clamps.
  - match goal with |- context [copy_to_user buf done ?a] =>
      destruct (copy_to_user buf done a) eqn:Ecopy; [| apply Hfault] end.
    pose proof (Zlen_nonneg received).
    apply Hrec; [| | | exact Ecopy].
    all: clear Hexit Hfault Hrec IH; unfold USBTMC_HEADER_SIZE in *; clamps.
Qed.

(** A message that arrives whole in the first transfer. *)
Lemma read_whole_message iosz d fs r0 r1 rest tr h fd buf count
    b2 b3 n attr b9 b10 b11 payload :
  fs !! h = Some fd -> zombie d = false ->
  0 <= r_rv r0 -> 0 <= r_rv r1 ->
  r_data r1 = [2; bTag d; b2; b3] ++ le32_bytes n ++ [attr; b9; b10; b11] ++ payload ->
  Zlen (r_data r1) <= iosz ->
  0 <= n <= count -> 0 < count < 2 ^ 31 -> n <= Zlen payload ->
  copy_to_user buf 0 n = true ->
  exists d',
    usbtmc_read h buf count (mk_world iosz d fs (r0 :: r1 :: rest) tr)
    = Ret (n, firstn (Z.to_nat n) payload)
          (mk_world iosz d' fs rest
             (tr ++ [EvBulkOut (bulk_out d) (request_dev_dep_msg_in fd d count)
                               USBTMC_HEADER_SIZE;
                     EvBulkIn (bulk_in d) iosz]))
    /\ bTag d' = next_bTag (bTag d) /\ bTag_last_write d' = bTag d.
Proof.
  intros Hh Hz H0 H1 Hdata Hfit Hn Hc Hp Hcopy.
  eexists. split.
  - rewrite (usbtmc_read_request _ _ _ _ _ _ _ _ _ _ Hh Hz).
    cbv zeta. apply Z.ltb_ge in H0. rewrite H0.
    unfold with_fuelM. cbn [usb script mk_world length].
    rewrite read_loop_first by lia.
    cbv zeta. apply Z.ltb_ge in H1. rewrite H1.
    assert (Hrec : firstn (Z.to_nat iosz) (r_data r1) = r_data r1).
    { apply firstn_all2. unfold Zlen in Hfit. lia. }
    rewrite Hrec.
    assert (Hlen : Zlen (r_data r1) = USBTMC_HEADER_SIZE + Zlen payload).
    { rewrite Hdata. unfold Zlen, USBTMC_HEADER_SIZE. cbn. lia. }
    assert (Hnc : header_n_characters (r_data r1) = n).
    { rewrite Hdata, header_n_characters_le32. apply u32_small. lia. }
    assert (Hok : header_ok (Zlen (r_data r1)) (r_data r1)
                    (bTag_last_write (bump_bTag (set_bTag_last_write (bTag d) d)))
                    count = true).
    { unfold header_ok. rewrite Hnc, Hlen.
      pose proof (Zlen_nonneg payload).
      replace (USBTMC_HEADER_SIZE + Zlen payload <? USBTMC_HEADER_SIZE) with false
        by (symmetry; apply Z.ltb_ge; lia).
      replace (n >? count) with false
        by (symmetry; rewrite Z.gtb_ltb; apply Z.ltb_ge; lia).
      rewrite Hdata. unfold byte_at, le32_bytes. offsets.
      cbn [negb andb bTag_last_write bump_bTag set_bTag set_bTag_last_write].
      rewrite !Z.eqb_refl. reflexivity. }
    rewrite Hok, Hnc, Hlen.
    replace (USBTMC_HEADER_SIZE + Zlen payload - USBTMC_HEADER_SIZE)
      with (Zlen payload) by lia.
    assert (Hrem : (if count >? n then n else count) = n).
    { destruct (count >? n) eqn:E; [reflexivity |].
      rewrite Z.gtb_ltb in E. apply Z.ltb_ge in E. lia. }
    rewrite Hrem.
    assert (Hact : (if Zlen payload >? n then n else Zlen payload) = n).
    { destruct (Zlen payload >? n) eqn:E; [reflexivity |].
      rewrite Z.gtb_ltb in E. apply Z.ltb_ge in E. lia. }
    rewrite Hact, Z.sub_diag.
    replace (if negb (Z.land (byte_at (r_data r1) 8) 1 =? 0) && (n >=? n)
             then 0 else 0) with 0 by (destruct (_ && _); reflexivity).
    rewrite Hcopy.
    assert (Hend : forall f out w,
              read_loop f buf count 0 (0 + n) out w = Ret (to_int (0 + n), out) w).
    { intros f out w. destruct f; reflexivity. }
    rewrite Hend. rewrite Z.add_0_l, to_int_small by lia.
    cbn [app]. rewrite Hdata. unfold slice, USBTMC_HEADER_SIZE.
    change (Z.to_nat 12) with 12%nat. unfold le32_bytes. cbn [app skipn].
    rewrite <- app_assoc. reflexivity.
  - split; reflexivity.
Qed.

(** ** The abort and clear handshakes *)

(** Runs the straight-line part of a handshake, leaving its loops folded. *)
Ltac hstep :=
  repeat (progress (
    unfold mbind, prog_bind, mret, prog_ret, usb_control_msg, usb_bulk_msg_rcv,
      usb_clear_halt, transfer, spin;
    cbn -[with_fuel drain_bulk_in abort_bulk_in_status clear_check_status
          abort_bulk_out_check_status bulk_in_max_size firstn Z.to_nat Zlen
          byte_at])).

Lemma count_events_app p evs1 evs2 :
  count_events p (evs1 ++ evs2) = (count_events p evs1 + count_events p evs2)%nat.
Proof. unfold count_events. rewrite List.filter_app, length_app. reflexivity. Qed.

(** The status loop of ABORT_BULK_OUT from its [n]-th round on: what it adds
    to the trace. *)
Lemma abort_bulk_out_check_status_calls fuel : forall d n t, 0 <= n ->
  exists evs,
    trace (final (abort_bulk_out_check_status fuel d n t)) = trace t ++ evs
    /\ Z.of_nat (count_events is_check_abort_bulk_out evs)
       <= Z.max 1 (USBTMC_MAX_READS_TO_CLEAR_BULK_IN - n)
    /\ forall t', abort_bulk_out_check_status fuel d n t = Ret 0 t' ->
         exists evs0, evs = evs0 ++ [check_abort_bulk_out_status d;
                                     EvClearHalt false (bulk_out d)].
Proof.
  unfold USBTMC_MAX_READS_TO_CLEAR_BULK_IN.
  induction fuel as [|fuel IH]; intros d n t Hn; cbn [abort_bulk_out_check_status].
  - exists []. rewrite app_nil_r. repeat split; [cbn; lia | discriminate].
  - mstep. destruct (script t) as [|r rest]; cbn.
    { eexists. split; [reflexivity |]. split; [cbn; lia | discriminate]. }
    destruct (r_rv r <? 0) eqn:Erv; cbn.
    { eexists. split; [reflexivity |]. split; [cbn; lia |].
      intros t' [= H _]. rewrite H in Erv. discriminate. }
    destruct (byte_at (r_data r) 0 =? USBTMC_STATUS_SUCCESS); cbn.
    { destruct rest as [|r2 rest]; cbn.
      { eexists. split; [rewrite <- app_assoc; reflexivity |].
        split; [cbn; lia | discriminate]. }
      destruct (r_rv r2 <? 0) eqn:Erv2; cbn.
      - eexists. split; [rewrite <- app_assoc; reflexivity |].
        split; [cbn; lia |]. intros t' [= H _]. rewrite H in Erv2. discriminate.
      - eexists. split; [rewrite <- app_assoc; reflexivity |].
        split; [cbn; lia |]. intros t' _. exists []. reflexivity. }
    destruct ((byte_at (r_data r) 0 =? USBTMC_STATUS_PENDING) && _) eqn:Ep;
      cbn.
    + apply andb_true_iff in Ep. destruct Ep as [_ Ep]. apply Z.ltb_lt in Ep.
      unfold USBTMC_MAX_READS_TO_CLEAR_BULK_IN in Ep.
      match goal with |- context [abort_bulk_out_check_status fuel d (n + 1) ?t1] =>
        destruct (IH d (n + 1) t1 ltac:(lia)) as (evs & E & Hc & Hok) end.
      cbn in E. exists (check_abort_bulk_out_status d :: evs).
      split; [rewrite E, <- app_assoc; reflexivity |]. split.
      * change (check_abort_bulk_out_status d :: evs)
          with ([check_abort_bulk_out_status d] ++ evs).
        rewrite count_events_app.
        change (count_events is_check_abort_bulk_out [check_abort_bulk_out_status d])
          with 1%nat.
        lia.
      * intros t' Ht. destruct (Hok t' Ht) as [evs0 ->].
        exists (check_abort_bulk_out_status d :: evs0). reflexivity.
    + eexists. split; [reflexivity |]. split; [cbn; lia | discriminate].
Qed.

(** The status loop of ABORT_BULK_IN has no round limit: it asks again for
    every "pending" it is answered. *)
Lemma abort_bulk_in_status_polls ps : forall fuel iosz d max_size n actual ok rest tr,
  Forall pending_no_data ps -> answers_status USBTMC_STATUS_SUCCESS ok ->
  actual <> max_size -> (length ps < fuel)%nat ->
  abort_bulk_in_status fuel iosz d max_size n actual
    {| script := ps ++ ok :: rest; trace := tr |}
  = Ret 0 {| script := rest;
             trace := tr ++ repeat (check_abort_bulk_in_status d) (S (length ps)) |}.
Proof.
  induction ps as [|p ps IH]; intros fuel iosz d max_size n actual ok rest tr Hps Hok Ha Hf;
    (destruct fuel as [|fuel]; [cbn in Hf; lia |]); cbn [abort_bulk_in_status app].
  - destruct Hok as [Hrv Hst]. mstep. apply Z.ltb_ge in Hrv. rewrite Hrv, Hst.
    reflexivity.
  - apply Forall_cons in Hps. destruct Hps as [[[Hrv Hst] Hnd] Hps]. mstep.
    apply Z.ltb_ge in Hrv. rewrite Hrv, Hst. cbn.
    apply Z.eqb_neq in Hnd. rewrite Hnd. cbn.
    apply Z.eqb_neq in Ha. rewrite Ha.
    rewrite IH; try assumption; [| apply Z.eqb_neq, Ha | cbn in Hf; lia].
    cbn [length repeat]. rewrite <- app_assoc. reflexivity.
Qed.

(** A device that keeps sending full packets: the drain loop stops at its
    100th read. *)
Lemma drain_bulk_in_full rs : forall fuel iosz d max_size n rest tr,
  Forall (fills iosz max_size) rs -> rs <> [] ->
  n + Zlen rs = USBTMC_MAX_READS_TO_CLEAR_BULK_IN -> (length rs < fuel)%nat ->
  drain_bulk_in fuel iosz d max_size n {| script := rs ++ rest; trace := tr |}
  = Ret (inr (max_size, USBTMC_MAX_READS_TO_CLEAR_BULK_IN))
        {| script := rest;
           trace := tr ++ repeat (EvBulkIn (bulk_in d) iosz) (length rs) |}.
Proof.
  unfold USBTMC_MAX_READS_TO_CLEAR_BULK_IN.
  induction rs as [|r rs IH]; intros fuel iosz d max_size n rest tr Hrs Hne Hn Hf;
    [congruence |].
  destruct fuel as [|fuel]; [cbn in Hf; lia |].
  apply Forall_cons in Hrs. destruct Hrs as [[Hrv Hsz] Hrs].
  cbn [drain_bulk_in app]. hstep.
  apply Z.ltb_ge in Hrv. rewrite Hrv, Hsz, Z.eqb_refl. cbn [andb].
  unfold Zlen in Hn. cbn [length] in Hn.
  destruct rs as [|r' rs].
  - assert (E : (n + 1 <? USBTMC_MAX_READS_TO_CLEAR_BULK_IN) = false)
      by (apply Z.ltb_ge; unfold USBTMC_MAX_READS_TO_CLEAR_BULK_IN; cbn in Hn; lia).
    rewrite E. replace (n + 1) with 100 by (cbn in Hn; lia). reflexivity.
  - assert (E : (n + 1 <? USBTMC_MAX_READS_TO_CLEAR_BULK_IN) = true)
      by (apply Z.ltb_lt; unfold USBTMC_MAX_READS_TO_CLEAR_BULK_IN; cbn in Hn; lia).
    rewrite E. rewrite IH; try assumption; try discriminate.
    + cbn [length repeat]. rewrite <- app_assoc. reflexivity.
    + unfold Zlen. lia.
    + cbn in Hf |- *. lia.
Qed.

(** The drain loop only adds to the trace, and jumps to [exit] with a
    negative value only. *)
Lemma drain_bulk_in_trace fuel iosz d max_size n t r t' :
  drain_bulk_in fuel iosz d max_size n t = Ret r t' ->
  exists evs, trace t' = trace t ++ evs.
Proof.
  intros H. destruct (quiet_drain_bulk_in fuel iosz d max_size n t) as (evs & E & _).
  rewrite H in E. eauto.
Qed.

Lemma drain_bulk_in_exit fuel : forall iosz d max_size n t rv t',
  drain_bulk_in fuel iosz d max_size n t = Ret (inl rv) t' -> rv < 0.
Proof.
  induction fuel as [|fuel IH]; intros iosz d max_size n t rv t';
    cbn [drain_bulk_in]; [discriminate |].
  hstep. destruct (script t) as [|r rest]; [discriminate |].
  destruct (r_rv r <? 0) eqn:Erv.
  - intros [= <- _]. apply Z.ltb_lt, Erv.
  - destruct (_ && _); [apply IH | discriminate].
Qed.

Lemma clear_check_status_success fuel : forall iosz d max_size n actual t t',
  clear_check_status fuel iosz d max_size n actual t = Ret 0 t' ->
  exists evs, trace t' = trace t ++ evs
                ++ [check_clear_status; EvClearHalt false (bulk_out d)].
Proof.
  induction fuel as [|fuel IH]; intros iosz d max_size n actual t t';
    cbn [clear_check_status]; [discriminate |].
  hstep. destruct (script t) as [|r rest]; [discriminate |].
  destruct (r_rv r <? 0) eqn:Erv.
  { intros [= H _]. rewrite H in Erv. discriminate. }
  destruct (byte_at (r_data r) 0 =? USBTMC_STATUS_SUCCESS).
  { hstep. destruct rest as [|r2 rest]; [discriminate |].
    destruct (r_rv r2 <? 0) eqn:Erv2.
    - intros [= H _]. rewrite H in Erv2. discriminate.
    - intros [= <-]. exists []. cbn. rewrite <- app_assoc. reflexivity. }
  destruct (negb (byte_at (r_data r) 0 =? USBTMC_STATUS_PENDING)); [discriminate |].
  set (t1 := {| script := rest; trace := _ |}).
  assert (Hnext : forall actual' n' t2 evs,
            trace t2 = trace t1 ++ evs ->
            (if actual' =? max_size then mret (- EPERM)
             else clear_check_status fuel iosz d max_size n' actual') t2 = Ret 0 t' ->
            exists evs, trace t' = trace t ++ evs
                          ++ [check_clear_status; EvClearHalt false (bulk_out d)]).
  { intros actual' n' t2 evs E2. destruct (actual' =? max_size); [discriminate |].
    intros H. apply IH in H. destruct H as (evs3 & E3).
    exists ([check_clear_status] ++ evs ++ evs3).
    rewrite E3, E2. subst t1. cbn [trace]. rewrite <- !app_assoc. reflexivity. }
  destruct (byte_at (r_data r) 1 =? 1).
  - unfold with_fuel.
    destruct (drain_bulk_in _ iosz d max_size n t1) as [[rv|[actual' n']] t2|t2|t2] eqn:Ed;
      try discriminate.
    + cbn. pose proof Ed as Ed'.
      intros [= H _]. subst rv. apply drain_bulk_in_exit in Ed'. lia.
    + apply drain_bulk_in_trace in Ed. destruct Ed as [evs Ed].
      apply (Hnext actual' n' t2 evs Ed).
  - apply (Hnext actual n t1 []). rewrite app_nil_r. reflexivity.
Qed.

(** ** What no operation changes *)

Lemma settled_refl w : settled w w.
Proof. split; auto. Qed.

Lemma settled_trans w1 w2 w3 : settled w1 w2 -> settled w2 w3 -> settled w1 w3.
Proof. intros [D1 T1] [D2 T2]. split; [congruence | auto]. Qed.

Lemma stays_ret {A} (a : A) : stays (mret a).
Proof. intros w. apply settled_refl. Qed.

Lemma stays_spin {A} : stays (@spin _ A).
Proof. intros w. apply settled_refl. Qed.

Lemma stays_bind {A B} (m : M A) (k : A -> M B) :
  stays m -> (forall a, stays (k a)) -> stays (m ≫= k).
Proof.
  intros Hm Hk w. rewrite final_bind. specialize (Hm w).
  destruct (m w) as [a w'|w'|w']; cbn in Hm |- *; auto.
  eapply settled_trans; [exact Hm | apply Hk].
Qed.

Lemma stays_lift {A} (m : io A) : stays (lift m).
Proof. intros w. rewrite final_lift. split; auto. Qed.

Lemma stays_get_data : stays get_data.
Proof. intros w. apply settled_refl. Qed.
Lemma stays_get_files : stays get_files.
Proof. intros w. apply settled_refl. Qed.
Lemma stays_get_io_buffer_size : stays get_io_buffer_size.
Proof. intros w. apply settled_refl. Qed.
Lemma stays_modify_files f : stays (modify_files f).
Proof. intros w. split; auto. Qed.

Lemma stays_modify_data f :
  (forall d, description (f d) = description d /\ timeout (f d) = timeout d) ->
  stays (modify_data f).
Proof.
  intros H w. destruct (H (data w)) as [HD HT]. split; cbn; [exact HD |].
  rewrite HT. auto.
Qed.

Lemma stays_with_fuelM {A} (loop : nat -> M A) :
  (forall fuel, stays (loop fuel)) -> stays (with_fuelM loop).
Proof. intros H w. apply H. Qed.

Create HintDb stays.
#[local] Hint Resolve stays_ret stays_spin stays_lift stays_get_data
  stays_get_files stays_get_io_buffer_size stays_modify_files : stays.

Ltac stays_step :=
  match goal with
  | |- stays (_ ≫= _) => apply stays_bind; [| intros]
  | |- stays (with_fuelM _) => apply stays_with_fuelM; intros
  | |- stays (if ?b then _ else _) => destruct b
  | |- stays (match ?x with Some _ => _ | None => _ end) => destruct x
  | |- stays (let '(_, _) := ?x in _) => destruct x
  | |- stays (modify_data _) =>
      apply stays_modify_data; intros; split; reflexivity
  | |- stays _ => solve [auto with stays]
  end.
Ltac stays_auto := repeat stays_step.

Lemma stays_usbtmc_interrupt u : stays (usbtmc_interrupt u).
Proof. unfold usbtmc_interrupt. stays_auto. Qed.

Lemma stays_deliver_urbs us : stays (deliver_urbs us).
Proof.
  induction us as [|u us IH]; cbn [deliver_urbs].
  - apply stays_ret.
  - apply stays_bind; [apply stays_usbtmc_interrupt | intros; exact IH].
Qed.
#[local] Hint Resolve stays_usbtmc_interrupt stays_deliver_urbs : stays.

Lemma stays_wait tmo : stays (wait_event_interruptible_timeout tmo).
Proof. unfold wait_event_interruptible_timeout. stays_auto. Qed.
#[local] Hint Resolve stays_wait : stays.

Lemma stays_read_stb h arg : stays (usbtmc488_ioctl_read_stb h arg).
Proof. unfold usbtmc488_ioctl_read_stb. stays_auto. Qed.

Lemma stays_store_and_bump_bTag : stays store_and_bump_bTag.
Proof. unfold store_and_bump_bTag. stays_auto. Qed.
#[local] Hint Resolve stays_store_and_bump_bTag stays_read_stb : stays.

Lemma stays_trigger : stays usbtmc488_ioctl_trigger.
Proof. unfold usbtmc488_ioctl_trigger. stays_auto. Qed.

Lemma stays_send_request fd n : stays (send_request_dev_dep_msg_in fd n).
Proof. unfold send_request_dev_dep_msg_in. stays_auto. Qed.

Lemma stays_auto_abort_bulk_in : stays auto_abort_bulk_in.
Proof. unfold auto_abort_bulk_in. stays_auto. Qed.

Lemma stays_auto_abort_bulk_out : stays auto_abort_bulk_out.
Proof. unfold auto_abort_bulk_out. stays_auto. Qed.
#[local] Hint Resolve stays_trigger stays_send_request stays_auto_abort_bulk_in
  stays_auto_abort_bulk_out : stays.

Lemma stays_read_loop fuel buf this_part remaining done out :
  stays (read_loop fuel buf this_part remaining done out).
Proof.
  revert remaining done out.
  induction fuel as [|fuel IH]; intros remaining done out; cbn [read_loop];
    stays_auto.
Qed.

Lemma stays_write_loop fuel buf count remaining done :
  stays (write_loop fuel buf count remaining done).
Proof.
  revert remaining done.
  induction fuel as [|fuel IH]; intros remaining done; cbn [write_loop];
    stays_auto.
Qed.
#[local] Hint Resolve stays_read_loop stays_write_loop : stays.

Lemma stays_usbtmc_read h buf count : stays (usbtmc_read h buf count).
Proof. unfold usbtmc_read. stays_auto. Qed.

Lemma stays_usbtmc_write h buf count : stays (usbtmc_write h buf count).
Proof. unfold usbtmc_write. stays_auto. Qed.

(** SET_TIMEOUT stores no value below the minimum. *)
Lemma stays_set_timeout arg : stays (usbtmc_ioctl_set_timeout arg).
Proof.
  unfold usbtmc_ioctl_set_timeout.
  destruct (copy_from_user arg 0 4) as [bytes|]; [| apply stays_ret].
  destruct (le32_value bytes <? USBTMC_MIN_TIMEOUT) eqn:E; [apply stays_ret |].
  apply Z.ltb_ge in E. apply stays_bind; [| intros; apply stays_ret].
  intros w. split; cbn; [reflexivity | intros _; exact E].
Qed.
#[local] Hint Resolve stays_set_timeout : stays.

Lemma stays_usbtmc_ioctl h cmd arg : stays (usbtmc_ioctl h cmd arg).
Proof.
  unfold usbtmc_ioctl, no_output, usbtmc_ioctl_get_timeout,
    usbtmc_ioctl_eom_enable, usbtmc_ioctl_config_termc.
  stays_auto. destruct cmd; stays_auto.
Qed.

Lemma stays_usbtmc_free_int : stays usbtmc_free_int.
Proof. unfold usbtmc_free_int. stays_auto. Qed.
#[local] Hint Resolve stays_usbtmc_free_int : stays.

Lemma stays_run_op o : stays (run_op o).
Proof.
  destruct o; cbn [run_op]; unfold forget, usbtmc_open, usbtmc_release,
    usbtmc_poll, TermChar_store, TermCharEnabled_store, auto_abort_store,
    usbtmc_disconnect; stays_auto;
    first [ apply stays_usbtmc_read | apply stays_usbtmc_write
          | apply stays_usbtmc_ioctl ].
Qed.

Lemma settled_exec o answers w : settled w (exec o answers w).
Proof. unfold exec. apply (stays_run_op o (feed answers w)). Qed.

Lemma settled_run_ops ops w : settled w (run_ops ops w).
Proof.
  revert w. induction ops as [|[o answers] ops IH]; intros w; cbn [run_ops].
  - apply settled_refl.
  - eapply settled_trans; [apply settled_exec | apply IH].
Qed.

(** Probe clamps the two module parameters before it uses them. *)
Lemma probe_parameters iosz tmo interface submitted registered answers :
  let w := final (usbtmc_probe iosz tmo interface submitted registered answers) in
  (512 <= io_buffer_size w /\ io_buffer_size w mod 4 = 0
   /\ (512 <= iosz -> iosz - 3 <= io_buffer_size w <= iosz))
  /\ USBTMC_MIN_TIMEOUT <= timeout (data w)
  /\ (USBTMC_MIN_TIMEOUT <= tmo -> timeout (data w) = tmo).
Proof.
  cbv zeta. unfold usbtmc_probe.
  set (size := if iosz <? 512 then 512 else iosz).
  set (t0 := if tmo <? USBTMC_MIN_TIMEOUT then USBTMC_MIN_TIMEOUT else tmo).
  assert (Hsize : 512 <= size - size mod 4 /\ (size - size mod 4) mod 4 = 0
                  /\ (512 <= iosz -> iosz - 3 <= size - size mod 4 <= iosz)).
  { subst size. destruct (iosz <? 512) eqn:E;
      [apply Z.ltb_lt in E | apply Z.ltb_ge in E];
      repeat split; intros; Z.div_mod_to_equations; lia. }
  assert (Ht : USBTMC_MIN_TIMEOUT <= t0 /\ (USBTMC_MIN_TIMEOUT <= tmo -> t0 = tmo)).
  { subst t0. destruct (tmo <? USBTMC_MIN_TIMEOUT) eqn:E;
      [apply Z.ltb_lt in E | apply Z.ltb_ge in E]; split; intros; lia. }
  assert (Hd : timeout (probe_data t0 interface) = t0) by reflexivity.
  revert Hd. generalize (probe_data t0 interface). intros d0 Hd.
  clearbody size t0.
  match goal with |- context [final (?m ?w0)] =>
    assert (H : io_buffer_size (final (m w0)) = size - size mod 4
                /\ timeout (data (final (m w0))) = t0) end.
  { unfold get_capabilities, usbtmc_free_int. mrun.
    destruct answers as [|r rest]; cbn; [split; [reflexivity | exact Hd] |].
    repeat match goal with
           | |- context [if ?b then _ else _] => destruct b; cbn
           end;
      (split; [reflexivity | exact Hd]). }
  destruct H as [-> ->]. tauto.
Qed.

(** ** Settings through ioctl *)

(** The dispatcher on an open handle of a live device. *)
Lemma ioctl_live w h cmd arg fd :
  files w !! h = Some fd -> zombie (data w) = false ->
  usbtmc_ioctl h cmd arg w =
  match cmd with
  | USBTMC_IOCTL_GET_TIMEOUT => usbtmc_ioctl_get_timeout (arg_ptr arg) w
  | USBTMC_IOCTL_SET_TIMEOUT => no_output (usbtmc_ioctl_set_timeout (arg_ptr arg)) w
  | USBTMC_IOCTL_EOM_ENABLE => no_output (usbtmc_ioctl_eom_enable (arg_ptr arg)) w
  | USBTMC_IOCTL_CONFIG_TERMCHAR =>
      no_output (usbtmc_ioctl_config_termc (arg_ptr arg)) w
  | USBTMC_IOCTL_CTRL_REQUEST => lift (usbtmc_ioctl_request (data w) arg) w
  | USBTMC488_IOCTL_TRIGGER => no_output usbtmc488_ioctl_trigger w
  | _ => usbtmc_ioctl h cmd arg w
  end.
Proof.
  intros Hh Hz. destruct cmd; try reflexivity;
    unfold usbtmc_ioctl; unfold mbind at 1 2 3, prog_bind, get_files, get_data,
      get_io_buffer_size; rewrite Hh, Hz; reflexivity.
Qed.

Lemma config_termchar_accepted w h fd p tc en :
  files w !! h = Some fd -> zombie (data w) = false ->
  copy_from_user p 0 2 = Some [tc; en] ->
  en = 0 \/ en = 1 /\ Z.land (device_capabilities (capabilities (data w))) 1 <> 0 ->
  let d1 := set_TermCharEnabled (negb (en =? 0)) (set_TermChar tc (data w)) in
  let w1 := set_data d1 w in
  usbtmc_ioctl h USBTMC_IOCTL_CONFIG_TERMCHAR (user_arg p) w = Ret (0, []) w1
  /\ files w1 !! h = Some fd
  /\ exists h' w2,
       usbtmc_open w1 = Ret (0, h') w2
       /\ files w2 !! h = Some fd
       /\ files w2 !! h' =
          Some {| srq_byte := 0; srq_asserted := 0; f_TermChar := tc;
                  f_TermCharEnabled := negb (en =? 0);
                  f_auto_abort := auto_abort (data w) |}.
Proof.
  intros Hh Hz Hp Hen d1 w1. split; [| split].
  - rewrite (ioctl_live _ _ _ _ _ Hh Hz).
    unfold no_output, usbtmc_ioctl_config_termc. cbn [arg_ptr user_arg].
    rewrite Hp. unfold mbind, prog_bind, get_data.
    change (byte_at [tc; en] 0) with tc. change (byte_at [tc; en] 1) with en.
    destruct Hen as [-> | [-> Hcap]]; cbn -[Z.land].
    + reflexivity.
    + apply Z.eqb_neq in Hcap. rewrite Hcap. reflexivity.
  - exact Hh.
  - subst w1 d1. unfold usbtmc_open. mrun. rewrite Hz. cbn.
    set (h' := fresh (dom (files w))).
    assert (Hfresh : files w !! h' = None).
    { apply not_elem_of_dom. apply is_fresh. }
    exists h'. eexists. split; [reflexivity |]. cbn. split.
    + rewrite lookup_insert_ne; [exact Hh |]. intros ->. congruence.
    + rewrite lookup_insert_eq. reflexivity.
Qed.

Lemma config_termchar_rejected w h fd p tc en :
  files w !! h = Some fd -> zombie (data w) = false ->
  copy_from_user p 0 2 = Some [tc; en] ->
  1 < en \/ en <> 0 /\ Z.land (device_capabilities (capabilities (data w))) 1 = 0 ->
  usbtmc_ioctl h USBTMC_IOCTL_CONFIG_TERMCHAR (user_arg p) w = Ret (- EINVAL, []) w.
Proof.
  intros Hh Hz Hp Hen. rewrite (ioctl_live _ _ _ _ _ Hh Hz).
  unfold no_output, usbtmc_ioctl_config_termc. cbn [arg_ptr user_arg].
  rewrite Hp. unfold mbind, prog_bind, get_data.
  change (byte_at [tc; en] 0) with tc. change (byte_at [tc; en] 1) with en.
  destruct Hen as [Hen | [Hen Hcap]].
  - assert (E : (en >? 1) = true) by (apply Z.gtb_lt; lia). rewrite E. reflexivity.
  - rewrite Hcap. apply Z.eqb_neq in Hen. rewrite Hen. cbn.
    rewrite orb_true_r. reflexivity.
Qed.

(** ** Service requests, poll and the status byte *)

Lemma usbtmc_poll_live w h fd :
  files w !! h = Some fd -> zombie (data w) = false ->
  usbtmc_poll h w = Ret (if srq_asserted fd =? 0 then 0 else POLLPRI) w.
Proof.
  intros Hh Hz. unfold usbtmc_poll. mrun. rewrite Hh, Hz.
  destruct (srq_asserted fd =? 0); reflexivity.
Qed.

(** *** READ_STB through the interrupt endpoint *)

Lemma deliver_urbs_app us vs w :
  deliver_urbs (us ++ vs) w = (deliver_urbs us;; deliver_urbs vs) w.
Proof.
  revert w. induction us as [|u us IH]; intros w; cbn [app deliver_urbs].
  - reflexivity.
  - unfold mbind, prog_bind in *. destruct (usbtmc_interrupt u w); auto.
Qed.

(** Notifications leave the device record alone but for the notification
    bytes and the flag that wakes READ_STB. *)
Lemma usbtmc_interrupt_data u w :
  exists b w', usbtmc_interrupt u w = Ret b w' /\ usb w' = usb w
    /\ io_buffer_size w' = io_buffer_size w
    /\ iin_bTag (data w') = iin_bTag (data w)
    /\ (is_stb_notification u = true ->
        bNotify2 (data w') = urb_b1 u /\ iin_data_valid (data w') = 1)
    /\ (is_stb_notification u = false -> data w' = data w).
Proof.
  unfold usbtmc_interrupt, is_stb_notification.
  destruct (urb_status u =? 0); [destruct (urb_b0 u >? 129);
    [| destruct (urb_b0 u =? 129)] | destruct (urb_terminated (urb_status u))];
    mrun; eexists; eexists; (split; [reflexivity |]); cbn;
    repeat split; intros; (reflexivity || discriminate).
Qed.

Lemma deliver_urbs_quiet us w :
  forallb (fun u => negb (is_stb_notification u)) us = true ->
  exists w', deliver_urbs us w = Ret tt w' /\ usb w' = usb w
    /\ data w' = data w.
Proof.
  revert w. induction us as [|u us IH]; intros w Hq; cbn [deliver_urbs].
  - exists w. auto.
  - cbn in Hq. apply andb_true_iff in Hq. destruct Hq as [Hu Hq].
    apply negb_true_iff in Hu.
    destruct (usbtmc_interrupt_data u w) as (b & w1 & E1 & U1 & _ & _ & _ & D1).
    destruct (IH w1 Hq) as (w2 & E2 & U2 & D2).
    exists w2. unfold mbind, prog_bind. rewrite E1, E2.
    repeat split; [congruence | rewrite D2; auto].
Qed.

(** Among the completions of a wait either none is a status notification,
    or one of them is the last that is. *)
Lemma stb_notification_cases (l : list urb) :
  forallb (fun u => negb (is_stb_notification u)) l = true
  \/ exists us u vs,
       l = us ++ u :: vs /\ is_stb_notification u = true
       /\ forallb (fun v => negb (is_stb_notification v)) vs = true.
Proof.
  induction l as [|a l IH]; [left; reflexivity |].
  destruct IH as [Hq | (us & u & vs & -> & Hu & Hq)].
  - destruct (is_stb_notification a) eqn:Ha.
    + right. exists [], a, l. auto.
    + left. cbn. rewrite Ha, Hq. reflexivity.
  - right. exists (a :: us), u, vs. auto.
Qed.

(** The value of a wait that found its condition true, once stored in
    [int rv]. *)
Lemma to_int_jiffies tmo left :
  1 <= Z.max 1 (Z.min tmo left)
  /\ (Z.max 1 (Z.min tmo left) < 2 ^ 31 ->
      to_int (Z.max 1 (Z.min tmo left)) = Z.max 1 (Z.min tmo left))
  /\ (2 ^ 31 <= Z.max 1 (Z.min tmo left) < 2 ^ 32 ->
      to_int (Z.max 1 (Z.min tmo left)) = Z.max 1 (Z.min tmo left) - 2 ^ 32).
Proof.
  split; [lia |]. unfold to_int. split; intros H.
  - rewrite Z.mod_small by lia. lia.
  - replace (Z.max 1 (Z.min tmo left) + 2 ^ 31)
      with (Z.max 1 (Z.min tmo left) - 2 ^ 31 + 1 * 2 ^ 32) by lia.
    rewrite Z.mod_add by lia. rewrite Z.mod_small by lia. lia.
Qed.

Lemma read_stb_notified w h fd arg ctl wt us u vs rest :
  files w !! h = Some fd -> srq_asserted fd = 0 ->
  iin_ep_present (data w) = true ->
  script (usb w) = ctl :: wt :: rest ->
  answers_status USBTMC_STATUS_SUCCESS ctl ->
  r_urbs wt = us ++ u :: vs -> is_stb_notification u = true ->
  forallb (fun v => negb (is_stb_notification v)) vs = true ->
  exists w',
    usbtmc488_ioctl_read_stb h arg w
    = Ret (let rv := to_int (Z.max 1 (Z.min (timeout (data w)) (r_actual wt))) in
           if rv <? 0 then (rv, [])
           else if rv =? 0 then (- ETIMEDOUT, [])
           else put_stb (urb_b1 u) arg) w'
    /\ iin_bTag (data w') = next_iin_bTag (iin_bTag (data w))
    /\ script (usb w') = rest
    /\ trace (usb w') = trace (usb w)
         ++ [EvControl USBTMC488_REQUEST_READ_STATUS_BYTE CLASS_IN_INTERFACE
                       (iin_bTag (data w)) (ifnum (data w)) [] 3;
             EvWait (timeout (data w))].
Proof.
  intros Hh Hs Hiin Hscript [Hrv Hst] Hurbs Hu Hq.
  unfold usbtmc488_ioctl_read_stb, wait_event_interruptible_timeout.
  mrun. rewrite Hh, Hs. cbn. rewrite Hscript. cbn.
  apply Z.ltb_ge in Hrv. rewrite Hrv, Hst. cbn. rewrite Hiin. cbn.
  rewrite Hurbs, deliver_urbs_app. unfold mbind, prog_bind.
  match goal with |- context [deliver_urbs us ?w0] =>
    destruct (deliver_urbs_frame us w0) as (w1 & E1 & U1 & T1) end.
  rewrite E1. cbn [deliver_urbs]. unfold mbind, prog_bind.
  destruct (usbtmc_interrupt_data u w1) as (b & w2 & E2 & U2 & _ & T2 & N2 & _).
  destruct (N2 Hu) as [Hn Hv].
  rewrite E2.
  destruct (deliver_urbs_quiet vs w2 Hq) as (w3 & E3 & U3 & D3).
  rewrite E3. unfold mret, prog_ret. rewrite D3, Hv. cbn.
  destruct (to_int _ <? 0); [| destruct (to_int _ =? 0)];
    (eexists; split; [cbn; rewrite ?D3, ?Hn; reflexivity |]); cbn;
    rewrite ?D3, T2, T1, U3, U2, U1; cbn; rewrite <- app_assoc; repeat split.
Qed.

Lemma read_stb_times_out w h fd arg ctl wt rest :
  files w !! h = Some fd -> srq_asserted fd = 0 ->
  iin_ep_present (data w) = true ->
  script (usb w) = ctl :: wt :: rest ->
  answers_status USBTMC_STATUS_SUCCESS ctl ->
  forallb (fun u => negb (is_stb_notification u)) (r_urbs wt) = true ->
  exists w',
    usbtmc488_ioctl_read_stb h arg w
    = Ret (if r_rv wt <? 0 then - ERESTARTSYS else - ETIMEDOUT, []) w'
    /\ iin_bTag (data w') = next_iin_bTag (iin_bTag (data w)).
Proof.
  intros Hh Hs Hiin Hscript [Hrv Hst] Hq.
  unfold usbtmc488_ioctl_read_stb, wait_event_interruptible_timeout.
  mrun. rewrite Hh, Hs. cbn. rewrite Hscript. cbn.
  apply Z.ltb_ge in Hrv. rewrite Hrv, Hst. cbn. rewrite Hiin. cbn.
  match goal with |- context [deliver_urbs _ ?w0] =>
    destruct (deliver_urbs_quiet (r_urbs wt) w0 Hq) as (w1 & E1 & U1 & D1) end.
  rewrite E1. rewrite D1. cbn.
  destruct (r_rv wt <? 0); cbn; eexists; (split; [reflexivity |]); cbn;
    rewrite D1; reflexivity.
Qed.

(** ** Capabilities *)

Lemma coalesced_bits c :
  0 <= coalesced c <= 247
  /\ Z.land (coalesced c) 7 = Z.land (usb488_interface_capabilities c) 7
  /\ Z.shiftr (coalesced c) 4 = Z.land (usb488_device_capabilities c) 15
  /\ Z.testbit (coalesced c) 3 = false.
Proof.
  unfold coalesced.
  change 7 with (Z.ones 3). change 15 with (Z.ones 4).
  rewrite !Z.land_ones by lia.
  pose proof (Z.mod_pos_bound (usb488_interface_capabilities c) (2 ^ 3) ltac:(lia)) as Hx.
  pose proof (Z.mod_pos_bound (usb488_device_capabilities c) (2 ^ 4) ltac:(lia)) as Hy.
  revert Hx Hy.
  generalize (usb488_interface_capabilities c mod 2 ^ 3).
  generalize (usb488_device_capabilities c mod 2 ^ 4).
  intros y x Hx Hy. change (2 ^ 3) with 8 in *. change (2 ^ 4) with 16 in *.
  assert (Hxs : x = 0 \/ x = 1 \/ x = 2 \/ x = 3 \/ x = 4 \/ x = 5 \/ x = 6 \/ x = 7)
    by lia.
  assert (Hys : y = 0 \/ y = 1 \/ y = 2 \/ y = 3 \/ y = 4 \/ y = 5 \/ y = 6 \/ y = 7
                \/ y = 8 \/ y = 9 \/ y = 10 \/ y = 11 \/ y = 12 \/ y = 13
                \/ y = 14 \/ y = 15) by lia.
  clear Hx Hy.
  repeat (destruct Hxs as [-> | Hxs]); try subst x;
    repeat (destruct Hys as [-> | Hys]); try subst y;
    vm_compute; repeat split; discriminate.
Qed.

Lemma get_capabilities_result w :
  match get_capabilities w with
  | Ret rv w' =>
      rv = 0 /\ usb488_caps (data w') = coalesced (capabilities (data w'))
      \/ rv < 0 /\ data w' = data w
  | Blocked w' => data w' = data w
  | Spin _ => False
  end.
Proof.
  unfold get_capabilities. mrun.
  destruct (script (usb w)) as [|r rest]; cbn; [reflexivity |].
  destruct (r_rv r <? 0) eqn:Erv; cbn.
  { right. apply Z.ltb_lt in Erv. auto. }
  destruct (negb (byte_at (r_data r) 0 =? USBTMC_STATUS_SUCCESS)); cbn.
  { right. unfold EPERM. split; [lia | reflexivity]. }
  left. split; reflexivity.
Qed.

Lemma probe_coalesced iosz tmo interface submitted registered answers :
  let w := final (usbtmc_probe iosz tmo interface submitted registered answers) in
  usb488_caps (data w) = coalesced (capabilities (data w)).
Proof.
  cbv zeta. unfold usbtmc_probe.
  match goal with |- context [final (?m ?w0)] => set (w0' := w0) end.
  assert (H0 : usb488_caps (data w0') = coalesced (capabilities (data w0')))
    by reflexivity.
  clearbody w0'. rewrite final_bind.
  pose proof (get_capabilities_result w0') as Hc.
  destruct (get_capabilities w0') as [rv w1|w1|w1];
    [| rewrite Hc; exact H0 | contradiction].
  assert (H1 : usb488_caps (data w1) = coalesced (capabilities (data w1))).
  { destruct Hc as [[_ H] | [_ H]]; [exact H | rewrite H; exact H0]. }
  unfold usbtmc_free_int. mrun.
  repeat match goal with
         | |- context [if ?b then _ else _] => destruct b; cbn
         end; exact H1.
Qed.

Lemma reachable_coalesced w :
  reachable w -> usb488_caps (data w) = coalesced (capabilities (data w)).
Proof.
  induction 1 as [iosz tmo interface submitted registered answers w E | o answers w _ IH].
  - pose proof (probe_coalesced iosz tmo interface submitted registered answers) as H.
    cbv zeta in H. rewrite E in H. exact H.
  - destruct (settled_exec o answers w) as [H _].
    unfold description in H. injection H as _ _ _ _ _ _ _ _ Hu Hc.
    rewrite Hu, Hc. exact IH.
Qed.

(** ** The tag of bulk-out messages goes round 1..255 *)

Lemma next_bTag_iter n b :
  1 <= b <= 255 ->
  Nat.iter n next_bTag b = (b - 1 + Z.of_nat n) mod 255 + 1.
Proof.
  intros Hb. induction n as [|n IH].
  - change (Nat.iter 0 next_bTag b) with b. rewrite Z.add_0_r, Z.mod_small; lia.
  - rewrite Nat.iter_succ, IH.
    pose proof (Z.mod_pos_bound (b - 1 + Z.of_nat n) 255 ltac:(lia)) as Hm.
    rewrite next_bTag_step by lia.
    replace (b - 1 + Z.of_nat (S n)) with (b - 1 + Z.of_nat n + 1) by lia.
    destruct ((b - 1 + Z.of_nat n) mod 255 + 1 =? 255) eqn:E.
    + apply Z.eqb_eq in E. Z.div_mod_to_equations. lia.
    + apply Z.eqb_neq in E. Z.div_mod_to_equations. lia.
Qed.

Lemma exec_trigger w h fd arg r :
  files w !! h = Some fd -> zombie (data w) = false -> script (usb w) = [] ->
  exec (OpIoctl h USBTMC488_IOCTL_TRIGGER arg) [r] w
  = mk_world (io_buffer_size w)
             (bump_bTag (set_bTag_last_write (bTag (data w)) (data w)))
             (files w) []
             (trace (usb w)
              ++ [EvBulkOut (bulk_out (data w)) (tag_bytes 128 (data w) ++ zeros 8)
                            USBTMC_HEADER_SIZE]).
Proof.
  intros Hh Hz Hs. unfold exec, run_op, forget.
  unfold mbind at 1, prog_bind at 1.
  rewrite (ioctl_live (feed [r] w) h _ arg fd Hh Hz).
  unfold no_output, usbtmc488_ioctl_trigger, store_and_bump_bTag, feed.
  mrun. rewrite Hs. reflexivity.
Qed.

Lemma triggers_tags rs : forall w h fd arg,
  files w !! h = Some fd -> zombie (data w) = false -> script (usb w) = [] ->
  1 <= bTag (data w) <= 255 ->
  let w' := run_ops (triggers h arg rs) w in
  bTag (data w') = (bTag (data w) - 1 + Zlen rs) mod 255 + 1
  /\ (rs <> [] ->
      bTag_last_write (data w') = (bTag (data w) - 1 + (Zlen rs - 1)) mod 255 + 1).
Proof.
  induction rs as [|r rs IH]; intros w h fd arg Hh Hz Hs Hb; cbv zeta.
  - cbn [triggers map run_ops]. change (Zlen []) with 0.
    rewrite Z.add_0_r, Z.mod_small by lia. split; [lia | congruence].
  - cbn [triggers map run_ops]. fold (triggers h arg rs).
    rewrite (exec_trigger w h fd arg r Hh Hz Hs).
    set (w1 := mk_world _ _ _ _ _).
    assert (Hb1 : 1 <= bTag (data w1) <= 255) by (apply next_bTag_range).
    destruct (IH w1 h fd arg Hh Hz eq_refl Hb1) as (Ht & Hl).
    change (bTag (data w1)) with (next_bTag (bTag (data w))) in Ht, Hl.
    rewrite next_bTag_step in Ht, Hl by exact Hb.
    assert (Hlen : Zlen (r :: rs) = Zlen rs + 1) by (unfold Zlen; cbn [length]; lia).
    rewrite Hlen. split.
    + rewrite Ht. destruct (bTag (data w) =? 255) eqn:E;
        [apply Z.eqb_eq in E | apply Z.eqb_neq in E];
        Z.div_mod_to_equations; lia.
    + intros _. destruct rs as [|r' rs].
      * cbn [triggers map run_ops]. change (Zlen []) with 0.
        change (bTag_last_write (data w1)) with (bTag (data w)).
        rewrite Z.mod_small; lia.
      * rewrite Hl by discriminate.
        destruct (bTag (data w) =? 255) eqn:E;
          [apply Z.eqb_eq in E | apply Z.eqb_neq in E];
          Z.div_mod_to_equations; lia.
Qed.

(** ** A reply that arrives in several transfers *)

Lemma read_loop_end f buf this_part done out w :
  read_loop f buf this_part 0 done out w = Ret (to_int done, out) w.
Proof. destruct f; reflexivity. Qed.

(** One round of the read loop after the first packet. *)
Lemma read_loop_next fuel buf this_part remaining done out iosz d fs r rest tr :
  0 < remaining -> 0 < done -> arrives iosz r ->
  done + remaining <= u_wsize buf ->
  let actual := Z.min (Zlen (r_data r)) remaining in
  read_loop (S fuel) buf this_part remaining done out
            (mk_world iosz d fs (r :: rest) tr)
  = read_loop fuel buf this_part (remaining - actual) (done + actual)
              (out ++ slice (r_data r) 0 actual)
              (mk_world iosz (set_bTag_last_read (bTag d) d) fs rest
                        (tr ++ [EvBulkIn (bulk_in d) iosz])).
Proof.
  intros Hrem Hdone [Hrv Hfit] Hbuf actual. cbn [read_loop].
  assert (E : (remaining >? 0) = true) by (apply Z.gtb_lt; lia).
  rewrite E. cbn [negb]. mstep.
  apply Z.ltb_ge in Hrv. rewrite Hrv.
  assert (E0 : (done =? 0) = false) by (apply Z.eqb_neq; lia). rewrite E0.
  assert (Hrec : firstn (Z.to_nat iosz) (r_data r) = r_data r).
  { apply firstn_all2. unfold Zlen in Hfit. lia. }
  rewrite Hrec.
  assert (Ha : (if Zlen (r_data r) >? remaining then remaining else Zlen (r_data r))
               = actual).
  { subst actual. destruct (Zlen (r_data r) >? remaining) eqn:Eg;
      rewrite Z.gtb_ltb in Eg; [apply Z.ltb_lt in Eg | apply Z.ltb_ge in Eg]; lia. }
  rewrite Ha.
  assert (Hc : copy_to_user buf done actual = true).
  { unfold copy_to_user. apply orb_true_iff. right. apply Z.leb_le.
    subst actual. lia. }
  rewrite Hc. reflexivity.
Qed.

Lemma Zlen_received_cons r rs :
  Zlen (received_bytes (r :: rs)) = Zlen (r_data r) + Zlen (received_bytes rs).
Proof. unfold received_bytes. cbn [map concat]. apply Zlen_app. Qed.

Lemma slice_all l : slice l 0 (Zlen l) = l.
Proof.
  unfold slice, Zlen. change (Z.to_nat 0) with 0%nat.
  rewrite skipn_O, Nat2Z.id. apply firstn_all.
Qed.

Lemma read_loop_continues rs0 : forall fuel buf this_part remaining done out iosz d
    fs rl rest tr,
  0 < done -> Forall (arrives iosz) (rs0 ++ [rl]) ->
  Zlen (received_bytes rs0) < remaining
    <= Zlen (received_bytes rs0) + Zlen (r_data rl) ->
  done + remaining <= u_wsize buf ->
  (length rs0 < fuel)%nat ->
  read_loop fuel buf this_part remaining done out
            (mk_world iosz d fs (rs0 ++ rl :: rest) tr)
  = Ret (to_int (done + remaining),
         out ++ firstn (Z.to_nat remaining) (received_bytes (rs0 ++ [rl])))
        (mk_world iosz (set_bTag_last_read (bTag d) d) fs rest
                  (tr ++ repeat (EvBulkIn (bulk_in d) iosz) (S (length rs0)))).
Proof.
  induction rs0 as [|r rs0 IH];
    intros fuel buf this_part remaining done out iosz d fs rl rest tr
           Hdone Hall Hrem Hbuf Hf;
    (destruct fuel as [|fuel]; [cbn in Hf; lia |]); cbn [app] in *.
  - apply Forall_cons in Hall. destruct Hall as [Hrl _].
    change (Zlen (received_bytes [])) with 0 in Hrem.
    rewrite read_loop_next by (assumption || lia). cbv zeta.
    rewrite Z.min_r by lia. rewrite Z.sub_diag, read_loop_end.
    unfold received_bytes. cbn [map concat length repeat]. rewrite app_nil_r.
    reflexivity.
  - apply Forall_cons in Hall. destruct Hall as [Hr Hall].
    rewrite Zlen_received_cons in Hrem.
    pose proof (Zlen_nonneg (received_bytes rs0)).
    pose proof (Zlen_nonneg (r_data r)).
    rewrite read_loop_next by (assumption || lia). cbv zeta.
    rewrite Z.min_l by lia. rewrite slice_all.
    rewrite IH; try assumption; try lia; [| cbn [length] in Hf; lia].
    replace (done + Zlen (r_data r) + (remaining - Zlen (r_data r)))
      with (done + remaining) by lia.
    replace (take (Z.to_nat remaining) (received_bytes (r :: rs0 ++ [rl])))
      with (r_data r ++ take (Z.to_nat (remaining - Zlen (r_data r)))
                             (received_bytes (rs0 ++ [rl]))).
    + cbn [length repeat]. rewrite <- !app_assoc. reflexivity.
    + unfold received_bytes. cbn [map concat].
      rewrite firstn_app. unfold Zlen in *.
      rewrite (take_ge (r_data r)) by lia.
      replace (Z.to_nat remaining - length (r_data r))%nat
        with (Z.to_nat (remaining - Z.of_nat (length (r_data r)))) by lia.
      reflexivity.
Qed.

(** The reply to one read: a header announcing [n] bytes with the first
    part [p1] of them, then the rest in the transfers [rs0 ++ [rl]]. *)
Lemma read_split_message iosz d fs r0 r1 rs0 rl rest tr h fd buf count
    b2 b3 n attr b9 b10 b11 p1 :
  fs !! h = Some fd -> zombie d = false ->
  0 <= r_rv r0 -> 0 <= r_rv r1 ->
  r_data r1 = [2; bTag d; b2; b3] ++ le32_bytes n ++ [attr; b9; b10; b11] ++ p1 ->
  Zlen (r_data r1) <= iosz -> Forall (arrives iosz) (rs0 ++ [rl]) ->
  0 < Zlen p1 ->
  Zlen p1 + Zlen (received_bytes rs0) < n
    <= Zlen p1 + Zlen (received_bytes rs0) + Zlen (r_data rl) ->
  n <= count < 2 ^ 31 -> n <= u_wsize buf ->
  exists d',
    usbtmc_read h buf count (mk_world iosz d fs (r0 :: r1 :: rs0 ++ rl :: rest) tr)
    = Ret (n, firstn (Z.to_nat n) (p1 ++ received_bytes (rs0 ++ [rl])))
          (mk_world iosz d' fs rest
             (tr ++ EvBulkOut (bulk_out d) (request_dev_dep_msg_in fd d count)
                              USBTMC_HEADER_SIZE
                 :: repeat (EvBulkIn (bulk_in d) iosz) (S (S (length rs0)))))
    /\ bTag_last_read d' = next_bTag (bTag d).
Proof.
  intros Hh Hz H0 H1 Hdata Hfit Hall Hp1 Hn Hc Hbuf.
  pose proof (Zlen_nonneg (received_bytes rs0)) as Hnn.
  eexists. split.
  - rewrite (usbtmc_read_request _ _ _ _ _ _ _ _ _ _ Hh Hz).
    cbv zeta. apply Z.ltb_ge in H0. rewrite H0.
    unfold with_fuelM. cbn [usb script mk_world length].
    rewrite read_loop_first by lia.
    cbv zeta. apply Z.ltb_ge in H1. rewrite H1.
    assert (Hrec : firstn (Z.to_nat iosz) (r_data r1) = r_data r1).
    { apply firstn_all2. unfold Zlen in Hfit. lia. }
    rewrite Hrec.
    assert (Hlen : Zlen (r_data r1) = USBTMC_HEADER_SIZE + Zlen p1).
    { rewrite Hdata. unfold Zlen, USBTMC_HEADER_SIZE. cbn. lia. }
    assert (Hnc : header_n_characters (r_data r1) = n).
    { rewrite Hdata, header_n_characters_le32. apply u32_small. lia. }
    assert (Hok : header_ok (Zlen (r_data r1)) (r_data r1)
                    (bTag_last_write (bump_bTag (set_bTag_last_write (bTag d) d)))
                    count = true).
    { unfold header_ok. rewrite Hnc, Hlen.
      replace (USBTMC_HEADER_SIZE + Zlen p1 <? USBTMC_HEADER_SIZE) with false
        by (symmetry; apply Z.ltb_ge; lia).
      replace (n >? count) with false
        by (symmetry; rewrite Z.gtb_ltb; apply Z.ltb_ge; lia).
      rewrite Hdata. unfold byte_at, le32_bytes. offsets.
      cbn [negb andb bTag_last_write bump_bTag set_bTag set_bTag_last_write].
      rewrite !Z.eqb_refl. reflexivity. }
    rewrite Hok, Hnc, Hlen.
    replace (USBTMC_HEADER_SIZE + Zlen p1 - USBTMC_HEADER_SIZE)
      with (Zlen p1) by lia.
    assert (Hrem : (if count >? n then n else count) = n).
    { destruct (count >? n) eqn:E; [reflexivity |].
      rewrite Z.gtb_ltb in E. apply Z.ltb_ge in E. lia. }
    rewrite Hrem.
    assert (Hact : (if Zlen p1 >? n then n else Zlen p1) = Zlen p1).
    { destruct (Zlen p1 >? n) eqn:E; [| reflexivity].
      apply Z.gtb_lt in E. lia. }
    rewrite Hact.
    assert (Hge : (Zlen p1 >=? n) = false) by (rewrite Z.geb_leb; apply Z.leb_gt; lia).
    rewrite Hge, andb_false_r.
    assert (Hcopy : copy_to_user buf 0 (Zlen p1) = true).
    { unfold copy_to_user. apply orb_true_iff. right. apply Z.leb_le. lia. }
    rewrite Hcopy.
    assert (Hs : slice (r_data r1) USBTMC_HEADER_SIZE (Zlen p1) = p1).
    { rewrite Hdata. unfold slice, USBTMC_HEADER_SIZE, le32_bytes.
      change (Z.to_nat 12) with 12%nat. cbn [app skipn]. unfold Zlen.
      rewrite Nat2Z.id. apply firstn_all. }
    rewrite Hs. cbn [app].
    rewrite read_loop_continues; try assumption; try lia;
      [| rewrite length_app; cbn [length]; lia].
    rewrite to_int_small by lia.
    replace (0 + Zlen p1 + (n - Zlen p1)) with n by lia.
    replace (take (Z.to_nat n) (p1 ++ received_bytes (rs0 ++ [rl])))
      with (p1 ++ take (Z.to_nat (n - Zlen p1)) (received_bytes (rs0 ++ [rl]))).
    + cbn [repeat]. rewrite <- !app_assoc. reflexivity.
    + rewrite firstn_app. unfold Zlen in *.
      rewrite (take_ge p1) by lia.
      replace (Z.to_nat n - length p1)%nat
        with (Z.to_nat (n - Z.of_nat (length p1))) by lia.
      reflexivity.
  - reflexivity.
Qed.

(** The first-packet test of the read loop is [done == 0]: a first transfer
    that holds the header and nothing else leaves it true. *)
Lemma auto_abort_bulk_in_off {B} iosz d fs s tr (b : B) :
  auto_abort d = false ->
  (auto_abort_bulk_in;; mret b) (mk_world iosz d fs s tr)
  = Ret b (mk_world iosz d fs s tr).
Proof.
  intros Ha. unfold auto_abort_bulk_in.
  unfold mbind, prog_bind, get_data. cbn. rewrite Ha. reflexivity.
Qed.

Lemma read_header_alone iosz d fs r0 r1 r2 rest tr h fd buf count
    b2 b3 n attr b9 b10 b11 :
  fs !! h = Some fd -> zombie d = false -> auto_abort d = false ->
  0 <= r_rv r0 -> 0 <= r_rv r1 -> 0 <= r_rv r2 ->
  r_data r1 = [2; bTag d; b2; b3] ++ le32_bytes n ++ [attr; b9; b10; b11] ->
  USBTMC_HEADER_SIZE <= iosz ->
  0 < n <= count -> count < 2 ^ 31 ->
  byte_at (firstn (Z.to_nat iosz) (r_data r2)) 0 <> 2 ->
  exists d',
    usbtmc_read h buf count (mk_world iosz d fs (r0 :: r1 :: r2 :: rest) tr)
    = Ret (r_rv r2, [])
          (mk_world iosz d' fs rest
             (tr ++ [EvBulkOut (bulk_out d) (request_dev_dep_msg_in fd d count)
                               USBTMC_HEADER_SIZE;
                     EvBulkIn (bulk_in d) iosz; EvBulkIn (bulk_in d) iosz])).
Proof.
  intros Hh Hz Ha H0 H1 H2 Hdata Hio Hn Hc Hbad.
  eexists.
  rewrite (usbtmc_read_request _ _ _ _ _ _ _ _ _ _ Hh Hz).
  cbv zeta. apply Z.ltb_ge in H0. rewrite H0.
  unfold with_fuelM. cbn [usb script mk_world length].
  rewrite read_loop_first by lia.
  cbv zeta. apply Z.ltb_ge in H1. rewrite H1.
  assert (Hlen : Zlen (r_data r1) = USBTMC_HEADER_SIZE) by (rewrite Hdata; reflexivity).
  assert (Hrec : firstn (Z.to_nat iosz) (r_data r1) = r_data r1).
  { apply firstn_all2. unfold Zlen, USBTMC_HEADER_SIZE in *. lia. }
  rewrite Hrec.
  assert (Hnc : header_n_characters (r_data r1) = n).
  { rewrite Hdata.
    change [attr; b9; b10; b11] with ([attr; b9; b10; b11] ++ []).
    rewrite header_n_characters_le32. apply u32_small. lia. }
  assert (Hok : header_ok (Zlen (r_data r1)) (r_data r1)
                  (bTag_last_write (bump_bTag (set_bTag_last_write (bTag d) d)))
                  count = true).
  { unfold header_ok. rewrite Hnc, Hlen.
    replace (n >? count) with false
      by (symmetry; rewrite Z.gtb_ltb; apply Z.ltb_ge; lia).
    rewrite Hdata. unfold byte_at, le32_bytes. offsets.
    cbn [negb andb bTag_last_write bump_bTag set_bTag set_bTag_last_write].
    rewrite !Z.eqb_refl. reflexivity. }
  rewrite Hok, Hnc, Hlen, Z.sub_diag.
  assert (Hrem : (if count >? n then n else count) = n).
  { destruct (count >? n) eqn:E; [reflexivity |].
    rewrite Z.gtb_ltb in E. apply Z.ltb_ge in E. lia. }
  rewrite Hrem.
  assert (Hact : (if 0 >? n then n else 0) = 0).
  { destruct (0 >? n) eqn:E; [apply Z.gtb_lt in E; lia | reflexivity]. }
  rewrite Hact.
  assert (Hge : (0 >=? n) = false) by (rewrite Z.geb_leb; apply Z.leb_gt; lia).
  rewrite Hge, andb_false_r.
  change (copy_to_user buf 0 0) with true. cbv iota.
  rewrite slice_none. cbn [app]. rewrite Z.sub_0_r.
  change (0 + 0) with 0.
  rewrite read_loop_first by lia.
  cbv zeta. apply Z.ltb_ge in H2. rewrite H2.
  assert (Hno : header_ok (Zlen (firstn (Z.to_nat iosz) (r_data r2)))
                  (firstn (Z.to_nat iosz) (r_data r2))
                  (bTag_last_write
                     (set_bTag_last_read
                        (bTag (bump_bTag (set_bTag_last_write (bTag d) d)))
                        (bump_bTag (set_bTag_last_write (bTag d) d))))
                  count = false).
  { unfold header_ok. apply Z.eqb_neq in Hbad. rewrite Hbad.
    rewrite andb_false_r. reflexivity. }
  rewrite Hno. rewrite auto_abort_bulk_in_off by exact Ha.
  rewrite <- !app_assoc. reflexivity.
Qed.

(** ** End of message *)

Lemma eom_enable_result w h fd p e :
  files w !! h = Some fd -> zombie (data w) = false ->
  copy_from_user p 0 1 = Some [e] ->
  usbtmc_ioctl h USBTMC_IOCTL_EOM_ENABLE (user_arg p) w
  = if e >? 1 then Ret (- EINVAL, []) w
    else Ret (0, []) (set_data (set_eom_val (negb (e =? 0)) (data w)) w).
Proof.
  intros Hh Hz Hp. rewrite (ioctl_live _ _ _ _ _ Hh Hz).
  unfold no_output, usbtmc_ioctl_eom_enable. cbn [arg_ptr user_arg].
  rewrite Hp. change (byte_at [e] 0) with e.
  destruct (e >? 1); reflexivity.
Qed.

(** * Further results, one by one *)

(** ** Writing *)

(** X1.  A write on an open handle of a live device, of [count] bytes that
    can be read from the user's buffer, through a transport that moves every
    frame whole: it returns [count]; it makes one bulk-out transfer per
    frame, each of a length that is a multiple of 4 and with at most
    [io_buffer_size - 12] bytes of payload; the payloads, put end to end, are
    the first [count] bytes of the buffer; only the last frame carries the
    end-of-message bit, and carries it as [eom_val] says; and the tag has
    advanced once per frame. *)
Theorem write_delivers_buffer_in_frames w h fd buf count k :
  files w !! h = Some fd -> zombie (data w) = false ->
  USBTMC_HEADER_SIZE < io_buffer_size w < 2 ^ 31 ->
  0 <= count < 2 ^ 31 -> count <= Zlen (u_bytes buf) ->
  count <= Z.of_nat k * (io_buffer_size w - USBTMC_HEADER_SIZE) ->
  (k <= length (script (usb w)))%nat ->
  Forall (completes (roundup4 (io_buffer_size w))) (firstn k (script (usb w))) ->
  exists w' frames,
    usbtmc_write h buf count w = Ret count w'
    /\ trace (usb w') = trace (usb w) ++ sent (bulk_out (data w)) frames
    /\ script (usb w') = skipn (length frames) (script (usb w))
    /\ (length frames <= k)%nat
    /\ concat (map frame_payload frames) = firstn (Z.to_nat count) (u_bytes buf)
    /\ eom_only_last (eom_val (data w)) frames
    /\ Forall (fun frame =>
                 Zlen frame mod 4 = 0
                 /\ Zlen (frame_payload frame)
                    <= io_buffer_size w - USBTMC_HEADER_SIZE) frames
    /\ bTag (data w') = Nat.iter (length frames) next_bTag (bTag (data w)).
Proof. apply write_completes. Qed.

Lemma write_delivers_buffer_in_frames_witness :
  exists w' frames,
    usbtmc_write 0%nat (user_bytes (repeat 65 1200)) 1200
      (feed [moved 512; moved 512; moved 512] scope_512) = Ret 1200 w'
    /\ (length frames <= 3)%nat
    /\ concat (map frame_payload frames) = repeat 65 1200
    /\ eom_only_last true frames
    /\ bTag (data w') = Nat.iter (length frames) next_bTag 1.
Proof.
  destruct (write_delivers_buffer_in_frames
              (feed [moved 512; moved 512; moved 512] scope_512) 0%nat
              fresh_handle (user_bytes (repeat 65 1200)) 1200 3)
    as (w' & frames & E & _ & _ & Hn & Hcat & Heom & _ & Hb).
  - vm_compute; reflexivity.
  - reflexivity.
  - vm_compute. split; reflexivity.
  - vm_compute. split; [discriminate | reflexivity].
  - vm_compute. discriminate.
  - vm_compute. discriminate.
  - vm_compute. lia.
  - change (Forall (completes 512) [moved 512; moved 512; moved 512]).
    repeat apply List.Forall_cons; try apply List.Forall_nil;
      (split; [reflexivity | vm_compute; discriminate]).
  - exists w', frames. repeat split; assumption.
Defined.

(** X2.  The encoders of the bulk-out headers and the decoder of the read
    loop agree.  The TransferSize field that [send_request_dev_dep_msg_in]
    writes reads back, with the arithmetic of [usbtmc_read], as the size
    asked for modulo 2^32.  A DEV_DEP_MSG_OUT frame of [usbtmc_write] is
    [roundup(12 + this_part, 4)] bytes long, which is the payload plus the
    header plus 0 to 3 bytes; the payload read back from it through its
    TransferSize field is the payload put in; and byte 8 is the attribute. *)
Theorem frames_read_back_as_written :
  (forall fd d transfer_size,
     header_n_characters (request_dev_dep_msg_in fd d transfer_size)
     = u32 transfer_size
     /\ Zlen (request_dev_dep_msg_in fd d transfer_size) = USBTMC_HEADER_SIZE)
  /\ (forall d this_part attr payload,
        0 <= this_part < 2 ^ 32 -> Zlen payload = this_part ->
        let frame := dev_dep_msg_out d this_part attr payload in
        Zlen frame = roundup4 (USBTMC_HEADER_SIZE + this_part)
        /\ Zlen frame mod 4 = 0
        /\ USBTMC_HEADER_SIZE + this_part <= Zlen frame
           <= USBTMC_HEADER_SIZE + this_part + 3
        /\ frame_payload frame = payload
        /\ byte_at frame 8 = attr).
Proof.
  split.
  - intros fd d n. split; [| reflexivity].
    unfold request_dev_dep_msg_in, tag_bytes. apply header_n_characters_le32.
  - intros d this_part attr payload Hn Hl frame.
    destruct (dev_dep_msg_out_frame d this_part attr payload Hn Hl) as (H1 & H2 & H3).
    fold frame in H1, H2, H3.
    pose proof (roundup4_bounds (USBTMC_HEADER_SIZE + this_part)) as [Hb Hm].
    rewrite H1. repeat split; try assumption; lia.
Qed.

Lemma frames_read_back_as_written_witness :
  let frame := dev_dep_msg_out (data scope) 5 1 [72; 69; 76; 76; 79] in
  Zlen frame = 20 /\ frame_payload frame = [72; 69; 76; 76; 79]
  /\ byte_at frame 8 = 1.
Proof.
  destruct frames_read_back_as_written as [_ H].
  destruct (H (data scope) 5 1 [72; 69; 76; 76; 79]) as (H1 & _ & _ & H2 & H3).
  - vm_compute. split; [discriminate | reflexivity].
  - reflexivity.
  - cbv zeta. split; [exact H1 | split; [exact H2 | exact H3]].
Defined.

(** ** Reading *)

(** X3.  Whatever the device and the transport do, a read that returns has
    copied to the user's buffer no more than [count] bytes, and has not
    written past the end of that buffer. *)
Theorem read_stays_within_count w h buf count rv out w' :
  usbtmc_read h buf count w = Ret (rv, out) w' ->
  Zlen out <= Z.max 0 count /\ (out <> [] -> Zlen out <= u_wsize buf).
Proof.
  assert (Hnone : Zlen (@nil Z) <= Z.max 0 count /\ (@nil Z <> [] -> Zlen (@nil Z) <= u_wsize buf))
    by (split; [change (Zlen []) with 0; lia | congruence]).
  unfold usbtmc_read. unfold mbind at 1 2, prog_bind at 1 2, get_files, get_data.
  destruct (files w !! h) as [fd|]; [| intros [= <- <- <-]; exact Hnone].
  destruct (zombie (data w)); [intros [= <- <- <-]; exact Hnone |].
  unfold mbind, prog_bind.
  destruct (send_request_dev_dep_msg_in fd count w) as [retval w1|w1|w1];
    try discriminate.
  destruct (retval <? 0).
  - destruct (auto_abort_bulk_out w1); try discriminate.
    intros [= <- <- <-]. exact Hnone.
  - unfold with_fuelM. destruct (Z_le_gt_dec count 0) as [Hc | Hc].
    + cbn [read_loop]. assert (E : (count >? 0) = false)
        by (rewrite Z.gtb_ltb; apply Z.ltb_ge; lia).
      rewrite E. intros [= <- <- <-]. exact Hnone.
    + intros Hrun. apply read_loop_bound in Hrun; [| lia].
      destruct Hrun as (more & -> & Hm & Hu). cbn [app]. split; [lia |].
      intros Hne. specialize (Hu Hne). lia.
Qed.

Lemma read_stays_within_count_witness :
  let w := feed [moved 12; reply 2 1 4 [81; 82; 83; 84; 85; 86; 87; 88; 89]]
                scope_open in
  usbtmc_read 0%nat (user_buffer 4) 4 w
  = Ret (4, [81; 82; 83; 84]) (final (usbtmc_read 0%nat (user_buffer 4) 4 w))
  /\ Zlen [81; 82; 83; 84] <= Z.max 0 4
  /\ ([81; 82; 83; 84] <> [] -> Zlen [81; 82; 83; 84] <= u_wsize (user_buffer 4)).
Proof.
  cbv zeta. split; [vm_compute; reflexivity |].
  apply (read_stays_within_count
           (feed [moved 12; reply 2 1 4 [81; 82; 83; 84; 85; 86; 87; 88; 89]]
                 scope_open)
           0%nat (user_buffer 4) 4 4 [81; 82; 83; 84]
           (final (usbtmc_read 0%nat (user_buffer 4) 4
                     (feed [moved 12;
                            reply 2 1 4 [81; 82; 83; 84; 85; 86; 87; 88; 89]]
                           scope_open)))).
  vm_compute. reflexivity.
Defined.

(** X4.  A read whose request goes out and whose reply arrives whole in the
    first transfer: a header with MsgID 2, the tag of the request and a
    TransferSize [n] no larger than [count], followed by [n] bytes at least.
    The read returns [n] and hands over the first [n] bytes after the header
    (padding is dropped), whether or not the header carries the
    end-of-message bit; it has made exactly two transfers. *)
Theorem read_returns_message_of_first_transfer
    w h fd buf count r0 r1 rest b2 b3 n attr b9 b10 b11 payload :
  files w !! h = Some fd -> zombie (data w) = false ->
  script (usb w) = r0 :: r1 :: rest ->
  0 <= r_rv r0 -> 0 <= r_rv r1 ->
  r_data r1 = [2; bTag (data w); b2; b3] ++ le32_bytes n
              ++ [attr; b9; b10; b11] ++ payload ->
  Zlen (r_data r1) <= io_buffer_size w ->
  0 <= n <= count -> 0 < count < 2 ^ 31 -> n <= Zlen payload ->
  copy_to_user buf 0 n = true ->
  exists w',
    usbtmc_read h buf count w = Ret (n, firstn (Z.to_nat n) payload) w'
    /\ script (usb w') = rest
    /\ trace (usb w') = trace (usb w)
         ++ [EvBulkOut (bulk_out (data w))
                       (request_dev_dep_msg_in fd (data w) count)
                       USBTMC_HEADER_SIZE;
             EvBulkIn (bulk_in (data w)) (io_buffer_size w)]
    /\ bTag (data w') = next_bTag (bTag (data w)).
Proof.
  intros Hh Hz Hs. destruct w as [iosz d fs [s tr]]. cbn in *. subst s.
  intros H0 H1 Hdata Hfit Hn Hc Hp Hcopy.
  destruct (read_whole_message iosz d fs r0 r1 rest tr h fd buf count
              b2 b3 n attr b9 b10 b11 payload) as (d' & E & Hb & _); try assumption.
  unfold mk_world in E. eexists. split; [exact E |]. cbn. auto.
Qed.

Lemma read_returns_message_of_first_transfer_witness :
  exists w',
    usbtmc_read 0%nat (user_buffer 64) 64
      (feed [moved 12; reply 2 1 5 [72; 69; 76; 76; 79; 0; 0; 0]] scope_open)
    = Ret (5, [72; 69; 76; 76; 79]) w'
    /\ script (usb w') = []
    /\ bTag (data w') = 2.
Proof.
  destruct (read_returns_message_of_first_transfer
              (feed [moved 12; reply 2 1 5 [72; 69; 76; 76; 79; 0; 0; 0]] scope_open)
              0%nat fresh_handle (user_buffer 64) 64 (moved 12)
              (reply 2 1 5 [72; 69; 76; 76; 79; 0; 0; 0]) []
              (u8 (Z.lnot 1)) 0 5 1 0 0 0 [72; 69; 76; 76; 79; 0; 0; 0])
    as (w' & E & Hs & _ & Hb).
  - vm_compute; reflexivity.
  - reflexivity.
  - reflexivity.
  - vm_compute; discriminate.
  - vm_compute; discriminate.
  - reflexivity.
  - vm_compute; discriminate.
  - lia.
  - lia.
  - vm_compute; discriminate.
  - reflexivity.
  - exists w'. split; [exact E | split; [exact Hs | exact Hb]].
Defined.

(** X5.  A reply that arrives in several transfers: the header and a first,
    non-empty part of the [n] bytes it announces, then the rest in further
    transfers, the last of which may bring more than is missing.  The read
    returns [n] and hands over the first [n] of the bytes received after the
    header; it reads the bulk-in endpoint once per transfer and no more. *)
Theorem read_joins_transfers
    w h fd buf count r0 r1 rs0 rl rest b2 b3 n attr b9 b10 b11 p1 :
  files w !! h = Some fd -> zombie (data w) = false ->
  script (usb w) = r0 :: r1 :: rs0 ++ rl :: rest ->
  0 <= r_rv r0 -> 0 <= r_rv r1 ->
  r_data r1 = [2; bTag (data w); b2; b3] ++ le32_bytes n
              ++ [attr; b9; b10; b11] ++ p1 ->
  Zlen (r_data r1) <= io_buffer_size w ->
  Forall (arrives (io_buffer_size w)) (rs0 ++ [rl]) ->
  0 < Zlen p1 ->
  Zlen p1 + Zlen (received_bytes rs0) < n
    <= Zlen p1 + Zlen (received_bytes rs0) + Zlen (r_data rl) ->
  n <= count < 2 ^ 31 -> n <= u_wsize buf ->
  exists w',
    usbtmc_read h buf count w
    = Ret (n, firstn (Z.to_nat n) (p1 ++ received_bytes (rs0 ++ [rl]))) w'
    /\ script (usb w') = rest
    /\ trace (usb w') = trace (usb w)
         ++ EvBulkOut (bulk_out (data w))
                      (request_dev_dep_msg_in fd (data w) count)
                      USBTMC_HEADER_SIZE
         :: repeat (EvBulkIn (bulk_in (data w)) (io_buffer_size w))
                   (S (S (length rs0))).
Proof.
  intros Hh Hz Hs. destruct w as [iosz d fs [s tr]]. cbn in *. subst s.
  intros H0 H1 Hdata Hfit Hall Hp1 Hn Hc Hbuf.
  destruct (read_split_message iosz d fs r0 r1 rs0 rl rest tr h fd buf count
              b2 b3 n attr b9 b10 b11 p1) as (d' & E & _); try assumption.
  unfold mk_world in E. eexists. split; [exact E |]. cbn. auto.
Qed.

Lemma read_joins_transfers_witness :
  exists w',
    usbtmc_read 0%nat (user_buffer 64) 64
      (feed [moved 12; reply 2 1 7 [65; 66]; answer 0 [67; 68; 69];
             answer 0 [70; 71; 0]] scope_open)
    = Ret (7, [65; 66; 67; 68; 69; 70; 71]) w'
    /\ script (usb w') = [].
Proof.
  destruct (read_joins_transfers
              (feed [moved 12; reply 2 1 7 [65; 66]; answer 0 [67; 68; 69];
                     answer 0 [70; 71; 0]] scope_open)
              0%nat fresh_handle (user_buffer 64) 64 (moved 12)
              (reply 2 1 7 [65; 66]) [answer 0 [67; 68; 69]] (answer 0 [70; 71; 0]) []
              (u8 (Z.lnot 1)) 0 7 1 0 0 0 [65; 66])
    as (w' & E & Hs & _).
  - vm_compute; reflexivity.
  - reflexivity.
  - reflexivity.
  - vm_compute; discriminate.
  - vm_compute; discriminate.
  - reflexivity.
  - vm_compute; discriminate.
  - repeat apply List.Forall_cons; try apply List.Forall_nil;
      (split; vm_compute; discriminate).
  - vm_compute; reflexivity.
  - vm_compute. split; [reflexivity | discriminate].
  - vm_compute. split; [discriminate | reflexivity].
  - vm_compute; discriminate.
  - exists w'. split; [exact E | exact Hs].
Defined.

(** X6.  The read loop takes a transfer for the first of a reply as long as
    nothing has been copied ([done == 0]).  When the first transfer holds
    the header and no payload, the second one is therefore checked as a
    header again: if it holds payload that does not start with MsgID 2 the
    read ends there, returns the value of that transfer and hands over
    nothing of what the device sent.  (Device without [auto_abort].) *)
Theorem read_checks_header_again_after_bare_header
    w h fd buf count r0 r1 r2 rest b2 b3 n attr b9 b10 b11 :
  files w !! h = Some fd -> zombie (data w) = false ->
  auto_abort (data w) = false ->
  script (usb w) = r0 :: r1 :: r2 :: rest ->
  0 <= r_rv r0 -> 0 <= r_rv r1 -> 0 <= r_rv r2 ->
  r_data r1 = [2; bTag (data w); b2; b3] ++ le32_bytes n ++ [attr; b9; b10; b11] ->
  USBTMC_HEADER_SIZE <= io_buffer_size w ->
  0 < n <= count -> count < 2 ^ 31 ->
  byte_at (firstn (Z.to_nat (io_buffer_size w)) (r_data r2)) 0 <> 2 ->
  exists w',
    usbtmc_read h buf count w = Ret (r_rv r2, []) w'
    /\ script (usb w') = rest.
Proof.
  intros Hh Hz Ha Hs. destruct w as [iosz d fs [s tr]]. cbn in *. subst s.
  intros H0 H1 H2 Hdata Hio Hn Hc Hbad.
  destruct (read_header_alone iosz d fs r0 r1 r2 rest tr h fd buf count
              b2 b3 n attr b9 b10 b11) as (d' & E); try assumption.
  unfold mk_world in E. eexists. split; [exact E | reflexivity].
Qed.

Lemma read_checks_header_again_after_bare_header_witness :
  exists w',
    usbtmc_read 0%nat (user_buffer 64) 64
      (feed [moved 12; reply 2 1 5 []; answer 0 [72; 69; 76; 76; 79; 0; 0; 0]]
            scope_open)
    = Ret (0, []) w'
    /\ script (usb w') = [].
Proof.
  apply (read_checks_header_again_after_bare_header
           (feed [moved 12; reply 2 1 5 []; answer 0 [72; 69; 76; 76; 79; 0; 0; 0]]
                 scope_open)
           0%nat fresh_handle (user_buffer 64) 64 (moved 12) (reply 2 1 5 [])
           (answer 0 [72; 69; 76; 76; 79; 0; 0; 0]) []
           (u8 (Z.lnot 1)) 0 5 1 0 0 0).
  - vm_compute; reflexivity.
  - reflexivity.
  - reflexivity.
  - reflexivity.
  - vm_compute; discriminate.
  - vm_compute; discriminate.
  - vm_compute; discriminate.
  - reflexivity.
  - vm_compute; discriminate.
  - lia.
  - lia.
  - vm_compute; discriminate.
Defined.

(** ** Abort and clear *)

(** X7.  ABORT_BULK_OUT, whatever the device answers: it makes no bulk
    transfer out, it asks for the status (CHECK_ABORT_BULK_OUT_STATUS) 100
    times at most, and it returns 0 only when its last two calls were a
    status request and the clearing of the halt on the bulk-out endpoint. *)
Theorem abort_bulk_out_asks_100_times_at_most d t :
  exists evs,
    trace (final (usbtmc_ioctl_abort_bulk_out d t)) = trace t ++ evs
    /\ (count_events is_check_abort_bulk_out evs
        <= Z.to_nat USBTMC_MAX_READS_TO_CLEAR_BULK_IN)%nat
    /\ Forall (fun ev => is_bulk_out ev = false) evs
    /\ forall t', usbtmc_ioctl_abort_bulk_out d t = Ret 0 t' ->
         exists evs0, evs = evs0 ++ [check_abort_bulk_out_status d;
                                     EvClearHalt false (bulk_out d)].
Proof.
  destruct (quiet_usbtmc_ioctl_abort_bulk_out d t) as (evs & E & Hq).
  exists evs. split; [exact E |].
  cut ((count_events is_check_abort_bulk_out evs
        <= Z.to_nat USBTMC_MAX_READS_TO_CLEAR_BULK_IN)%nat
       /\ forall t', usbtmc_ioctl_abort_bulk_out d t = Ret 0 t' ->
            exists evs0, evs = evs0 ++ [check_abort_bulk_out_status d;
                                        EvClearHalt false (bulk_out d)]).
  { intros [H1 H2]. auto. }
  clear Hq. revert E. unfold usbtmc_ioctl_abort_bulk_out. mstep.
  destruct (script t) as [|r rest]; cbn -[with_fuel].
  { intros E. apply app_inv_head in E. subst evs. split; [cbn; lia | discriminate]. }
  destruct (r_rv r <? 0) eqn:Erv; cbn -[with_fuel].
  { intros E. apply app_inv_head in E. subst evs. split; [cbn; lia |].
    intros t' [= H _]. rewrite H in Erv. discriminate. }
  destruct (negb (byte_at (r_data r) 0 =? USBTMC_STATUS_SUCCESS)); cbn -[with_fuel].
  { intros E. apply app_inv_head in E. subst evs. split; [cbn; lia | discriminate]. }
  unfold with_fuel.
  match goal with |- context [abort_bulk_out_check_status ?f d 0 ?t1] =>
    destruct (abort_bulk_out_check_status_calls f d 0 t1 ltac:(lia))
      as (evs1 & E1 & Hc & Hok) end.
  cbn in E1 |- *. rewrite E1, <- app_assoc. intros E. apply app_inv_head in E.
  subst evs. split.
  - rewrite count_events_app.
    change (count_events is_check_abort_bulk_out [_]) with 0%nat.
    unfold USBTMC_MAX_READS_TO_CLEAR_BULK_IN in *. lia.
  - intros t' Ht. destruct (Hok t' Ht) as [evs0 ->].
    eexists (_ :: evs0). reflexivity.
Qed.

Lemma abort_bulk_out_asks_100_times_at_most_witness :
  let t := {| script := status_success :: repeat status_pending 120; trace := [] |} in
  usbtmc_ioctl_abort_bulk_out (data scope) t
  = Ret (- EPERM) {| script := repeat status_pending 20;
                     trace := trace (final (usbtmc_ioctl_abort_bulk_out (data scope) t)) |}
  /\ exists evs,
       trace (final (usbtmc_ioctl_abort_bulk_out (data scope) t)) = evs
       /\ (count_events is_check_abort_bulk_out evs <= 100)%nat.
Proof.
  cbv zeta. split; [vm_compute; reflexivity |].
  destruct (abort_bulk_out_asks_100_times_at_most (data scope)
              {| script := status_success :: repeat status_pending 120; trace := [] |})
    as (evs & E & Hc & _).
  exists evs. split; [exact E | exact Hc].
Defined.

(** X8.  The status loop of ABORT_BULK_IN has no such limit.  After a
    successful INITIATE_ABORT_BULK_IN and a short packet from the bulk-in
    endpoint, it asks for the status again for every "pending" (without
    data) it is answered, however many, until the device says "success";
    then it returns 0. *)
Theorem abort_bulk_in_asks_while_pending iosz d init rd ps ok rest tr :
  answers_status USBTMC_STATUS_SUCCESS init ->
  bulk_in_max_size d <> 0 -> falls_short iosz (bulk_in_max_size d) rd ->
  Forall pending_no_data ps -> answers_status USBTMC_STATUS_SUCCESS ok ->
  usbtmc_ioctl_abort_bulk_in iosz d
    {| script := init :: rd :: ps ++ ok :: rest; trace := tr |}
  = Ret 0 {| script := rest;
             trace := tr ++ [EvControl USBTMC_REQUEST_INITIATE_ABORT_BULK_IN
                                       CLASS_IN_ENDPOINT (bTag_last_read d)
                                       (bulk_in d) [] 2;
                             EvBulkIn (bulk_in d) iosz]
                         ++ repeat (check_abort_bulk_in_status d) (S (length ps)) |}.
Proof.
  intros [Hrv Hst] Hmax [Hrv1 Hsz] Hps Hok.
  unfold usbtmc_ioctl_abort_bulk_in. hstep.
  apply Z.ltb_ge in Hrv. rewrite Hrv, Hst. hstep.
  apply Z.eqb_neq in Hmax. rewrite Hmax.
  unfold with_fuel at 1. cbn [script length drain_bulk_in]. hstep.
  apply Z.ltb_ge in Hrv1. rewrite Hrv1.
  apply Z.eqb_neq in Hsz. rewrite Hsz. hstep. rewrite Hsz.
  unfold with_fuel. cbn [script].
  rewrite abort_bulk_in_status_polls; try assumption.
  - rewrite <- !app_assoc. reflexivity.
  - apply Z.eqb_neq, Hsz.
  - rewrite length_app. cbn. lia.
Qed.

Lemma abort_bulk_in_asks_while_pending_witness :
  exists t',
    usbtmc_ioctl_abort_bulk_in 2048 (data scope)
      {| script := status_success :: answer 0 [] :: repeat status_pending 500
                   ++ [status_success];
         trace := [] |} = Ret 0 t'
    /\ length (trace t') = 503%nat.
Proof.
  eexists. split.
  - apply (abort_bulk_in_asks_while_pending 2048 (data scope) status_success
             (answer 0 []) (repeat status_pending 500) status_success [] []).
    + split; [vm_compute; discriminate | reflexivity].
    + vm_compute; discriminate.
    + split; vm_compute; discriminate.
    + apply List.Forall_forall. intros r Hr. apply repeat_spec in Hr. subst r.
      split; [split; [vm_compute; discriminate | reflexivity] | vm_compute; discriminate].
    + split; [vm_compute; discriminate | reflexivity].
  - cbn [trace]. rewrite !length_app, repeat_length. reflexivity.
Defined.

(** X9.  The loop of ABORT_BULK_IN that empties the bulk-in endpoint does
    have a limit: when the device answers INITIATE_ABORT_BULK_IN with success
    and then keeps sending packets of exactly wMaxPacketSize, the driver
    reads 100 of them, makes no status request, and fails with [-EPERM]. *)
Theorem abort_bulk_in_gives_up_after_100_reads iosz d init rs rest tr :
  answers_status USBTMC_STATUS_SUCCESS init ->
  bulk_in_max_size d <> 0 ->
  Forall (fills iosz (bulk_in_max_size d)) rs ->
  Zlen rs = USBTMC_MAX_READS_TO_CLEAR_BULK_IN ->
  usbtmc_ioctl_abort_bulk_in iosz d {| script := init :: rs ++ rest; trace := tr |}
  = Ret (- EPERM)
        {| script := rest;
           trace := tr ++ EvControl USBTMC_REQUEST_INITIATE_ABORT_BULK_IN
                                    CLASS_IN_ENDPOINT (bTag_last_read d)
                                    (bulk_in d) [] 2
                       :: repeat (EvBulkIn (bulk_in d) iosz)
                            (Z.to_nat USBTMC_MAX_READS_TO_CLEAR_BULK_IN) |}.
Proof.
  intros [Hrv Hst] Hmax Hrs Hlen.
  unfold usbtmc_ioctl_abort_bulk_in. hstep.
  apply Z.ltb_ge in Hrv. rewrite Hrv, Hst. hstep.
  apply Z.eqb_neq in Hmax. rewrite Hmax.
  unfold with_fuel at 1. cbn [script].
  rewrite drain_bulk_in_full; try assumption.
  - hstep. rewrite Z.eqb_refl. hstep.
    replace (length rs) with (Z.to_nat USBTMC_MAX_READS_TO_CLEAR_BULK_IN)
      by (unfold Zlen in Hlen; lia).
    rewrite <- app_assoc. reflexivity.
  - intros ->. discriminate.
  - rewrite length_app. lia.
Qed.

Lemma abort_bulk_in_gives_up_after_100_reads_witness :
  exists t',
    usbtmc_ioctl_abort_bulk_in 2048 (data scope)
      {| script := status_success :: repeat full_packet 100 ++ [full_packet];
         trace := [] |} = Ret (- EPERM) t'
    /\ script t' = [full_packet] /\ length (trace t') = 101%nat.
Proof.
  eexists. split.
  - apply (abort_bulk_in_gives_up_after_100_reads 2048 (data scope) status_success
             (repeat full_packet 100) [full_packet] []).
    + split; [vm_compute; discriminate | reflexivity].
    + vm_compute; discriminate.
    + apply List.Forall_forall. intros r Hr. apply repeat_spec in Hr. subst r.
      split; [vm_compute; discriminate | vm_compute; reflexivity].
    + reflexivity.
  - split; reflexivity.
Defined.

(** X10.  CLEAR returns 0 from one place only: its first call was
    INITIATE_CLEAR and its last two calls were CHECK_CLEAR_STATUS and the
    clearing of the halt on the bulk-out endpoint. *)
Theorem clear_succeeds_only_after_clearing_halt iosz d t t' :
  usbtmc_ioctl_clear iosz d t = Ret 0 t' ->
  exists evs,
    trace t' = trace t
               ++ EvControl USBTMC_REQUEST_INITIATE_CLEAR CLASS_IN_INTERFACE 0 0 [] 1
               :: evs ++ [check_clear_status; EvClearHalt false (bulk_out d)].
Proof.
  unfold usbtmc_ioctl_clear. hstep.
  destruct (script t) as [|r rest]; [discriminate |].
  destruct (r_rv r <? 0) eqn:Erv.
  { intros [= H _]. rewrite H in Erv. discriminate. }
  destruct (negb (byte_at (r_data r) 0 =? USBTMC_STATUS_SUCCESS)); [discriminate |].
  destruct (bulk_in_max_size d =? 0); [discriminate |].
  unfold with_fuel. intros H. apply clear_check_status_success in H.
  destruct H as [evs E]. exists evs. rewrite E. cbn [trace].
  rewrite <- app_assoc. reflexivity.
Qed.

Lemma clear_succeeds_only_after_clearing_halt_witness :
  let t := {| script := [status_success; answer 2 [2; 1]; answer 0 [7; 7; 7];
                         status_success; answer 0 []];
              trace := [] |} in
  exists evs,
    trace (final (usbtmc_ioctl_clear 2048 (data scope) t))
    = EvControl USBTMC_REQUEST_INITIATE_CLEAR CLASS_IN_INTERFACE 0 0 [] 1
      :: evs ++ [check_clear_status; EvClearHalt false 2].
Proof.
  cbv zeta.
  apply (clear_succeeds_only_after_clearing_halt 2048 (data scope)
           {| script := [status_success; answer 2 [2; 1]; answer 0 [7; 7; 7];
                         status_success; answer 0 []];
              trace := [] |}).
  vm_compute. reflexivity.
Defined.

(** ** What is fixed at probe, and the timeout *)

(** X11.  Probe clamps the two module parameters before it uses them: the
    buffer size it works with is at least 512 and a multiple of 4 (a value
    of 512 or more is rounded down, by 3 at most), and the timeout of the
    device is at least [USBTMC_MIN_TIMEOUT] (a value at or above the minimum
    is taken as it is).  This holds however probe ends. *)
Theorem probe_clamps_module_parameters
    iosz tmo interface submitted registered answers :
  let w := final (usbtmc_probe iosz tmo interface submitted registered answers) in
  (512 <= io_buffer_size w /\ io_buffer_size w mod 4 = 0
   /\ (512 <= iosz -> iosz - 3 <= io_buffer_size w <= iosz))
  /\ USBTMC_MIN_TIMEOUT <= timeout (data w)
  /\ (USBTMC_MIN_TIMEOUT <= tmo -> timeout (data w) = tmo).
Proof. apply probe_parameters. Qed.

Lemma probe_clamps_module_parameters_witness :
  let w := final (usbtmc_probe 1023 100 scope_interface 0 0 [full_capabilities]) in
  io_buffer_size w = 1020 /\ 1023 - 3 <= io_buffer_size w <= 1023
  /\ timeout (data w) = 500.
Proof.
  destruct (probe_clamps_module_parameters 1023 100 scope_interface 0 0
              [full_capabilities]) as ((_ & _ & H) & _ & _).
  cbv zeta. split; [reflexivity |]. split; [apply H; lia | reflexivity].
Defined.

(** X12.  No file operation, notification, attribute store or disconnect
    changes what probe found out about the device: the interface and its
    number, the addresses of the bulk and interrupt endpoints with the
    interval and packet size of the latter, and the capabilities with their
    coalesced USB488 byte. *)
Theorem description_is_fixed_after_probe ops w :
  description (data (run_ops ops w)) = description (data w).
Proof. apply settled_run_ops. Qed.

(** X13.  In every state the driver can reach the timeout is at least
    [USBTMC_MIN_TIMEOUT]: probe starts it there or above, and the only code
    that assigns it afterwards, SET_TIMEOUT, refuses smaller values. *)
Theorem timeout_never_below_minimum w :
  reachable w -> USBTMC_MIN_TIMEOUT <= timeout (data w).
Proof.
  induction 1 as [iosz tmo interface submitted registered answers w E | o answers w _ IH].
  - pose proof (probe_parameters iosz tmo interface submitted registered answers) as H.
    cbv zeta in H. rewrite E in H. apply H.
  - destruct (settled_exec o answers w) as [_ H]. apply H, IH.
Qed.

Lemma timeout_never_below_minimum_witness :
  let w := run_ops [(OpIoctl 0%nat USBTMC_IOCTL_SET_TIMEOUT
                       (user_arg (user_bytes [232; 3; 0; 0])), []);
                    (OpIoctl 0%nat USBTMC_IOCTL_SET_TIMEOUT
                       (user_arg (user_bytes [100; 0; 0; 0])), [])]
                   scope_open in
  timeout (data w) = 1000 /\ USBTMC_MIN_TIMEOUT <= timeout (data w).
Proof.
  cbv zeta. split; [reflexivity |].
  apply timeout_never_below_minimum.
  apply reachable_run_ops, reach_exec, reachable_scope.
Defined.

(** X14.  SET_TIMEOUT and GET_TIMEOUT on an open handle of a live device,
    for a value [v] handed in as four little-endian bytes: below
    [USBTMC_MIN_TIMEOUT] the value is refused with [-EINVAL] and nothing
    changes; otherwise it is stored, and GET_TIMEOUT then hands the same
    four bytes back.  Neither command talks to the device. *)
Theorem set_timeout_refuses_small_and_get_returns_it w h fd v p q :
  files w !! h = Some fd -> zombie (data w) = false ->
  0 <= v < 2 ^ 32 ->
  copy_from_user p 0 4 = Some (le32_bytes v) -> copy_to_user q 0 4 = true ->
  (v < USBTMC_MIN_TIMEOUT ->
   usbtmc_ioctl h USBTMC_IOCTL_SET_TIMEOUT (user_arg p) w = Ret (- EINVAL, []) w)
  /\ (USBTMC_MIN_TIMEOUT <= v ->
      let w1 := set_data (set_timeout v (data w)) w in
      usbtmc_ioctl h USBTMC_IOCTL_SET_TIMEOUT (user_arg p) w = Ret (0, []) w1
      /\ usbtmc_ioctl h USBTMC_IOCTL_GET_TIMEOUT (user_arg q) w1
         = Ret (0, le32_bytes v) w1).
Proof.
  intros Hh Hz Hv Hp Hq. split.
  - intros Hlow. rewrite (ioctl_live _ _ _ _ _ Hh Hz).
    unfold no_output, usbtmc_ioctl_set_timeout. cbn [arg_ptr user_arg].
    rewrite Hp, le32_value_bytes, u32_small by exact Hv.
    apply Z.ltb_lt in Hlow. rewrite Hlow. reflexivity.
  - intros Hhigh w1. split.
    + rewrite (ioctl_live _ _ _ _ _ Hh Hz).
      unfold no_output, usbtmc_ioctl_set_timeout. cbn [arg_ptr user_arg].
      rewrite Hp, le32_value_bytes, u32_small by exact Hv.
      apply Z.ltb_ge in Hhigh. rewrite Hhigh. reflexivity.
    + rewrite (ioctl_live w1 _ _ _ fd) by assumption.
      unfold usbtmc_ioctl_get_timeout. cbn [arg_ptr user_arg].
      unfold mbind, prog_bind, get_data. rewrite Hq. reflexivity.
Qed.

Lemma set_timeout_refuses_small_and_get_returns_it_witness :
  let w1 := set_data (set_timeout 1000 (data scope_open)) scope_open in
  usbtmc_ioctl 0%nat USBTMC_IOCTL_SET_TIMEOUT (user_arg (user_bytes [232; 3; 0; 0]))
    scope_open = Ret (0, []) w1
  /\ usbtmc_ioctl 0%nat USBTMC_IOCTL_GET_TIMEOUT (user_arg (user_buffer 4)) w1
     = Ret (0, [232; 3; 0; 0]) w1.
Proof.
  destruct (set_timeout_refuses_small_and_get_returns_it scope_open 0%nat
              fresh_handle 1000 (user_bytes [232; 3; 0; 0]) (user_buffer 4))
    as [_ H].
  - vm_compute; reflexivity.
  - reflexivity.
  - vm_compute. split; [discriminate | reflexivity].
  - reflexivity.
  - reflexivity.
  - apply H. vm_compute. discriminate.
Defined.

(** X15.  CONFIG_TERMCHAR on an open handle of a live device.  Enabling the
    termination character is refused with [-EINVAL] when the device lacks
    the capability (bit 0 of its device capabilities), and so is a flag
    above 1; nothing changes then.  Otherwise the command returns 0 and
    changes the settings of the device only: the handle it was issued on
    keeps the values it copied when it was opened, and a handle opened
    afterwards starts with the new ones. *)
Theorem config_termchar_sets_defaults_of_later_opens w h fd p tc en :
  files w !! h = Some fd -> zombie (data w) = false ->
  copy_from_user p 0 2 = Some [tc; en] ->
  (1 < en \/ en <> 0 /\ Z.land (device_capabilities (capabilities (data w))) 1 = 0 ->
   usbtmc_ioctl h USBTMC_IOCTL_CONFIG_TERMCHAR (user_arg p) w = Ret (- EINVAL, []) w)
  /\ (en = 0 \/ en = 1 /\ Z.land (device_capabilities (capabilities (data w))) 1 <> 0 ->
      let d1 := set_TermCharEnabled (negb (en =? 0)) (set_TermChar tc (data w)) in
      let w1 := set_data d1 w in
      usbtmc_ioctl h USBTMC_IOCTL_CONFIG_TERMCHAR (user_arg p) w = Ret (0, []) w1
      /\ files w1 !! h = Some fd
      /\ exists h' w2,
           usbtmc_open w1 = Ret (0, h') w2
           /\ files w2 !! h = Some fd
           /\ files w2 !! h' =
              Some {| srq_byte := 0; srq_asserted := 0; f_TermChar := tc;
                      f_TermCharEnabled := negb (en =? 0);
                      f_auto_abort := auto_abort (data w) |}).
Proof.
  intros Hh Hz Hp. split.
  - apply (config_termchar_rejected w h fd p tc en); assumption.
  - apply (config_termchar_accepted w h fd p tc en); assumption.
Qed.

Lemma config_termchar_sets_defaults_of_later_opens_witness :
  usbtmc_ioctl 0%nat USBTMC_IOCTL_CONFIG_TERMCHAR (user_arg (user_bytes [13; 1]))
    meter_open = Ret (- EINVAL, []) meter_open
  /\ exists w1 h' w2,
       usbtmc_ioctl 0%nat USBTMC_IOCTL_CONFIG_TERMCHAR (user_arg (user_bytes [13; 1]))
         scope_open = Ret (0, []) w1
       /\ usbtmc_open w1 = Ret (0, h') w2
       /\ files w2 !! 0%nat = Some fresh_handle
       /\ files w2 !! h' =
          Some {| srq_byte := 0; srq_asserted := 0; f_TermChar := 13;
                  f_TermCharEnabled := true; f_auto_abort := false |}.
Proof.
  split.
  - destruct (config_termchar_sets_defaults_of_later_opens meter_open 0%nat
                fresh_handle (user_bytes [13; 1]) 13 1) as [H _].
    + vm_compute; reflexivity.
    + reflexivity.
    + reflexivity.
    + apply H. right. split; [discriminate | reflexivity].
  - destruct (config_termchar_sets_defaults_of_later_opens scope_open 0%nat
                fresh_handle (user_bytes [13; 1]) 13 1) as [_ H].
    + vm_compute; reflexivity.
    + reflexivity.
    + reflexivity.
    + destruct H as (E & _ & h' & w2 & Eo & H0 & H1).
      { right. split; [reflexivity | vm_compute; discriminate]. }
      eexists. exists h', w2. split; [exact E |]. split; [exact Eo |].
      split; [exact H0 | exact H1].
Defined.

(** ** Handles *)

(** X16.  Opening a live device adds one handle under a key that was not in
    use, with no service request pending and with the device's current
    TermChar, TermCharEnabled and auto_abort; it changes nothing else and
    talks to nobody.  Releasing that handle restores the state as it was
    before the open. *)
Theorem open_adds_a_handle_release_removes_it w :
  zombie (data w) = false ->
  exists h w1,
    usbtmc_open w = Ret (0, h) w1
    /\ files w !! h = None
    /\ files w1 = <[h := {| srq_byte := 0; srq_asserted := 0;
                            f_TermChar := TermChar (data w);
                            f_TermCharEnabled := TermCharEnabled (data w);
                            f_auto_abort := auto_abort (data w) |}]> (files w)
    /\ data w1 = data w /\ usb w1 = usb w
    /\ usbtmc_release h w1 = Ret 0 w.
Proof.
  intros Hz. unfold usbtmc_open, usbtmc_release. mrun. rewrite Hz.
  set (h := fresh (dom (files w))).
  assert (Hfresh : files w !! h = None).
  { apply not_elem_of_dom. apply is_fresh. }
  exists h. eexists. split; [reflexivity |]. cbn.
  repeat split; try assumption.
  unfold set_files. cbn. rewrite delete_insert_id by exact Hfresh.
  destruct w; reflexivity.
Qed.

Lemma open_adds_a_handle_release_removes_it_witness :
  exists h w1,
    usbtmc_open scope_open = Ret (0, h) w1
    /\ files scope_open !! h = None
    /\ usbtmc_release h w1 = Ret 0 scope_open.
Proof.
  destruct (open_adds_a_handle_release_removes_it scope_open)
    as (h & w1 & E & Hn & _ & _ & _ & Hr).
  - reflexivity.
  - exists h, w1. split; [exact E | split; [exact Hn | exact Hr]].
Defined.

(** X17.  A service request and poll.  On a live device, after the
    notification [0x81, stb], poll on an open handle reports POLLPRI;
    READ_STB on that handle returns [stb] without talking to the device;
    after it poll on that handle reports nothing, while poll on every other
    handle that was open still reports POLLPRI. *)
Theorem poll_reports_srq_until_read_stb w h fd stb arg :
  files w !! h = Some fd -> zombie (data w) = false ->
  copy_to_user arg 0 1 = true ->
  let w1 := final (usbtmc_interrupt (srq_notification stb) w) in
  let w2 := set_files (<[h := set_srq stb 0 fd]> (files w1)) w1 in
  usbtmc_poll h w = Ret (if srq_asserted fd =? 0 then 0 else POLLPRI) w
  /\ usbtmc_poll h w1 = Ret POLLPRI w1
  /\ usbtmc488_ioctl_read_stb h arg w1 = Ret (0, [stb]) w2
  /\ usbtmc_poll h w2 = Ret 0 w2
  /\ (forall h' fd', h' <> h -> files w !! h' = Some fd' ->
        usbtmc_poll h' w2 = Ret POLLPRI w2).
Proof.
  intros Hh Hz Hu w1 w2.
  assert (H1 : forall k fd', files w !! k = Some fd' ->
                 files w1 !! k = Some (set_srq stb 1 fd')).
  { intros k fd' Hk. subst w1. unfold usbtmc_interrupt, srq_notification. mrun.
    rewrite lookup_fmap, Hk. reflexivity. }
  assert (Hz1 : zombie (data w1) = false) by exact Hz.
  split; [apply (usbtmc_poll_live _ _ _ Hh Hz) |].
  split; [rewrite (usbtmc_poll_live _ _ _ (H1 _ _ Hh) Hz1); reflexivity |].
  split.
  { rewrite (read_stb_fast w1 h arg _ (H1 _ _ Hh)) by discriminate.
    unfold put_stb. rewrite Hu. reflexivity. }
  split.
  - rewrite (usbtmc_poll_live w2 h (set_srq stb 0 fd)); [reflexivity | | exact Hz].
    subst w2. cbn. apply lookup_insert_eq.
  - intros h' fd' Hne Hh'.
    rewrite (usbtmc_poll_live w2 h' (set_srq stb 1 fd')); [reflexivity | | exact Hz].
    subst w2. cbn. rewrite lookup_insert_ne by congruence. apply H1, Hh'.
Qed.

Lemma poll_reports_srq_until_read_stb_witness :
  let w1 := final (usbtmc_interrupt (srq_notification 66) scope_open2) in
  let w2 := set_files (<[0%nat := set_srq 66 0 fresh_handle]> (files w1)) w1 in
  usbtmc_poll 0%nat scope_open2 = Ret 0 scope_open2
  /\ usbtmc_poll 0%nat w1 = Ret POLLPRI w1
  /\ usbtmc488_ioctl_read_stb 0%nat (user_buffer 1) w1 = Ret (0, [66]) w2
  /\ usbtmc_poll 0%nat w2 = Ret 0 w2
  /\ usbtmc_poll 1%nat w2 = Ret POLLPRI w2.
Proof.
  destruct (poll_reports_srq_until_read_stb scope_open2 0%nat fresh_handle 66
              (user_buffer 1)) as (H0 & H1 & H2 & H3 & H4).
  - vm_compute; reflexivity.
  - reflexivity.
  - reflexivity.
  - cbv zeta. split; [exact H0 |]. split; [exact H1 |]. split; [exact H2 |].
    split; [exact H3 |].
    apply (H4 1%nat fresh_handle); [discriminate | vm_compute; reflexivity].
Defined.

(** ** The status byte through the interrupt endpoint *)

(** X18.  READ_STB on a handle with no service request pending, on a device
    with an interrupt-in endpoint that answers READ_STATUS_BYTE with
    success.  What the command returns is decided by the completions of the
    interrupt URB that arrive during its wait.
    - A status notification (first byte above 0x81) is among them: the last
      such notification counts, whatever its tag and whatever arrives before
      or after it, a service request included.  The wait hands back the
      jiffies left of the timeout, at least 1, as a [long], and the command
      keeps them in an [int].  When fewer than 2^31 are left, as always when
      the timeout is below 2^31, the second byte of the notification goes
      to the caller: 0 is returned, or [-EFAULT] when the byte cannot be
      stored.  When 2^31 or more are left, which SET_TIMEOUT makes possible,
      the [int] is negative and is returned as it is, and no byte is stored.
    - No status notification is among them: the command fails with
      [-ETIMEDOUT], or with [-ERESTARTSYS] when a signal ended the wait.
    Either way the tag of the next request has advanced.  One of the two
    cases always applies ([stb_notification_cases]). *)
Theorem read_stb_returns_byte_of_notification w h fd arg ctl wt rest :
  files w !! h = Some fd -> srq_asserted fd = 0 ->
  iin_ep_present (data w) = true ->
  script (usb w) = ctl :: wt :: rest ->
  answers_status USBTMC_STATUS_SUCCESS ctl ->
  (let left := Z.max 1 (Z.min (timeout (data w)) (r_actual wt)) in
   forall us u vs,
     r_urbs wt = us ++ u :: vs -> is_stb_notification u = true ->
     forallb (fun v => negb (is_stb_notification v)) vs = true ->
     left < 2 ^ 32 ->
     exists w',
       usbtmc488_ioctl_read_stb h arg w
       = Ret (if left <? 2 ^ 31 then put_stb (urb_b1 u) arg
              else (left - 2 ^ 32, [])) w'
       /\ iin_bTag (data w') = next_iin_bTag (iin_bTag (data w))
       /\ script (usb w') = rest
       /\ trace (usb w') = trace (usb w)
            ++ [EvControl USBTMC488_REQUEST_READ_STATUS_BYTE CLASS_IN_INTERFACE
                          (iin_bTag (data w)) (ifnum (data w)) [] 3;
                EvWait (timeout (data w))])
  /\ (forallb (fun u => negb (is_stb_notification u)) (r_urbs wt) = true ->
      exists w',
        usbtmc488_ioctl_read_stb h arg w
        = Ret (if r_rv wt <? 0 then - ERESTARTSYS else - ETIMEDOUT, []) w'
        /\ iin_bTag (data w') = next_iin_bTag (iin_bTag (data w))).
Proof.
  intros Hh Hs Hiin Hscript Hctl. split.
  - intros left us u vs Hurbs Hu Hq Hleft.
    destruct (read_stb_notified w h fd arg ctl wt us u vs rest)
      as (w' & E & Hrest); try assumption.
    exists w'. split; [| exact Hrest]. rewrite E. f_equal. cbv zeta.
    destruct (to_int_jiffies (timeout (data w)) (r_actual wt)) as (H1 & Hs31 & Hb31).
    fold left in H1, Hs31, Hb31 |- *.
    destruct (left <? 2 ^ 31) eqn:E31.
    + apply Z.ltb_lt in E31. rewrite (Hs31 E31).
      replace (left <? 0) with false by (symmetry; apply Z.ltb_ge; lia).
      replace (left =? 0) with false by (symmetry; apply Z.eqb_neq; lia).
      reflexivity.
    + apply Z.ltb_ge in E31. rewrite Hb31 by lia.
      replace (left - 2 ^ 32 <? 0) with true by (symmetry; apply Z.ltb_lt; lia).
      reflexivity.
  - intros Hq. apply (read_stb_times_out w h fd arg ctl wt rest); assumption.
Qed.

Lemma read_stb_returns_byte_of_notification_witness :
  let stb := {| urb_status := 0; urb_b0 := 130; urb_b1 := 16 |} in
  let slow := exec (OpIoctl 0 USBTMC_IOCTL_SET_TIMEOUT
                      (user_arg (user_bytes [0; 0; 0; 192]))) [] scope_open in
  let early := {| r_rv := 0; r_actual := 3000000000; r_data := [];
                  r_urbs := [stb] |} in
  (exists w',
     usbtmc488_ioctl_read_stb 0%nat (user_buffer 1)
       (feed [answer 3 [1; 2; 0]; notified [stb; srq_notification 66]] scope_open)
     = Ret (0, [16]) w'
     /\ iin_bTag (data w') = 3)
  /\ (exists w',
        usbtmc488_ioctl_read_stb 0%nat (user_buffer 1)
          (feed [answer 3 [1; 2; 0]; early] slow)
        = Ret (- 1294967296, []) w'
        /\ iin_bTag (data w') = 3)
  /\ (exists w',
        usbtmc488_ioctl_read_stb 0%nat (user_buffer 1)
          (feed [answer 3 [1; 2; 0]; notified [srq_notification 66]] scope_open)
        = Ret (- ETIMEDOUT, []) w'
        /\ iin_bTag (data w') = 3).
Proof.
  intros stb slow early. split; [| split].
  - destruct (read_stb_returns_byte_of_notification
                (feed [answer 3 [1; 2; 0]; notified [stb; srq_notification 66]]
                      scope_open)
                0%nat fresh_handle (user_buffer 1) (answer 3 [1; 2; 0])
                (notified [stb; srq_notification 66]) [])
      as [H _].
    + vm_compute; reflexivity.
    + reflexivity.
    + reflexivity.
    + reflexivity.
    + split; [vm_compute; discriminate | reflexivity].
    + destruct (H [] stb [srq_notification 66])
        as (w' & E & Ht & _); try reflexivity.
      exists w'. split; [exact E | exact Ht].
  - destruct (read_stb_returns_byte_of_notification
                (feed [answer 3 [1; 2; 0]; early] slow)
                0%nat fresh_handle (user_buffer 1) (answer 3 [1; 2; 0]) early [])
      as [H _].
    + vm_compute; reflexivity.
    + reflexivity.
    + reflexivity.
    + reflexivity.
    + split; [vm_compute; discriminate | reflexivity].
    + destruct (H [] stb []) as (w' & E & Ht & _); try reflexivity.
      exists w'. split; [exact E | exact Ht].
  - destruct (read_stb_returns_byte_of_notification
                (feed [answer 3 [1; 2; 0]; notified [srq_notification 66]] scope_open)
                0%nat fresh_handle (user_buffer 1) (answer 3 [1; 2; 0])
                (notified [srq_notification 66]) [])
      as [_ H].
    + vm_compute; reflexivity.
    + reflexivity.
    + reflexivity.
    + reflexivity.
    + split; [vm_compute; discriminate | reflexivity].
    + destruct H as (w' & E & Ht); [reflexivity |].
      exists w'. split; [exact E | exact Ht].
Defined.

(** ** The generic control request *)

(** X19.  USBTMC_IOCTL_CTRL_REQUEST with a device-to-host request of
    [wLength] bytes makes one control transfer with the fields the user
    gave.  However many bytes the USB core reports, the value returned and
    the number of bytes stored through the user's data pointer stay within
    [wLength]; and bytes are stored only where the user's buffer can take
    them. *)
Theorem ctrl_request_in_stays_within_wLength d arg req t rv out t' :
  arg_request arg = Some req ->
  Z.land (bRequestType req) USB_DIR_IN <> 0 -> 0 <= wLength req ->
  usbtmc_ioctl_request d arg t = Ret (rv, out) t' ->
  rv <= wLength req /\ Zlen out <= wLength req
  /\ (0 <= rv -> Zlen out <= rv /\ copy_to_user (req_data req) 0 rv = true)
  /\ trace t' = trace t ++ [EvControl (USER_REQUEST (bRequest req))
                                      (bRequestType req) (wValue req)
                                      (wIndex req) [] (wLength req)].
Proof.
  intros Hreq Hdir Hlen. unfold usbtmc_ioctl_request. rewrite Hreq.
  apply Z.eqb_neq in Hdir. rewrite Hdir. cbn [negb]. hstep.
  destruct (script t) as [|r rest]; [discriminate |].
  destruct (r_rv r <? 0) eqn:Erv.
  { intros [= <- <- <-]. apply Z.ltb_lt in Erv. change (Zlen []) with 0.
    repeat split; try lia. }
  apply Z.ltb_ge in Erv.
  set (n := if r_rv r >? wLength req then wLength req else r_rv r).
  assert (Hn : 0 <= n <= wLength req /\ n <= r_rv r).
  { subst n. destruct (r_rv r >? wLength req) eqn:E; rewrite Z.gtb_ltb in E;
      [apply Z.ltb_lt in E | apply Z.ltb_ge in E]; lia. }
  destruct (copy_to_user (req_data req) 0 n) eqn:Ec.
  - intros [= <- <- <-]. pose proof (Zlen_slice_le (r_data r) 0 n ltac:(lia)).
    repeat split; try lia; assumption.
  - intros [= <- <- <-]. unfold EFAULT. change (Zlen []) with 0.
    repeat split; try lia.
Qed.

Lemma ctrl_request_in_stays_within_wLength_witness :
  let req := {| bRequestType := 161; bRequest := 7; wValue := 0; wIndex := 0;
                wLength := 2; req_data := user_buffer 8 |} in
  let arg := {| arg_ptr := user_buffer 0; arg_request := Some req |} in
  let t := {| script := [answer 4 [9; 8; 7; 6]]; trace := [] |} in
  usbtmc_ioctl_request (data scope) arg t
  = Ret (2, [9; 8]) (final (usbtmc_ioctl_request (data scope) arg t))
  /\ 2 <= wLength req /\ Zlen [9; 8] <= wLength req.
Proof.
  cbv zeta. split; [reflexivity |].
  destruct (ctrl_request_in_stays_within_wLength (data scope)
              {| arg_ptr := user_buffer 0;
                 arg_request :=
                   Some {| bRequestType := 161; bRequest := 7; wValue := 0;
                           wIndex := 0; wLength := 2; req_data := user_buffer 8 |} |}
              {| bRequestType := 161; bRequest := 7; wValue := 0; wIndex := 0;
                 wLength := 2; req_data := user_buffer 8 |}
              {| script := [answer 4 [9; 8; 7; 6]]; trace := [] |}
              2 [9; 8]
              (final (usbtmc_ioctl_request (data scope)
                        {| arg_ptr := user_buffer 0;
                           arg_request :=
                             Some {| bRequestType := 161; bRequest := 7; wValue := 0;
                                     wIndex := 0; wLength := 2;
                                     req_data := user_buffer 8 |} |}
                        {| script := [answer 4 [9; 8; 7; 6]]; trace := [] |})))
    as (H1 & H2 & _).
  - reflexivity.
  - vm_compute; discriminate.
  - vm_compute; discriminate.
  - vm_compute; reflexivity.
  - split; [exact H1 | exact H2].
Defined.

(** ** Capabilities *)

(** X20.  In every state the driver can reach, the byte that GET_CAPS
    reports ([usb488_caps]) is the stored USB488 capabilities packed as
    [get_capabilities] packs them; that byte lies in 0..247, its bits 0..2
    are the low three bits of the interface capabilities, its bits 4..7 the
    low four bits of the device capabilities, and its bit 3 is clear. *)
Theorem usb488_caps_packs_the_capabilities :
  (forall w, reachable w ->
     usb488_caps (data w) = coalesced (capabilities (data w)))
  /\ (forall c,
        0 <= coalesced c <= 247
        /\ Z.land (coalesced c) 7 = Z.land (usb488_interface_capabilities c) 7
        /\ Z.shiftr (coalesced c) 4 = Z.land (usb488_device_capabilities c) 15
        /\ Z.testbit (coalesced c) 3 = false).
Proof. split; [apply reachable_coalesced | apply coalesced_bits]. Qed.

Lemma usb488_caps_packs_the_capabilities_witness :
  usb488_caps (data scope_busy) = 247
  /\ usb488_caps (data scope_busy) = coalesced (capabilities (data scope_busy)).
Proof.
  destruct usb488_caps_packs_the_capabilities as [H _].
  split; [reflexivity |].
  apply H. apply reachable_run_ops, reach_exec, reachable_scope.
Defined.

(** ** The tag of bulk-out messages *)

(** X21.  TRIGGER advances the tag whether or not its transfer works.  From
    a tag [b] in 1..255, after [n] TRIGGER commands the tag is
    [(b - 1 + n) mod 255 + 1], so it goes round 1..255 and never is 0, and
    [bTag_last_write] is the tag one step behind. *)
Theorem triggers_take_the_tag_round rs w h fd arg :
  files w !! h = Some fd -> zombie (data w) = false -> script (usb w) = [] ->
  1 <= bTag (data w) <= 255 ->
  let w' := run_ops (triggers h arg rs) w in
  bTag (data w') = (bTag (data w) - 1 + Zlen rs) mod 255 + 1
  /\ (rs <> [] ->
      bTag_last_write (data w') = (bTag (data w) - 1 + (Zlen rs - 1)) mod 255 + 1).
Proof. apply triggers_tags. Qed.

Lemma triggers_take_the_tag_round_witness :
  let w' := run_ops (triggers 0%nat (user_arg (user_buffer 0))
                       (repeat (answer (- EPIPE) []) 255)) scope_open in
  bTag (data scope_open) = 1 /\ bTag (data w') = 1 /\ bTag_last_write (data w') = 255.
Proof.
  destruct (triggers_take_the_tag_round (repeat (answer (- EPIPE) []) 255)
              scope_open 0%nat fresh_handle (user_arg (user_buffer 0)))
    as [H1 H2].
  - vm_compute; reflexivity.
  - reflexivity.
  - reflexivity.
  - vm_compute. split; discriminate.
  - cbv zeta. split; [reflexivity |]. split.
    + rewrite H1. reflexivity.
    + rewrite H2 by discriminate. reflexivity.
Defined.

(** ** Disconnect *)

(** X22.  After disconnect the device is a zombie and its interrupt URB is
    gone; the open handles are still there.  A new open fails with
    [-ENODEV] and adds no handle; poll reports POLLHUP and POLLERR, not a
    pending service request; release still works and removes its handle. *)
Theorem disconnect_leaves_handles_to_be_released w h fd :
  files w !! h = Some fd ->
  let w1 := final (usbtmc_disconnect w) in
  zombie (data w1) = true
  /\ (iin_ep_present (data w) = true -> iin_urb (data w1) = false)
  /\ files w1 = files w /\ usb w1 = usb w
  /\ usbtmc_open w1 = Ret (- ENODEV, 0%nat) w1
  /\ usbtmc_poll h w1 = Ret (Z.lor POLLHUP POLLERR) w1
  /\ usbtmc_release h w1 = Ret 0 (set_files (delete h (files w)) w1).
Proof.
  intros Hh. cbv zeta. unfold usbtmc_disconnect, usbtmc_free_int. mrun.
  destruct (iin_ep_present (data w)) eqn:Ep; destruct (iin_urb (data w)) eqn:Eu;
    cbn; unfold usbtmc_open, usbtmc_poll, usbtmc_release; mrun; rewrite ?Hh;
    repeat split; auto; discriminate.
Qed.

Lemma disconnect_leaves_handles_to_be_released_witness :
  let w1 := final (usbtmc_disconnect scope_srq) in
  iin_urb (data scope_srq) = true /\ iin_urb (data w1) = false
  /\ usbtmc_poll 0%nat w1 = Ret 24 w1
  /\ usbtmc_release 0%nat w1 = Ret 0 (set_files (delete 0%nat (files scope_srq)) w1).
Proof.
  destruct (disconnect_leaves_handles_to_be_released scope_srq 0%nat
              (set_srq 66 1 fresh_handle)) as (_ & Hu & _ & _ & _ & Hp & Hr).
  - vm_compute; reflexivity.
  - cbv zeta. split; [reflexivity |]. split; [apply Hu; reflexivity |].
    split; [exact Hp | exact Hr].
Defined.

(** ** End of message *)

(** X23.  EOM_ENABLE takes 0 or 1 and refuses anything else with
    [-EINVAL]; it talks to nobody.  What it stores decides the
    end-of-message bit of the writes that follow: a write that the transport
    completes marks its last frame, and only that one, when 1 was stored, and
    marks no frame when 0 was stored. *)
Theorem eom_enable_decides_last_frame w h fd p e buf count k :
  files w !! h = Some fd -> zombie (data w) = false ->
  copy_from_user p 0 1 = Some [e] ->
  (1 < e ->
   usbtmc_ioctl h USBTMC_IOCTL_EOM_ENABLE (user_arg p) w = Ret (- EINVAL, []) w)
  /\ (0 <= e <= 1 ->
      USBTMC_HEADER_SIZE < io_buffer_size w < 2 ^ 31 ->
      0 <= count < 2 ^ 31 -> count <= Zlen (u_bytes buf) ->
      count <= Z.of_nat k * (io_buffer_size w - USBTMC_HEADER_SIZE) ->
      (k <= length (script (usb w)))%nat ->
      Forall (completes (roundup4 (io_buffer_size w))) (firstn k (script (usb w))) ->
      exists w1 w2 frames,
        usbtmc_ioctl h USBTMC_IOCTL_EOM_ENABLE (user_arg p) w = Ret (0, []) w1
        /\ usb w1 = usb w
        /\ usbtmc_write h buf count w1 = Ret count w2
        /\ trace (usb w2) = trace (usb w) ++ sent (bulk_out (data w)) frames
        /\ eom_only_last (negb (e =? 0)) frames).
Proof.
  intros Hh Hz Hp. pose proof (eom_enable_result w h fd p e Hh Hz Hp) as E.
  split.
  - intros He. apply Z.gtb_lt in He. rewrite He in E. exact E.
  - intros He Hio Hc Hb Hk Hs Hok.
    assert (Hle : (e >? 1) = false) by (rewrite Z.gtb_ltb; apply Z.ltb_ge; lia).
    rewrite Hle in E.
    destruct (write_completes (set_data (set_eom_val (negb (e =? 0)) (data w)) w)
                h fd buf count k)
      as (w2 & frames & Ew & Ht & _ & _ & _ & Heom & _); try assumption.
    eexists. exists w2, frames. split; [exact E |].
    split; [reflexivity |]. split; [exact Ew |]. split; [exact Ht | exact Heom].
Qed.

Lemma eom_enable_decides_last_frame_witness :
  exists w1 w2 frames,
    usbtmc_ioctl 0%nat USBTMC_IOCTL_EOM_ENABLE (user_arg (user_bytes [0]))
      (feed [moved 2048] scope_open) = Ret (0, []) w1
    /\ usbtmc_write 0%nat (user_bytes [72; 73]) 2 w1 = Ret 2 w2
    /\ eom_only_last false frames
    /\ trace (usb w2)
       = trace (usb scope_open) ++ sent 2 frames.
Proof.
  destruct (eom_enable_decides_last_frame (feed [moved 2048] scope_open) 0%nat
              fresh_handle (user_bytes [0]) 0 (user_bytes [72; 73]) 2 1)
    as [_ H].
  - vm_compute; reflexivity.
  - reflexivity.
  - reflexivity.
  - destruct H as (w1 & w2 & frames & E1 & _ & E2 & Ht & He).
    + lia.
    + vm_compute. split; reflexivity.
    + vm_compute. split; [discriminate | reflexivity].
    + vm_compute. discriminate.
    + vm_compute. discriminate.
    + vm_compute. lia.
    + change (Forall (completes 2048) [moved 2048]).
      repeat apply List.Forall_cons; try apply List.Forall_nil;
        (split; [reflexivity | vm_compute; discriminate]).
    + exists w1, w2, frames. split; [exact E1 |]. split; [exact E2 |].
      split; [exact He | exact Ht].
Defined.

(** ** Edges of read and write *)

Lemma write_loop_fault fuel buf count remaining done iosz d fs s tr :
  USBTMC_HEADER_SIZE < iosz < 2 ^ 31 -> 0 < remaining < 2 ^ 31 ->
  Zlen (u_bytes buf)
    < done + Z.min remaining (iosz - USBTMC_HEADER_SIZE) ->
  write_loop (S fuel) buf count remaining done (mk_world iosz d fs s tr)
  = Ret (- EFAULT) (mk_world iosz d fs s tr).
Proof.
  intros Hio Hr Hb. unfold USBTMC_HEADER_SIZE in *. cbn [write_loop].
  assert (E : (remaining >? 0) = true) by (apply Z.gtb_lt; lia).
  rewrite E. cbn [negb]. wstep.
  rewrite (u32_small remaining), (u32_small (iosz - USBTMC_HEADER_SIZE))
    by (unfold USBTMC_HEADER_SIZE; lia).
  rewrite (to_int_small (iosz - USBTMC_HEADER_SIZE))
    by (unfold USBTMC_HEADER_SIZE; lia).
  unfold USBTMC_HEADER_SIZE.
  assert (Hf : forall n, n = Z.min remaining (iosz - 12) ->
                 copy_from_user buf done n = None).
  { intros n ->. unfold copy_from_user.
    assert (E0 : (Z.min remaining (iosz - 12) =? 0) = false) by (apply Z.eqb_neq; lia).
    assert (E1 : (done + Z.min remaining (iosz - 12) <=? Zlen (u_bytes buf)) = false)
      by (apply Z.leb_gt; lia).
    rewrite E0, E1. reflexivity. }
  destruct (remaining >? iosz - 12) eqn:Eg; rewrite Z.gtb_ltb in Eg;
    [apply Z.ltb_lt in Eg | apply Z.ltb_ge in Eg];
    rewrite Hf by lia; reflexivity.
Qed.

(** X24.  Transfers of no bytes.  A write of 0 bytes on an open handle of a
    live device returns 0 and does nothing at all.  A read of 0 bytes whose
    request transfer works has sent REQUEST_DEV_DEP_MSG_IN, with
    TransferSize 0, and advanced the tag; it returns 0 without reading the
    bulk-in endpoint. *)
Theorem transfers_of_no_bytes w h fd buf :
  files w !! h = Some fd -> zombie (data w) = false ->
  usbtmc_write h buf 0 w = Ret 0 w
  /\ (forall r0 rest,
        script (usb w) = r0 :: rest -> 0 <= r_rv r0 ->
        exists w',
          usbtmc_read h buf 0 w = Ret (0, []) w'
          /\ script (usb w') = rest
          /\ trace (usb w') = trace (usb w)
               ++ [EvBulkOut (bulk_out (data w))
                             (request_dev_dep_msg_in fd (data w) 0)
                             USBTMC_HEADER_SIZE]
          /\ bTag (data w') = next_bTag (bTag (data w))
          /\ bTag_last_write (data w') = bTag (data w)).
Proof.
  intros Hh Hz. split.
  - unfold usbtmc_write. mstep. rewrite Hh. mstep. rewrite Hz.
    unfold with_fuelM. cbn [write_loop]. reflexivity.
  - intros r0 rest Hs H0. destruct w as [iosz d fs [s tr]]. cbn in *. subst s.
    pose proof (usbtmc_read_request iosz d fs r0 rest tr h fd buf 0 Hh Hz) as E.
    cbv zeta in E. apply Z.ltb_ge in H0. rewrite H0 in E.
    unfold with_fuelM in E. rewrite read_loop_end in E.
    unfold mk_world in E. eexists. split; [exact E |]. cbn. auto.
Qed.

Lemma transfers_of_no_bytes_witness :
  usbtmc_write 0%nat (user_bytes []) 0 (feed [moved 12] scope_open)
  = Ret 0 (feed [moved 12] scope_open)
  /\ exists w',
       usbtmc_read 0%nat (user_buffer 0) 0 (feed [moved 12] scope_open)
       = Ret (0, []) w'
       /\ bTag (data w') = 2 /\ length (trace (usb w')) = 2%nat.
Proof.
  destruct (transfers_of_no_bytes (feed [moved 12] scope_open) 0%nat fresh_handle
              (user_bytes [])) as [Hw _];
    [vm_compute; reflexivity | reflexivity |].
  destruct (transfers_of_no_bytes (feed [moved 12] scope_open) 0%nat fresh_handle
              (user_buffer 0)) as [_ Hr];
    [vm_compute; reflexivity | reflexivity |].
  split; [exact Hw |].
  destruct (Hr (moved 12) []) as (w' & E & _ & Ht & Hb & _);
    [reflexivity | vm_compute; discriminate |].
  exists w'. split; [exact E |]. split; [exact Hb |]. rewrite Ht. reflexivity.
Defined.

(** X25.  A write that faults part-way.  When the first chunk of the
    user's buffer can be read and the second cannot, the write has already
    sent the first frame, without the end-of-message bit, and advanced the
    tag when it returns [-EFAULT]: the device is left with the start of a
    message, and the caller is not told that anything was sent. *)
Theorem write_fault_leaves_message_open w h fd buf count r rest :
  files w !! h = Some fd -> zombie (data w) = false ->
  USBTMC_HEADER_SIZE < io_buffer_size w < 2 ^ 31 ->
  io_buffer_size w - USBTMC_HEADER_SIZE < count < 2 ^ 31 ->
  io_buffer_size w - USBTMC_HEADER_SIZE <= Zlen (u_bytes buf)
    < io_buffer_size w - USBTMC_HEADER_SIZE
      + Z.min (count - (io_buffer_size w - USBTMC_HEADER_SIZE))
              (io_buffer_size w - USBTMC_HEADER_SIZE) ->
  script (usb w) = r :: rest -> completes (roundup4 (io_buffer_size w)) r ->
  exists w' frame,
    usbtmc_write h buf count w = Ret (- EFAULT) w'
    /\ trace (usb w') = trace (usb w) ++ sent (bulk_out (data w)) [frame]
    /\ frame_eom frame = false
    /\ frame_payload frame
       = firstn (Z.to_nat (io_buffer_size w - USBTMC_HEADER_SIZE)) (u_bytes buf)
    /\ bTag (data w') = next_bTag (bTag (data w))
    /\ script (usb w') = rest.
Proof.
  intros Hh Hz Hio Hc Hb Hs Hok.
  destruct w as [iosz d fs [s tr]]. cbn in *. subst s.
  unfold USBTMC_HEADER_SIZE in *.
  set (payload := slice (u_bytes buf) 0 (iosz - 12)).
  assert (Hpl : Zlen payload = iosz - 12) by (apply Zlen_slice; lia).
  destruct (dev_dep_msg_out_frame d (iosz - 12) 0 payload) as (Hl & Hpay & _);
    [lia | exact Hpl |].
  pose proof (write_loop_round (S (length rest)) buf count count 0 iosz d fs r rest tr)
    as Hround.
  cbv zeta in Hround.
  assert (El : (count <=? iosz - USBTMC_HEADER_SIZE) = false)
    by (apply Z.leb_gt; unfold USBTMC_HEADER_SIZE; lia).
  rewrite El in Hround. fold payload in Hround.
  unfold USBTMC_HEADER_SIZE in Hround.
  exists (mk_world iosz (bump_bTag (set_bTag_last_write (bTag d) d)) fs rest
            (tr ++ [EvBulkOut (bulk_out d) (dev_dep_msg_out d (iosz - 12) 0 payload)
                              (Zlen (dev_dep_msg_out d (iosz - 12) 0 payload))])),
    (dev_dep_msg_out d (iosz - 12) 0 payload).
  split; [| split; [reflexivity | split; [reflexivity | split; [exact Hpay | split; reflexivity]]]].
  unfold usbtmc_write. wstep. rewrite Hh. wstep. rewrite Hz.
  unfold with_fuelM. cbn [usb script length].
  rewrite (to_int_small count) by lia.
  unfold mk_world in Hround. rewrite Hround by (assumption || lia || (unfold USBTMC_HEADER_SIZE; lia)).
  apply write_loop_fault; unfold USBTMC_HEADER_SIZE; lia.
Qed.

Lemma write_fault_leaves_message_open_witness :
  exists w' frame,
    usbtmc_write 0%nat (user_bytes (repeat 65 600)) 1200 (feed [moved 512] scope_512)
    = Ret (- EFAULT) w'
    /\ trace (usb w') = trace (usb scope_512) ++ sent 2 [frame]
    /\ frame_eom frame = false
    /\ frame_payload frame = repeat 65 500
    /\ bTag (data w') = 2.
Proof.
  destruct (write_fault_leaves_message_open (feed [moved 512] scope_512) 0%nat
              fresh_handle (user_bytes (repeat 65 600)) 1200 (moved 512) [])
    as (w' & frame & E & Ht & He & Hp & Hb & _).
  - vm_compute; reflexivity.
  - reflexivity.
  - vm_compute. split; reflexivity.
  - vm_compute. split; reflexivity.
  - vm_compute. split; [discriminate | reflexivity].
  - reflexivity.
  - split; [reflexivity | vm_compute; discriminate].
  - exists w', frame. split; [exact E |]. split; [exact Ht |].
    split; [exact He |]. split; [exact Hp | exact Hb].
Defined.

(** ** REN_CONTROL, GOTO_LOCAL, LOCAL_LOCKOUT *)

(** X26.  A "simple" USB488 request returns 0 only when the device has the
    capability and its one control transfer, addressed to the interface with
    a value of 0 or 1 (0 unless the request is REN_CONTROL), returned exactly
    one byte and that byte says success. *)
Theorem simple_request_needs_one_byte_success d arg cmd t t' :
  usbtmc488_ioctl_simple d arg cmd t = Ret 0 t' ->
  Z.land (usb488_caps d) USBTMC488_CAPABILITY_SIMPLE <> 0
  /\ exists r wValue,
       script t = r :: script t' /\ r_rv r = 1
       /\ byte_at (r_data r) 0 = USBTMC_STATUS_SUCCESS
       /\ 0 <= wValue <= 1 /\ (is_ren_control cmd = false -> wValue = 0)
       /\ trace t' = trace t ++ [EvControl cmd CLASS_IN_INTERFACE wValue
                                           (ifnum d) [] 1].
Proof.
  unfold usbtmc488_ioctl_simple.
  destruct (Z.land (usb488_caps d) USBTMC488_CAPABILITY_SIMPLE =? 0) eqn:Ecap;
    [discriminate |].
  apply Z.eqb_neq in Ecap.
  assert (Hw : exists wv, (if is_ren_control cmd
                           then match copy_from_user arg 0 1 with
                                | Some val => Some (if byte_at val 0 =? 0 then 0 else 1)
                                | None => None
                                end
                           else Some 0) = wv
                          /\ forall x, wv = Some x ->
                               0 <= x <= 1 /\ (is_ren_control cmd = false -> x = 0)).
  { eexists. split; [reflexivity |]. intros x.
    destruct (is_ren_control cmd).
    - destruct (copy_from_user arg 0 1) as [val|]; [| discriminate].
      intros [= <-]. destruct (byte_at val 0 =? 0); split; (lia || discriminate).
    - intros [= <-]. split; [lia | reflexivity]. }
  destruct Hw as (wv & -> & Hwv). destruct wv as [wValue|]; [| discriminate].
  destruct (Hwv wValue eq_refl) as [Hrange Hzero].
  hstep. destruct (script t) as [|r rest]; [discriminate |].
  destruct (r_rv r <? 0) eqn:Erv.
  { intros [= H _]. rewrite H in Erv. discriminate. }
  destruct (negb (r_rv r =? 1)) eqn:E1; [discriminate |].
  apply negb_false_iff, Z.eqb_eq in E1.
  destruct (negb (byte_at (r_data r) 0 =? USBTMC_STATUS_SUCCESS)) eqn:Es;
    [discriminate |].
  apply negb_false_iff, Z.eqb_eq in Es.
  intros [= <-]. split; [exact Ecap |]. exists r, wValue. cbn.
  repeat split; auto; lia.
Qed.

Lemma simple_request_needs_one_byte_success_witness :
  let t := {| script := [answer 1 [1]]; trace := [] |} in
  let t' := {| script := [];
               trace := [EvControl USBTMC488_REQUEST_REN_CONTROL CLASS_IN_INTERFACE
                                   1 0 [] 1] |} in
  usbtmc488_ioctl_simple (data scope) (user_bytes [5]) USBTMC488_REQUEST_REN_CONTROL t
  = Ret 0 t'
  /\ Z.land (usb488_caps (data scope)) USBTMC488_CAPABILITY_SIMPLE <> 0.
Proof.
  cbv zeta. split; [reflexivity |].
  apply (simple_request_needs_one_byte_success (data scope) (user_bytes [5])
           USBTMC488_REQUEST_REN_CONTROL
           {| script := [answer 1 [1]]; trace := [] |}
           {| script := [];
              trace := [EvControl USBTMC488_REQUEST_REN_CONTROL CLASS_IN_INTERFACE
                                  1 0 [] 1] |}).
  reflexivity.
Defined.
